(** * mint: a shallow embedding of the handler adapter (package [m], mint.go)

    The development follows the source file top to bottom: the data model
    (errors, result envelopes, the response wrapper, the process-wide
    configuration), the typed extractors, the per-request pipeline of [H],
    the response and error classifiers, and the route-pattern scanner.

    Conventions.
    - Go [int] is a 64-bit integer; it is modelled by [Z]. The only
      arithmetic of the code is counting ([depth], [keyIdx]), bounded by the
      length of a string or a slice, so no wrap-around arises; the ranges of
      the [strconv] functions are written out.
    - Go strings and byte slices are byte sequences: [string] of [ascii].
    - Pointers held in interface values are non-nil: an [error] built with
      [PtrHTTPError] or [PtrExtractError] is a pointer to the shown struct.
    - Code outside the repository (the Go standard library, gorilla/schema,
      go-playground/validator, user handlers and hooks) is reached through the
      class [GoLib] or through function-valued fields. *)

From Stdlib Require Import ZArith Ascii String List Bool Lia.
From stdpp Require Import base option strings pretty gmap list.

Local Open Scope string_scope.
Local Open Scope Z_scope.

#[local] Set Warnings "-register-all".

(** ** Byte strings: the fragments of package [strings] the source calls *)

Fixpoint HasPrefix (s prefix : string) : bool :=
  match prefix, s with
  | EmptyString, _ => true
  | String _ _, EmptyString => false
  | String p prefix', String c s' => Ascii.eqb c p && HasPrefix s' prefix'
  end.

(** [strings.Contains]. *)
Fixpoint Contains (s substr : string) : bool :=
  HasPrefix s substr ||
  match s with
  | EmptyString => false
  | String _ s' => Contains s' substr
  end.

(** [strings.Join]. *)
Fixpoint Join (elems : list string) (sep : string) : string :=
  match elems with
  | [] => EmptyString
  | [e] => e
  | e :: rest => e +:+ sep +:+ Join rest sep
  end.

Definition isUpperASCII (c : ascii) : bool :=
  ((65 <=? Z.of_N (N_of_ascii c)) && (Z.of_N (N_of_ascii c) <=? 90))%Z.

Definition lowerByte (c : ascii) : ascii :=
  if isUpperASCII c then ascii_of_N (N_of_ascii c + 32) else c.

Fixpoint asciiLower (s : string) : string :=
  match s with
  | EmptyString => EmptyString
  | String c s' => String (lowerByte c) (asciiLower s')
  end.

(** Every byte below [utf8.RuneSelf] (0x80). *)
Fixpoint isASCII (s : string) : bool :=
  match s with
  | EmptyString => true
  | String c s' => (Z.of_N (N_of_ascii c) <? 128)%Z && isASCII s'
  end.

(** ** Errors *)

Module HTTPError.
  (** [type HTTPError struct], with its JSON tags [code], [error] and
      [message,omitempty]. *)
Record t := mk { Code : Z; Err : string; Message : string }.

  (** [func (e HTTPError) Error() string]. *)
Definition Error (e : t) : string :=
    if negb (String.eqb (Message e) EmptyString) then Message e else Err e.
End HTTPError.

Module FieldError.
  (** The four methods of [validator.FieldError] that the source calls. *)
Record t := mk { Field : string; StructField : string; Tag : string; Param : string }.
End FieldError.

(** [strconv.ErrSyntax] and [strconv.ErrRange]. *)
Inductive NumErrKind := ErrSyntax | ErrRange.

(** The dynamic types of [error] values that the source tells apart, each
    with the fields the source reads. Error types of other packages carry
    the text of their [Error()] method in [msg]. [OtherError] is any other
    error type ([errors.New], [fmt.Errorf] with or without a wrapped
    cause); an error that wraps several causes at once ([errors.Join]) is
    not represented. *)
Inductive error : Type :=
| PtrHTTPError (e : HTTPError.t)
| ValHTTPError (e : HTTPError.t)
| PtrExtractError (Type_ Field Value Message : string) (Err : option error)
| JsonUnmarshalTypeError (Field TypeString Value msg : string)
| JsonSyntaxError (msg : string)
| SchemaMultiError (entries : list (string * error)) (msg : string)
| SchemaConversionError (Key msg : string)
| SchemaUnknownKeyError (Key msg : string)
| ValidationErrors (ve : list FieldError.t) (msg : string)
| NumError (Func Num : string) (kind : NumErrKind) (msg : string)
| OtherError (msg : string) (cause : option error).

Module ExtractError.
  (** [type ExtractError struct], as read back from a [*ExtractError]. *)
Record t := mk {
    Type_ : string; Field : string; Value : string; Message : string;
    Err : option error }.

Definition toError (e : t) : error :=
    PtrExtractError (Type_ e) (Field e) (Value e) (Message e) (Err e).
End ExtractError.

(** The [Error()] method of each dynamic type. *)
Definition Error (err : error) : string :=
  match err with
  | PtrHTTPError e | ValHTTPError e => HTTPError.Error e
  | PtrExtractError _ _ _ Message _ => Message
  | JsonUnmarshalTypeError _ _ _ msg | JsonSyntaxError msg
  | SchemaMultiError _ msg | SchemaConversionError _ msg
  | SchemaUnknownKeyError _ msg | ValidationErrors _ msg
  | NumError _ _ _ msg | OtherError msg _ => msg
  end.

(** [errors.As(err, &target)]: the first error of the [Unwrap] chain whose
    dynamic type is the target's. [target] recognises that type.
    [*ExtractError] unwraps to its [Err] field (mint.go, [Unwrap]); the
    wrappers of [fmt.Errorf] unwrap to their cause. *)
Fixpoint errors_As {T : Type} (target : error -> option T) (err : error) : option T :=
  match target err with
  | Some t => Some t
  | None =>
      match err with
      | PtrExtractError _ _ _ _ (Some c) => errors_As target c
      | OtherError _ (Some c) => errors_As target c
      | _ => None
      end
  end.

Definition asPtrHTTPError (err : error) : option HTTPError.t :=
  match err with PtrHTTPError e => Some e | _ => None end.

Definition asValHTTPError (err : error) : option HTTPError.t :=
  match err with ValHTTPError e => Some e | _ => None end.

Definition asPtrExtractError (err : error) : option ExtractError.t :=
  match err with
  | PtrExtractError ty f v m c => Some (ExtractError.mk ty f v m c)
  | _ => None
  end.

Definition asValidationErrors (err : error) : option (list FieldError.t) :=
  match err with ValidationErrors ve _ => Some ve | _ => None end.

(** The extraction-failure kinds (the [ErrType...] constants). *)
Definition ErrTypeBodyRead : string := "body_read_error".
Definition ErrTypeEmptyBody : string := "empty_body".
Definition ErrTypeFormParse : string := "form_parse_error".
Definition ErrTypePathConversion : string := "path_conversion_error".
Definition ErrTypeMissingPath : string := "missing_path_value".
Definition ErrTypeValidation : string := "validation_error".

(** ** Requests, values and the response writer *)

(** A Go type seen through reflection: its printed name. *)
Definition TypeName := string.

(** [url.Values] and [http.Header] in iteration order. *)
Definition Values := list (string * list string).

(** Decoded payloads (structs, maps, slices, primitives) as the JSON codec
    and the schema decoder see them. *)
Inductive GoData :=
| DNull
| DBool (b : bool)
| DInt (n : Z)
| DString (s : string)
| DSlice (elems : list GoData)
| DStruct (fields : list (string * GoData)).

(** What the adapter reads of an [*http.Request]. [Body] is the outcome of
    [io.ReadAll(r.Body)], [ParseForm] the outcome of [r.ParseForm()]
    followed by [r.Form]. *)
Record Request := mkRequest {
  Pattern : string;
  PathValues : gmap string string;
  Body : string + error;
  URLQuery : Values;
  ParseForm : Values + error }.

(** [r.PathValue(name)]: the empty string when there is no such wildcard. *)
Definition PathValue (r : Request) (name : string) : string :=
  default EmptyString (PathValues r !! name).

(** The calls the transport's [http.ResponseWriter] receives, in order. *)
Inductive TEvent :=
| THeaderSet (key value : string)
| THeaderAdd (key value : string)
| TWriteHeader (code : Z)
| TWrite (b : string).

(** [type ResponseWriter struct]: the embedded transport writer (by the
    calls it received), [statusCode] and [headerWritten]. *)
Record ResponseWriter := mkResponseWriter {
  inner : list TEvent;
  statusCode : Z;
  headerWritten : bool }.

(** What code outside the package can do with an [http.ResponseWriter]. *)
Inductive WriterOp :=
| OpHeaderSet (key value : string)
| OpHeaderAdd (key value : string)
| OpWriteHeader (code : Z)
| OpWrite (b : string).

(** The dynamic types of a handler's return value that the classifiers tell
    apart. [AResult] is a [Result[T]] after [toResult]; a nil interface in
    its [Data] or [Err] is [None]. [AData] is everything else. A value has
    one of these kinds only: a value that is at once an error and an
    [http.Handler] (or a [Responder], or an [io.Reader]) is not
    represented. *)
Inductive any :=
| AResponder (Respond : list WriterOp)
| AString (s : string)
| AStatusCode (code : Z)
| ABytes (b : string)
| AHTML (s : string)
| ATemplateHTML (s : string)
| AReader (chunks : list string) (err : option error)
| AHandler (ServeHTTP : Request -> list WriterOp)
| AResult (Code : Z) (Headers : option Values) (Data : option any) (Err : option error)
| AError (e : error)
| AData (d : GoData).

Module Result.
  (** [type Result[T any] struct], at [T = any]. *)
Record t := mk {
    Code : Z; Headers : option Values; Data : option any; Err : option error }.

  (** [func OK[T any](data T) Result[T]]. *)
Definition OK (data : any) : t :=
    {| Code := 0; Headers := None; Data := Some data; Err := None |}.

  (** [func Err[T any](code int, err error) Result[T]]: [Data] is the zero
      value of [T], given by the caller. *)
Definition Err_ (zero : option any) (code : Z) (err : option error) : t :=
    {| Code := code; Headers := None; Data := zero; Err := err |}.
End Result.

(** ** Configuration *)

Definition LoggerId := nat.

Record Config := mkConfig {
  SchemaDecoder : option (TypeName -> Values -> GoData + error);
  JSONMarshalFunc : option (any -> string + error);
  JSONEncodeFunc : option (any -> list string * option error);
  JSONUnmarshalFunc : option (string -> TypeName -> GoData + error);
  Logger : option LoggerId;
  EnableValidation : bool;
  Validator : option (TypeName -> GoData -> option error) }.

(** Code of other packages. *)
Class GoLib := {
  (** [strings.Map(unicode.ToLower, s)], the path of [strings.ToLower] for a
      string with a byte outside ASCII. *)
  unicode_ToLower : string -> string;
  (** [strconv.Quote], what the verb [%q] prints for a string. *)
  strconv_Quote : string -> string;
  (** [strconv.ParseFloat(s, 64)]: the IEEE 754 bits of the result. *)
  strconv_ParseFloat : string -> Z + NumErrKind;
  (** One [Encode] of [json.NewEncoder(w)] with [SetEscapeHTML(false)]: the
      bytes of its single write, or the marshalling error. *)
  json_Encode : any -> string + error;
  (** [json.Unmarshal] into a value of the named type. *)
  json_Unmarshal : string -> TypeName -> GoData + error;
  (** [Decode] of [schema.NewDecoder()] after [IgnoreUnknownKeys(true)]. *)
  schema_Decode : TypeName -> Values -> GoData + error;
  (** [Struct] of [validator.New()] with the given tag-name function. *)
  validator_Struct : (string -> string -> string) -> TypeName -> GoData -> option error;
  (** The zero value of the named type. *)
  zeroValue : TypeName -> GoData }.

(** [strings.ToLower]: the ASCII path is written out. *)
Definition ToLower `{GoLib} (s : string) : string :=
  if isASCII s then asciiLower s else unicode_ToLower s.

(** ** The state of one request and the monad of the per-request code *)

(** The values the package panics with: a nil dereference of the runtime,
    the messages of [log.Panicf] in [H] by their format and arguments, and
    a failed type assertion. *)
Inductive PanicValue :=
| NilPointerDereference
| HandlerMustBeFunction (T : TypeName)
| TooManyReturnValues (numOut : nat)
| InterfaceReturnNotSupported
| FirstReturnIsInterface
| FirstReturnIsResult
| SecondReturnNotError (T : TypeName)
| InsufficientPathParameters (pattern : string)
| UnsupportedParameterType (T : TypeName)
| InterfaceConversion.

Inductive LogMsg :=
| LogMultipleWriteHeader (original new : Z)
| LogFailedWriteErrorResponse (e : error)
| LogFailedWriteResponse (e : error)
| LogNestedBraces (position : nat) (pattern : string)
| LogUnmatchedClosingBrace (position : nat) (pattern : string)
| LogUnbalancedBraces (pattern : string)
| LogPanic (p : PanicValue).

(** A line printed on a logger; [None] is [log.Default()]. *)
Record LogEntry := mkLogEntry { le_logger : option LoggerId; le_msg : LogMsg }.

(** The primitive kinds of [PathValue] and the named types over them. *)
Inductive PathKind :=
| KString | KInt | KInt64 | KUint | KUint64 | KFloat64 | KBool
| KNamed (name : TypeName) (underlying : PathKind).

Inductive PathVal :=
| VString (s : string)
| VInt (n : Z)
| VInt64 (n : Z)
| VUint (n : Z)
| VUint64 (n : Z)
| VFloat64 (bits : Z)
| VBool (b : bool)
| VNamed (name : TypeName) (underlying : PathVal).

Module Path.
(** [type Path[T PathValue] struct]. *)
Record t := mk { T : PathKind; Value : PathVal; Key : string }.
End Path.

(** A type of the user whose pointer implements [Extractor], and perhaps
    [KeySetter]; [ce_Extract] is its [Extract] method after [SetKey]. *)
Record CustomExtractor := mkCustomExtractor {
  ce_type : TypeName;
  ce_isKeySetter : bool;
  ce_Extract : string -> Request -> option error }.

(** Extractor instances: [JSON[T]], [Query[T]], [Form[T]], [Path[T]] and
    the types of the user. *)
Inductive Extractor :=
| EJSON (T : TypeName) (Value : GoData)
| EQuery (T : TypeName) (Value : GoData)
| EForm (T : TypeName) (Value : GoData)
| EPath (p : Path.t)
| ECustom (c : CustomExtractor) (Key : string).

(** The values passed to the handler function. *)
Inductive Arg :=
| ArgExtractor (paramVal : Extractor)
| ArgResponseWriter
| ArgRequest.

(** The package variables [config], [configOnce] and [CustomErrorHandler],
    the lines logged so far, the wrapper [rw] of the request being served
    and the calls of the handler function made so far. *)
Record World := mkWorld {
  config : option Config;
  configOnce : bool;
  CustomErrorHandler : option (error -> list WriterOp);
  logs : list LogEntry;
  rw : ResponseWriter;
  calls : list (list Arg) }.

Inductive Outcome (A : Type) :=
| Ok (a : A) (s : World)
| Panicked (p : PanicValue) (s : World).
Arguments Ok {A} a s.
Arguments Panicked {A} p s.

Definition M (A : Type) : Type := World -> Outcome A.

#[export] Instance M_ret : MRet M := fun A a s => Ok a s.
#[export] Instance M_bind : MBind M := fun A B f m s =>
  match m s with
  | Ok a s' => f a s'
  | Panicked p s' => Panicked p s'
  end.

Definition get : M World := fun s => Ok s s.
Definition put (s : World) : M unit := fun _ => Ok tt s.
Definition panic {A : Type} (p : PanicValue) : M A := fun s => Panicked p s.

Definition finalWorld {A : Type} (o : Outcome A) : World :=
  match o with Ok _ s | Panicked _ s => s end.

Definition panicked {A : Type} (o : Outcome A) : bool :=
  match o with Ok _ _ => false | Panicked _ _ => true end.

Fixpoint forM_ {A : Type} (l : list A) (f : A -> M unit) : M unit :=
  match l with
  | [] => mret tt
  | x :: l' => f x ;; forM_ l' f
  end.

Definition setRW (w : ResponseWriter) : M unit :=
  fun s => Ok tt (mkWorld (config s) (configOnce s) (CustomErrorHandler s) (logs s) w (calls s)).

Definition logPrintf (l : option LoggerId) (m : LogMsg) : M unit :=
  fun s => Ok tt (mkWorld (config s) (configOnce s) (CustomErrorHandler s)
                          (logs s ++ [mkLogEntry l m]) (rw s) (calls s)).

(** [log.Panicf]: print on the standard logger, then panic. *)
Definition log_Panicf {A : Type} (p : PanicValue) : M A :=
  logPrintf None (LogPanic p) ;; panic p.

(** [strings.SplitN(s, ",", 2)[0]]. *)
Fixpoint beforeComma (s : string) : string :=
  match s with
  | EmptyString => EmptyString
  | String c s' => if Ascii.eqb c ","%char then EmptyString else String c (beforeComma s')
  end.

(** The function registered by [newDefaultValidator], on the [json] and
    [form] tags of a struct field. *)
Definition tagNameFunc (jsonTag formTag : string) : string :=
  let name := beforeComma jsonTag in
  if String.eqb name "-" then EmptyString
  else if negb (String.eqb name EmptyString) then name
  else
    let name := beforeComma formTag in
    if String.eqb name "-" then EmptyString else name.

Section Config.
Context {lib : GoLib}.

Definition newDefaultValidator : TypeName -> GoData -> option error :=
    validator_Struct tagNameFunc.

Definition defaultConfig : Config :=
    {| SchemaDecoder := None; JSONMarshalFunc := None; JSONEncodeFunc := None;
       JSONUnmarshalFunc := None; Logger := None;
       EnableValidation := true; Validator := Some newDefaultValidator |}.

  (** [initDefaultConfig]: the body runs on the first call only. *)
Definition initDefaultConfig : M unit := fun s =>
    if configOnce s then Ok tt s
    else
      Ok tt (mkWorld (match config s with None => Some defaultConfig | Some c => Some c end)
                     true (CustomErrorHandler s) (logs s) (rw s) (calls s)).

Definition setConfigVar (c : Config) : M unit := fun s =>
    Ok tt (mkWorld (Some c) (configOnce s) (CustomErrorHandler s) (logs s) (rw s) (calls s)).

  (** [SetConfig]; [None] is a nil [*Config]. *)
Definition SetConfig (cfg : option Config) : M unit :=
    match cfg with
    | None => initDefaultConfig
    | Some cfg =>
        let cfg :=
          if EnableValidation cfg && negb (bool_decide (is_Some (Validator cfg)))
          then mkConfig (SchemaDecoder cfg) (JSONMarshalFunc cfg) (JSONEncodeFunc cfg)
                        (JSONUnmarshalFunc cfg) (Logger cfg) (EnableValidation cfg)
                        (Some newDefaultValidator)
          else cfg in
        setConfigVar cfg
    end.

  (** [getConfig]: the pointer held by [config] after [initDefaultConfig]. *)
Definition getConfig : M (option Config) :=
    initDefaultConfig ;; s ← get; mret (config s).

  (** A field access through a [*Config]: a nil pointer panics. *)
Definition deref (c : option Config) : M Config :=
    match c with
    | Some c => mret c
    | None => panic NilPointerDereference
    end.

  (** [func (c *Config) logger()]. *)
Definition Config_logger (c : option Config) : M (option LoggerId) :=
    c ← deref c; mret (Logger c).

  (** [func (c *Config) schemaDecoder()]. *)
Definition Config_schemaDecoder (c : option Config)
    : M (TypeName -> Values -> GoData + error) :=
    c ← deref c;
    mret (match SchemaDecoder c with None => schema_Decode | Some d => d end).

  (** [func (c *Config) jsonUnmarshal]. *)
Definition Config_jsonUnmarshal (c : option Config) (data : string) (T : TypeName)
    : M (GoData + error) :=
    c ← deref c;
    mret (match JSONUnmarshalFunc c with
          | None => json_Unmarshal data T
          | Some f => f data T
          end).

  (** [func (c *Config) validate]. *)
Definition Config_validate (c : option Config) (T : TypeName) (v : GoData)
    : M (option error) :=
    c ← deref c;
    if negb (EnableValidation c) then mret None
    else match Validator c with
         | None => mret None
         | Some validate => mret (validate T v)
         end.
End Config.

(** ** The response wrapper *)

Section ResponseWriter.
Context {lib : GoLib}.

(** A call forwarded to the embedded transport writer. The transport
    records every call: what a particular transport does with it (net/http
    refuses a status outside 100 to 999, a write can fail) is not
    modelled. *)
Definition forward (ev : TEvent) : M unit :=
  s ← get;
  setRW (mkResponseWriter (inner (rw s) ++ [ev]) (statusCode (rw s)) (headerWritten (rw s))).

(** [func (rw *ResponseWriter) WriteHeader(code int)]. *)
Definition WriteHeader (code : Z) : M unit :=
  s ← get;
  if headerWritten (rw s) then
    c ← getConfig;
    l ← Config_logger c;
    logPrintf l (LogMultipleWriteHeader (statusCode (rw s)) code)
  else
    let code := if code <=? 0 then 200 else code in
    setRW (mkResponseWriter (inner (rw s) ++ [TWriteHeader code]) code true).

(** [func (rw *ResponseWriter) Write(b []byte)]; the transport accepts the
    bytes, so the returned error is nil. *)
Definition Write (b : string) : M (option error) :=
  s ← get;
  (if negb (headerWritten (rw s)) then WriteHeader 200 else mret tt) ;;
  forward (TWrite b) ;;
  mret None.

(** [w.Header().Set] and [w.Header().Add], promoted from the transport. *)
Definition Header_Set (key value : string) : M unit := forward (THeaderSet key value).
Definition Header_Add (key value : string) : M unit := forward (THeaderAdd key value).

(** Code of the user running against [rw]. *)
Definition runOp (op : WriterOp) : M unit :=
  match op with
  | OpHeaderSet k v => Header_Set k v
  | OpHeaderAdd k v => Header_Add k v
  | OpWriteHeader code => WriteHeader code
  | OpWrite b => Write b ;; mret tt
  end.

Definition runOps (ops : list WriterOp) : M unit := forM_ ops runOp.

(** [func WriteHeaders(w http.ResponseWriter, headers http.Header)]. *)
Definition WriteHeaders (headers : Values) : M unit :=
  forM_ headers (fun kv => forM_ kv.2 (fun value => Header_Add kv.1 value)).

(** [func (c *Config) jsonEncode(w io.Writer, v any) error]. *)
Definition Config_jsonEncode (c : option Config) (v : any) : M (option error) :=
  c ← deref c;
  match JSONEncodeFunc c with
  | Some encode =>
      let (writes, err) := encode v in
      forM_ writes (fun b => Write b ;; mret tt) ;; mret err
  | None =>
      match JSONMarshalFunc c with
      | Some marshal =>
          match marshal v with
          | inr err => mret (Some err)
          | inl jsonData => Write jsonData
          end
      | None =>
          match json_Encode v with
          | inr err => mret (Some err)
          | inl bytes => Write bytes
          end
      end
  end.

End ResponseWriter.

(** ** Extraction failures *)

Section Errors.
Context {lib : GoLib}.

Definition NewBodyReadError (err : error) : error :=
  PtrExtractError ErrTypeBodyRead EmptyString EmptyString
    "failed to read request body" (Some err).

Definition NewEmptyBodyError : error :=
  PtrExtractError ErrTypeEmptyBody EmptyString EmptyString
    "request body is required" None.

Definition NewFormParseError (err : error) : error :=
  PtrExtractError ErrTypeFormParse EmptyString EmptyString
    "invalid form data format" (Some err).

Definition NewPathConversionError (field value targetType : string) (err : error) : error :=
  PtrExtractError ErrTypePathConversion field value
    ("invalid path parameter " +:+ strconv_Quote field +:+ ": cannot convert "
       +:+ strconv_Quote value +:+ " to " +:+ targetType)
    (Some err).

Definition NewMissingPathError (field : string) : error :=
  PtrExtractError ErrTypeMissingPath field EmptyString
    ("missing required path parameter: " +:+ field) None.

(** [formatFieldError]. *)
Definition formatFieldError (field : string) (fe : FieldError.t) : string :=
  let tag := FieldError.Tag fe in
  let param := FieldError.Param fe in
  if String.eqb tag "required" then field +:+ " is required"
  else if String.eqb tag "email" then field +:+ " must be a valid email address"
  else if String.eqb tag "min" then field +:+ " must be at least " +:+ param
  else if String.eqb tag "max" then field +:+ " must be at most " +:+ param
  else if String.eqb tag "len" then field +:+ " must be " +:+ param +:+ " characters long"
  else if String.eqb tag "gt" then field +:+ " must be greater than " +:+ param
  else if String.eqb tag "gte" then field +:+ " must be greater than or equal to " +:+ param
  else if String.eqb tag "lt" then field +:+ " must be less than " +:+ param
  else if String.eqb tag "lte" then field +:+ " must be less than or equal to " +:+ param
  else if String.eqb tag "oneof" then field +:+ " must be one of [" +:+ param +:+ "]"
  else if String.eqb tag "url" then field +:+ " must be a valid URL"
  else if String.eqb tag "uri" then field +:+ " must be a valid URI"
  else if String.eqb tag "alpha" then field +:+ " must contain only letters"
  else if String.eqb tag "alphanum" then field +:+ " must contain only letters and numbers"
  else if String.eqb tag "numeric" then field +:+ " must be numeric"
  else if String.eqb tag "uuid" then field +:+ " must be a valid UUID"
  else field +:+ " failed validation (" +:+ tag +:+ ")".

(** [formatValidationError]. *)
Definition formatValidationError (err : error) : string :=
  match errors_As asValidationErrors err with
  | None => Error err
  | Some [] => "validation failed"
  | Some ve =>
      Join (map (fun fe =>
                   let field := FieldError.Field fe in
                   let field := if String.eqb field EmptyString
                                then FieldError.StructField fe else field in
                   formatFieldError field fe) ve) "; "
  end.

Definition NewValidationError (err : error) : error :=
  PtrExtractError ErrTypeValidation EmptyString EmptyString
    (formatValidationError err) (Some err).

(** ** The error classifier *)

(** [inferStatusCode]. *)
Definition inferStatusCode (msg : string) : Z :=
  let lower := ToLower msg in
  if Contains lower "not found" then 404
  else if Contains lower "unauthorized" then 401
  else if Contains lower "forbidden" then 403
  else if Contains lower "timeout" then 408
  else if Contains lower "bad request" || Contains lower "invalid" then 400
  else 500.

(** [inferErrorType]. *)
Definition inferErrorType (code : Z) : string :=
  if code =? 400 then "bad_request"
  else if code =? 401 then "unauthorized"
  else if code =? 403 then "forbidden"
  else if code =? 404 then "not_found"
  else if code =? 408 then "timeout"
  else "internal_error".

(** The [switch extractErr.Type] of [toHTTPError]. *)
Definition extractErrorToHTTPError (extractErr : ExtractError.t) : HTTPError.t :=
  let ty := ExtractError.Type_ extractErr in
  if String.eqb ty ErrTypeBodyRead then
    HTTPError.mk 500 "internal_server_error" "unable to process request"
  else if String.eqb ty ErrTypeEmptyBody then
    HTTPError.mk 400 "empty_body" (ExtractError.Message extractErr)
  else if String.eqb ty ErrTypeFormParse then
    HTTPError.mk 400 "invalid_form" (ExtractError.Message extractErr)
  else if String.eqb ty ErrTypePathConversion then
    HTTPError.mk 400 "invalid_path_parameter" (ExtractError.Message extractErr)
  else if String.eqb ty ErrTypeMissingPath then
    HTTPError.mk 400 "missing_path_parameter" (ExtractError.Message extractErr)
  else if String.eqb ty ErrTypeValidation then
    HTTPError.mk 400 "validation_failed" (ExtractError.Message extractErr)
  else
    HTTPError.mk 400 ty (ExtractError.Message extractErr).

(** The [switch e := err.(type)] of [toHTTPError]: the dynamic type of
    [err] itself, no unwrapping. *)
Definition typeSwitchToHTTPError (err : error) : HTTPError.t :=
  match err with
  | JsonUnmarshalTypeError Field TypeString Value _ =>
      HTTPError.mk 400 "invalid_json_type"
        ("field " +:+ strconv_Quote Field +:+ " expects " +:+ TypeString
           +:+ " but got " +:+ Value)
  | JsonSyntaxError _ =>
      HTTPError.mk 400 "invalid_json_syntax" "invalid JSON syntax"
  | SchemaMultiError entries _ =>
      let messages := map (fun fe => fe.1 +:+ ": " +:+ Error fe.2) entries in
      HTTPError.mk 400 "validation_failed" (Join messages "; ")
  | SchemaConversionError Key _ =>
      HTTPError.mk 400 "conversion_failed" ("cannot convert field " +:+ strconv_Quote Key)
  | SchemaUnknownKeyError Key _ =>
      HTTPError.mk 400 "unknown_field" ("unknown field: " +:+ Key)
  | _ =>
      let errMsg := Error err in
      let code := inferStatusCode errMsg in
      HTTPError.mk code (inferErrorType code) EmptyString
  end.

(** [toHTTPError]; [None] is nil. *)
Definition toHTTPError (err : option error) : option HTTPError.t :=
  match err with
  | None => None
  | Some err =>
      match errors_As asPtrHTTPError err with
      | Some httpErr => Some httpErr
      | None =>
          match errors_As asValHTTPError err with
          | Some httpErrVal => Some httpErrVal
          | None =>
              match errors_As asPtrExtractError err with
              | Some extractErr => Some (extractErrorToHTTPError extractErr)
              | None => Some (typeSwitchToHTTPError err)
              end
          end
      end
  end.

End Errors.

(** ** The response classifier *)

Section Classifiers.
Context {lib : GoLib}.

(** [isNilValue] on a value returned by [fnVal.Call]: [None] is a nil
    value of a chan, func, interface, map, pointer or slice type. Where the
    code goes on to use such a value, [None] is the nil interface: a nil
    pointer of a concrete type (a nil [*HTTPError] returned where the
    declared type is that pointer type) is not represented. *)
Definition isNilValue (v : option any) : bool :=
  match v with
  | None => true
  | Some _ => false
  end.

(** [handleError]. Every caller in the package passes the wrapper [rw], so
    its type assertion to a pointer to [ResponseWriter] succeeds. The last line reads
    the package variable [config], not [getConfig()]. *)
Definition handleError (err : error) : M (option error) :=
  s ← get;
  match CustomErrorHandler s with
  | Some hook => runOps (hook err) ;; mret None
  | None =>
      let statusWritten := headerWritten (rw s) in
      match toHTTPError (Some err) with
      | None => mret None
      | Some httpErr =>
          Header_Set "Content-Type" "application/json; charset=utf-8" ;;
          (if negb statusWritten then WriteHeader (HTTPError.Code httpErr) else mret tt) ;;
          s ← get;
          Config_jsonEncode (config s) (AError (PtrHTTPError httpErr))
      end
  end.

(** [handleCommonTypes]. [fmt.Fprint(w, v)] on a string is one [Write] of
    its bytes; [io.Copy] writes what the reader yields, then returns the
    reader's error. The default case reads the package variable [config]. *)
Definition handleCommonTypes (data : option any) : M (option error) :=
  match data with
  | None => mret None
  | Some (AResponder respond) => runOps respond ;; mret None
  | Some (AString v) =>
      Header_Set "Content-Type" "text/plain; charset=utf-8" ;; Write v
  | Some (AStatusCode v) => WriteHeader v ;; mret None
  | Some (ABytes v) =>
      Header_Set "Content-Type" "application/octet-stream" ;; Write v
  | Some (AHTML v) | Some (ATemplateHTML v) =>
      Header_Set "Content-Type" "text/html; charset=utf-8" ;; Write v
  | Some (AReader chunks err) =>
      forM_ chunks (fun b => Write b ;; mret tt) ;; mret err
  | Some data =>
      Header_Set "Content-Type" "application/json; charset=utf-8" ;;
      s ← get;
      Config_jsonEncode (config s) data
  end.

(** [handleResult]. *)
Definition handleResult (result : Result.t) : M (option error) :=
  match Result.Headers result with
  | Some headers => WriteHeaders headers
  | None => mret tt
  end ;;
  (if negb (Result.Code result =? 0) then WriteHeader (Result.Code result) else mret tt) ;;
  match Result.Err result with
  | Some err => handleError err
  | None => handleCommonTypes (Result.Data result)
  end.

(** [handleOneResult]. *)
Definition handleOneResult (data : any) : M (option error) :=
  match data with
  | AResult Code Headers Data Err => handleResult (Result.mk Code Headers Data Err)
  | AError v => handleError v
  | _ => handleCommonTypes (Some data)
  end.

(** [handleTwoResults]; [err.(error)] panics on a value that is no error. *)
Definition handleTwoResults (data : option any) (err : option any) : M (option error) :=
  match err with
  | Some (AError e) => handleError e
  | Some _ => panic InterfaceConversion
  | None => handleCommonTypes data
  end.

End Classifiers.

(** ** Package [strconv], base 10, 64-bit [int] and [uint] *)

Module strconv.
Section strconv.
Context {lib : GoLib}.

Definition numError (fn num : string) (kind : NumErrKind) : error :=
  NumError fn num kind
    ("strconv." +:+ fn +:+ ": parsing " +:+ strconv_Quote num +:+ ": "
       +:+ match kind with
           | ErrSyntax => "invalid syntax"
           | ErrRange => "value out of range"
           end).

Definition digitOf (c : ascii) : option Z :=
  let n := Z.of_N (N_of_ascii c) in
  if (48 <=? n) && (n <=? 57) then Some (n - 48) else None.

Definition maxUint64 : Z := 2 ^ 64 - 1.

(** The digit loop of [ParseUint] with [base = 10]: a byte that is no
    decimal digit is a syntax error, an overflow a range error, whichever
    comes first. *)
Fixpoint parseUintLoop (n : Z) (s : string) : Z + NumErrKind :=
  match s with
  | EmptyString => inl n
  | String c s' =>
      match digitOf c with
      | None => inr ErrSyntax
      | Some d =>
          if n >=? maxUint64 / 10 + 1 then inr ErrRange
          else
            let n1 := n * 10 + d in
            if n1 >? maxUint64 then inr ErrRange else parseUintLoop n1 s'
      end
  end.

(** [ParseUint(s, 10, 64)], also [ParseUint(s, 10, 0)]. *)
Definition ParseUint (s : string) : Z + NumErrKind :=
  if String.eqb s EmptyString then inr ErrSyntax else parseUintLoop 0 s.

(** [ParseInt(s, 10, 64)]. *)
Definition ParseInt (s : string) : Z + NumErrKind :=
  match s with
  | EmptyString => inr ErrSyntax
  | String c s' =>
      let '(neg, digits) :=
        if Ascii.eqb c "+"%char then (false, s')
        else if Ascii.eqb c "-"%char then (true, s')
        else (false, s) in
      match ParseUint digits with
      | inr kind => inr kind
      | inl un =>
          if negb neg && (un >=? 2 ^ 63) then inr ErrRange
          else if neg && (un >? 2 ^ 63) then inr ErrRange
          else inl (if neg then - un else un)
      end
  end.

(** [Atoi(s)] is [ParseInt(s, 10, 0)]. *)
Definition Atoi (s : string) : Z + NumErrKind := ParseInt s.

(** [ParseBool]. *)
Definition ParseBool (str : string) : bool + NumErrKind :=
  if String.eqb str "1" || String.eqb str "t" || String.eqb str "T"
     || String.eqb str "TRUE" || String.eqb str "true" || String.eqb str "True"
  then inl true
  else if String.eqb str "0" || String.eqb str "f" || String.eqb str "F"
          || String.eqb str "FALSE" || String.eqb str "false" || String.eqb str "False"
  then inl false
  else inr ErrSyntax.

End strconv.
End strconv.

(** ** The typed extractors *)

Section Extractors.
Context {lib : GoLib}.

(** [func (j *JSON[T]) Extract]. *)
Definition JSON_Extract (T : TypeName) (Value : GoData) (r : Request)
  : M (GoData * option error) :=
  match Body r with
  | inr err => mret (Value, Some (NewBodyReadError err))
  | inl body =>
      if String.eqb body EmptyString then mret (Value, Some NewEmptyBodyError)
      else
        c ← getConfig;
        target ← Config_jsonUnmarshal c body T;
        match target with
        | inr err => mret (Value, Some err)
        | inl target =>
            c ← getConfig;
            verr ← Config_validate c T target;
            match verr with
            | Some err => mret (target, Some (NewValidationError err))
            | None => mret (target, None)
            end
        end
  end.

(** The decoding and validation shared by [Query] and [Form]. *)
Definition decodeValues (T : TypeName) (Value : GoData) (src : Values)
  : M (GoData * option error) :=
  c ← getConfig;
  decode ← Config_schemaDecoder c;
  match decode T src with
  | inr err => mret (Value, Some err)
  | inl target =>
      c ← getConfig;
      verr ← Config_validate c T target;
      match verr with
      | Some err => mret (target, Some (NewValidationError err))
      | None => mret (target, None)
      end
  end.

(** [func (q *Query[T]) Extract]. *)
Definition Query_Extract (T : TypeName) (Value : GoData) (r : Request)
  : M (GoData * option error) :=
  decodeValues T Value (URLQuery r).

(** [func (f *Form[T]) Extract]. *)
Definition Form_Extract (T : TypeName) (Value : GoData) (r : Request)
  : M (GoData * option error) :=
  match ParseForm r with
  | inr err => mret (Value, Some (NewFormParseError err))
  | inl form => decodeValues T Value form
  end.

(** [func (p *Path[T]) SetKey]. *)
Definition Path_SetKey (p : Path.t) (key : string) : Path.t :=
  Path.mk (Path.T p) (Path.Value p) key.

Definition Path_store (p : Path.t) (v : PathVal) : Path.t * option error :=
  (Path.mk (Path.T p) v (Path.Key p), None).

Definition Path_fail (p : Path.t) (pv targetType fn : string) (kind : NumErrKind)
  : Path.t * option error :=
  (p, Some (NewPathConversionError (Path.Key p) pv targetType (strconv.numError fn pv kind))).

(** [func (p *Path[T]) Extract]. The type switch is on the dynamic type of
    a pointer to [p.Value]: a named type falls to the default case. *)
Definition Path_Extract (p : Path.t) (r : Request) : Path.t * option error :=
  let pv := PathValue r (Path.Key p) in
  if String.eqb pv EmptyString then (p, Some (NewMissingPathError (Path.Key p)))
  else
    match Path.T p with
    | KString => Path_store p (VString pv)
    | KInt =>
        match strconv.Atoi pv with
        | inr kind => Path_fail p pv "int" "Atoi" kind
        | inl val => Path_store p (VInt val)
        end
    | KInt64 =>
        match strconv.ParseInt pv with
        | inr kind => Path_fail p pv "int64" "ParseInt" kind
        | inl val => Path_store p (VInt64 val)
        end
    | KUint =>
        match strconv.ParseUint pv with
        | inr kind => Path_fail p pv "uint" "ParseUint" kind
        | inl val => Path_store p (VUint val)
        end
    | KUint64 =>
        match strconv.ParseUint pv with
        | inr kind => Path_fail p pv "uint64" "ParseUint" kind
        | inl val => Path_store p (VUint64 val)
        end
    | KFloat64 =>
        match strconv_ParseFloat pv with
        | inr kind => Path_fail p pv "float64" "ParseFloat" kind
        | inl val => Path_store p (VFloat64 val)
        end
    | KBool =>
        match strconv.ParseBool pv with
        | inr kind => Path_fail p pv "bool" "ParseBool" kind
        | inl val => Path_store p (VBool val)
        end
    | KNamed name _ =>
        (p, Some (PtrExtractError "unsupported_type" (Path.Key p) EmptyString
                    ("Unsupported path parameter type: *" +:+ name) None))
    end.

(** The zero value of a [Path[T]]. *)
Fixpoint zeroPathVal (k : PathKind) : PathVal :=
  match k with
  | KString => VString EmptyString
  | KInt => VInt 0 | KInt64 => VInt64 0 | KUint => VUint 0 | KUint64 => VUint64 0
  | KFloat64 => VFloat64 0
  | KBool => VBool false
  | KNamed name u => VNamed name (zeroPathVal u)
  end.

(** [Extract] through the [Extractor] interface. *)
Definition Extract (e : Extractor) (r : Request) : M (Extractor * option error) :=
  match e with
  | EJSON T Value => res ← JSON_Extract T Value r; mret (EJSON T res.1, res.2)
  | EQuery T Value => res ← Query_Extract T Value r; mret (EQuery T res.1, res.2)
  | EForm T Value => res ← Form_Extract T Value r; mret (EForm T res.1, res.2)
  | EPath p => let res := Path_Extract p r in mret (EPath res.1, res.2)
  | ECustom c Key => mret (ECustom c Key, ce_Extract c Key r)
  end.

(** The type assertion of an extractor to [KeySetter]: its [SetKey]
    method, or [None] when the extractor does not implement [KeySetter]. *)
Definition SetKey (e : Extractor) : option (string -> Extractor) :=
  match e with
  | EPath p => Some (fun key => EPath (Path_SetKey p key))
  | ECustom c _ => if ce_isKeySetter c then Some (fun key => ECustom c key) else None
  | _ => None
  end.

End Extractors.

(** ** Route patterns *)

Definition byteZ (c : ascii) : Z := Z.of_N (N_of_ascii c).

Definition between (lo hi : Z) (c : ascii) : bool := (lo <=? byteZ c) && (byteZ c <=? hi).

(** The width in bytes of the UTF-8 encoding at the head of [s]; 0 when
    the bytes there are no valid encoding (the rune is then U+FFFD, of
    width 1), as [range] over a string decodes it. *)
Definition runeWidth (s : string) : nat :=
  match s with
  | EmptyString => 0%nat
  | String b0 s1 =>
      if byteZ b0 <? 128 then 1%nat
      else
        match s1 with
        | EmptyString => 0%nat
        | String b1 s2 =>
            if between 194 223 b0 then (if between 128 191 b1 then 2%nat else 0%nat)
            else
              match s2 with
              | EmptyString => 0%nat
              | String b2 s3 =>
                  if between 224 239 b0 then
                    if between (if byteZ b0 =? 224 then 160 else 128)
                               (if byteZ b0 =? 237 then 159 else 191) b1
                       && between 128 191 b2
                    then 3%nat else 0%nat
                  else
                    match s3 with
                    | EmptyString => 0%nat
                    | String b3 _ =>
                        if between 240 244 b0
                           && between (if byteZ b0 =? 240 then 144 else 128)
                                      (if byteZ b0 =? 244 then 143 else 191) b1
                           && between 128 191 b2 && between 128 191 b3
                        then 4%nat else 0%nat
                    end
              end
        end
  end.

Fixpoint takeBytes (n : nat) (s : string) : string :=
  match n, s with
  | S n', String c s' => String c (takeBytes n' s')
  | _, _ => EmptyString
  end.

(** [string(char)] for the rune at the head of [s]: its bytes, or the
    encoding of U+FFFD. *)
Definition runeString (s : string) : string :=
  match runeWidth s with
  | O => String (ascii_of_nat 239) (String (ascii_of_nat 191) (String (ascii_of_nat 189) EmptyString))
  | w => takeBytes w s
  end.

(** The local variables of [extractPatternNames]. *)
Record scanState := mkScan {
  names : list string;
  inParam : bool;
  currentName : string;
  depth : Z }.

Section Pattern.
Context {lib : GoLib}.

Definition warn (m : LogMsg) : M unit :=
  c ← getConfig; l ← Config_logger c; logPrintf l m.

(** The body of the loop, for the rune [char] at byte offset [i]. *)
Definition scanRune (pattern : string) (i : nat) (char : string) (st : scanState)
  : M scanState :=
  if String.eqb char "{" then
    (if inParam st then warn (LogNestedBraces i pattern) else mret tt) ;;
    mret (mkScan (names st) true EmptyString (depth st + 1))
  else if String.eqb char "}" then
    if negb (inParam st) then
      warn (LogUnmatchedClosingBrace i pattern) ;; mret st
    else
      mret (mkScan (if negb (String.eqb (currentName st) EmptyString)
                    then names st ++ [currentName st] else names st)
                   false (currentName st) (depth st - 1))
  else if inParam st then
    mret (mkScan (names st) (inParam st) (currentName st +:+ char) (depth st))
  else mret st.

(** [for i, char := range pattern] from byte offset [i], where [rest] is
    the pattern from there and [skip] counts the bytes still to pass of the
    rune decoded last. *)
Fixpoint scanFrom (pattern : string) (i skip : nat) (rest : string) (st : scanState)
  : M scanState :=
  match rest with
  | EmptyString => mret st
  | String _ rest' =>
      match skip with
      | S k => scanFrom pattern (S i) k rest' st
      | O =>
          st' ← scanRune pattern i (runeString rest) st;
          scanFrom pattern (S i) (Nat.pred (runeWidth rest)) rest' st'
      end
  end.

(** [extractPatternNames]. *)
Definition extractPatternNames (pattern : string) : M (list string) :=
  st ← scanFrom pattern 0 0 pattern (mkScan [] false EmptyString 0);
  (if negb (depth st =? 0) then warn (LogUnbalancedBraces pattern) else mret tt) ;;
  mret (names st).

End Pattern.

(** ** The handler adapter *)

(** Parameter types of a handler function, as the [switch] of the request
    closure classifies them. *)
Inductive ParamType :=
| TJSON (T : TypeName)
| TQuery (T : TypeName)
| TForm (T : TypeName)
| TPath (T : PathKind)
| TCustom (c : CustomExtractor)
| TResponseWriter
| THTTPRequest
| TOther (T : TypeName).

(** What wrap-time reflection reads of a return type. *)
Record OutType := mkOutType {
  ot_name : TypeName;
  ot_isInterface : bool;
  ot_implementsError : bool;
  ot_implementsHandler : bool;
  ot_implementsReader : bool;
  ot_implementsResultMarker : bool }.

(** The argument of [H]: a value that is no function, or a function by its
    signature and its body. The body yields what the function does with a
    response writer among its arguments and the values it returns. *)
Inductive HandlerValue :=
| NotAFunc (T : TypeName)
| Func (In : list ParamType) (Out : list OutType)
       (Call : list Arg -> list WriterOp * list (option any)).

Section Adapter.
Context {lib : GoLib}.

(** [reflect.New(paramType).Elem()] when the pointer to [paramType]
    implements [Extractor]. *)
Definition newExtractor (paramType : ParamType) : option Extractor :=
  match paramType with
  | TJSON T => Some (EJSON T (zeroValue T))
  | TQuery T => Some (EQuery T (zeroValue T))
  | TForm T => Some (EForm T (zeroValue T))
  | TPath k => Some (EPath (Path.mk k (zeroPathVal k) EmptyString))
  | TCustom c => Some (ECustom c EmptyString)
  | _ => None
  end.

(** The wrap-time checks of [H]: the value it panics with, if any. *)
Definition checkSignature (fn : HandlerValue) : option PanicValue :=
  match fn with
  | NotAFunc T => Some (HandlerMustBeFunction T)
  | Func _ Out _ =>
      match Out with
      | [] => None
      | [rt] =>
          if ot_isInterface rt
             && negb (ot_implementsError rt) && negb (ot_implementsHandler rt)
             && negb (ot_implementsReader rt)
          then Some InterfaceReturnNotSupported else None
      | [rt1; rt2] =>
          if ot_isInterface rt1 then Some FirstReturnIsInterface
          else if ot_implementsResultMarker rt1 then Some FirstReturnIsResult
          else if negb (ot_implementsError rt2) then Some (SecondReturnNotError (ot_name rt2))
          else None
      | _ => Some (TooManyReturnValues (length Out))
      end
  end.

Definition logIfError (m : error -> LogMsg) (e : option error) : M unit :=
  match e with
  | Some e => c ← getConfig; l ← Config_logger c; logPrintf l (m e)
  | None => mret tt
  end.

(** What [paramType.String()] prints. *)
Definition typeString (paramType : ParamType) : TypeName :=
  match paramType with
  | TJSON T => "m.JSON[" +:+ T +:+ "]"
  | TQuery T => "m.Query[" +:+ T +:+ "]"
  | TForm T => "m.Form[" +:+ T +:+ "]"
  | TPath k =>
      "m.Path[" +:+ match k with
                    | KString => "string" | KInt => "int" | KInt64 => "int64"
                    | KUint => "uint" | KUint64 => "uint64" | KFloat64 => "float64"
                    | KBool => "bool" | KNamed name _ => name
                    end +:+ "]"
  | TCustom c => ce_type c
  | TResponseWriter => "http.ResponseWriter"
  | THTTPRequest => "*http.Request"
  | TOther T => T
  end.

(** The key step of the loop: an extractor that implements [KeySetter]
    takes the path name at [keyIdx], and the closure panics when there is
    none left. *)
Definition assignKey (r : Request) (pathKeys : list string) (keyIdx : nat)
    (extractor : Extractor) : M (Extractor * nat) :=
  match SetKey extractor with
  | Some ks =>
      match pathKeys !! keyIdx with
      | None => log_Panicf (InsufficientPathParameters (Pattern r))
      | Some key => mret (ks key, S keyIdx)
      end
  | None => mret (extractor, keyIdx)
  end.

(** The loop over [paramTypes] of the request closure, from the given
    parameters on with [keyIdx] path names used. [None] is the early
    [return] after an extraction failure; otherwise the arguments bound. *)
Fixpoint bindParams (r : Request) (pathKeys : list string) (keyIdx : nat)
    (paramTypes : list ParamType) : M (option (list Arg)) :=
  match paramTypes with
  | [] => mret (Some [])
  | paramType :: rest =>
      match newExtractor paramType with
      | Some extractor =>
          keyed ← assignKey r pathKeys keyIdx extractor;
          res ← Extract keyed.1 r;
          match res.2 with
          | Some err =>
              e ← handleError err;
              logIfError LogFailedWriteErrorResponse e ;;
              mret None
          | None =>
              args ← bindParams r pathKeys keyed.2 rest;
              mret (cons (ArgExtractor res.1) <$> args)
          end
      | None =>
          match paramType with
          | TResponseWriter =>
              args ← bindParams r pathKeys keyIdx rest;
              mret (cons ArgResponseWriter <$> args)
          | THTTPRequest =>
              args ← bindParams r pathKeys keyIdx rest;
              mret (cons ArgRequest <$> args)
          | _ => log_Panicf (UnsupportedParameterType (typeString paramType))
          end
      end
  end.

(** [fnVal.Call(args)]: the call is recorded, the body runs against [rw]. *)
Definition callHandler (Call : list Arg -> list WriterOp * list (option any))
    (args : list Arg) : M (list (option any)) :=
  s ← get;
  put (mkWorld (config s) (configOnce s) (CustomErrorHandler s) (logs s) (rw s)
               (calls s ++ [args])) ;;
  runOps (Call args).1 ;;
  mret (Call args).2.

(** The routing of the returned values in the request closure. *)
Definition routeResults (r : Request) (results : list (option any)) : M unit :=
  match results with
  | [res0] =>
      if isNilValue res0 then mret tt
      else
        match res0 with
        | None => mret tt
        | Some (AHandler ServeHTTP) => runOps (ServeHTTP r)
        | Some rv =>
            err ← handleOneResult rv;
            logIfError LogFailedWriteResponse err
        end
  | [res0; res1] =>
      if isNilValue res0 && isNilValue res1 then mret tt
      else
        e ← handleTwoResults res0 res1;
        logIfError LogFailedWriteResponse e
  | _ => mret tt
  end.

(** The closure returned by [H], serving request [r] on the transport
    writer [w]. *)
Definition serveHTTP (In : list ParamType)
    (Call : list Arg -> list WriterOp * list (option any))
    (w : list TEvent) (r : Request) : M unit :=
  pathKeys ← extractPatternNames (Pattern r);
  setRW (mkResponseWriter w 0 false) ;;
  args ← bindParams r pathKeys 0 In;
  match args with
  | None => mret tt
  | Some args =>
      results ← callHandler Call args;
      routeResults r results
  end.

(** [H]: the panic of a wrap-time check, or the request closure. *)
Definition H (fn : HandlerValue) : PanicValue + (list TEvent -> Request -> M unit) :=
  match checkSignature fn with
  | Some p => inl p
  | None =>
      match fn with
      | Func In _ Call => inr (serveHTTP In Call)
      | NotAFunc T => inl (HandlerMustBeFunction T)
      end
  end.

End Adapter.

(** ** The JSON shape of the uniform structured error *)

Inductive JSONScalar :=
| JNumber (n : Z)
| JString (s : string).

(** The members that the struct tags of [HTTPError] give its JSON object:
    [code], [error], and [message] unless it is empty ([omitempty]). *)
Definition HTTPError_jsonObject (e : HTTPError.t) : list (string * JSONScalar) :=
  [("code", JNumber (HTTPError.Code e)); ("error", JString (HTTPError.Err e))]
  ++ (if String.eqb (HTTPError.Message e) EmptyString then []
      else [("message", JString (HTTPError.Message e))]).

(** ** An instance of [GoLib] for closed examples

    It agrees with the Go libraries on the inputs of the examples below:
    texts of printable ASCII without quotes or backslashes, integers,
    no floats and no validation rules. *)

Definition dquote : string := String (ascii_of_nat 34) EmptyString.

Definition exampleQuote (s : string) : string := dquote +:+ s +:+ dquote.

Definition renderScalar (v : JSONScalar) : string :=
  match v with
  | JNumber n => pretty n
  | JString s => exampleQuote s
  end.

Fixpoint renderData (d : GoData) : string :=
  match d with
  | DNull => "null"
  | DBool b => if b then "true" else "false"
  | DInt n => pretty n
  | DString s => exampleQuote s
  | DSlice elems => "[" +:+ Join (map renderData elems) "," +:+ "]"
  | DStruct fields =>
      "{" +:+ Join (map (fun kv => let '(k, v) := kv in
                                   exampleQuote k +:+ ":" +:+ renderData v) fields) ","
          +:+ "}"
  end.

Definition newline : string := String (ascii_of_nat 10) EmptyString.

Definition exampleEncode (v : any) : string + error :=
  match v with
  | AError (PtrHTTPError e) | AError (ValHTTPError e) =>
      inl ("{" +:+ Join (map (fun kv => exampleQuote kv.1 +:+ ":" +:+ renderScalar kv.2)
                             (HTTPError_jsonObject e)) ","
               +:+ "}" +:+ newline)
  | AData d => inl (renderData d +:+ newline)
  | AString s | AHTML s | ATemplateHTML s => inl (exampleQuote s +:+ newline)
  | AStatusCode n => inl (pretty n +:+ newline)
  | _ => inr (OtherError "json: unsupported type" None)
  end.

#[export] Instance exampleLib : GoLib := {|
  unicode_ToLower := fun s => s;
  strconv_Quote := exampleQuote;
  strconv_ParseFloat := fun _ => inr ErrSyntax;
  json_Encode := exampleEncode;
  json_Unmarshal := fun _ _ => inl (DStruct []);
  schema_Decode := fun _ _ => inl (DStruct []);
  validator_Struct := fun _ _ _ => None;
  zeroValue := fun _ => DNull |}.

(** The state of a process that has served nothing and configured
    nothing, before a request on a fresh transport writer. *)
Definition initialWorld : World :=
  mkWorld None false None [] (mkResponseWriter [] 0 false) [].

(** The body of a response: the bytes written to the transport. *)
Fixpoint bodyOf (events : list TEvent) : string :=
  match events with
  | [] => EmptyString
  | TWrite b :: rest => b +:+ bodyOf rest
  | _ :: rest => bodyOf rest
  end.

(** Requests of the closed examples. *)
Definition examplePathRequest (segment : string) : Request :=
  mkRequest "/items/{id}" {[ "id" := segment ]} (inl EmptyString) [] (inl []).

(** A request matched by the pattern [/items/{category}/{id}]. *)
Definition itemsRequest : Request :=
  mkRequest "/items/{category}/{id}" {[ "category" := "books"; "id" := "7" ]}
            (inl EmptyString) [] (inl []).

(** A request on the pattern [/users], without path values and with an
    empty body. *)
Definition usersRequest : Request :=
  mkRequest "/users" ∅ (inl EmptyString) [] (inl []).

Definition emptyBodyRequest : Request := usersRequest.

(** ** Notions used by the statements *)

(** The states the package can be in: once [configOnce] has fired, [config]
    holds a configuration ([initDefaultConfig] filled it and [SetConfig]
    never stores nil). *)
Definition WorldOK (s : World) : Prop :=
  configOnce s = true -> is_Some (config s).

Definition withRW (w : ResponseWriter) (s : World) : World :=
  mkWorld (config s) (configOnce s) (CustomErrorHandler s) (logs s) w (calls s).

(** The transport receives [evs]. *)
Definition addEvents (evs : list TEvent) (s : World) : World :=
  withRW (mkResponseWriter (inner (rw s) ++ evs) (statusCode (rw s)) (headerWritten (rw s))) s.

(** The wrapper commits [code]. *)
Definition commit (code : Z) (s : World) : World :=
  withRW (mkResponseWriter (inner (rw s) ++ [TWriteHeader code]) code true) s.

Definition addLog (e : LogEntry) (s : World) : World :=
  mkWorld (config s) (configOnce s) (CustomErrorHandler s) (logs s ++ [e]) (rw s) (calls s).

Definition normalize (code : Z) : Z := if code <=? 0 then 200 else code.

(** The logger that [getConfig().logger()] yields in state [s]. *)
Definition currentLogger (s : World) : option LoggerId :=
  match config s with
  | Some c => Logger c
  | None => None
  end.


(** The codes of the status-set attempts in a sequence of operations. *)
Fixpoint statusAttempts (ops : list WriterOp) : list Z :=
  match ops with
  | [] => []
  | OpWriteHeader code :: rest => code :: statusAttempts rest
  | _ :: rest => statusAttempts rest
  end.

(** The warning of a status-set attempt on a committed wrapper. *)
Definition multipleWriteHeaderWarning (l : option LoggerId) (original code : Z) : LogEntry :=
  mkLogEntry l (LogMultipleWriteHeader original code).

(** The status that a sequence of operations commits on a fresh wrapper:
    that of its first status-set (normalized) or body-write (200). *)
Fixpoint firstCommit (ops : list WriterOp) : option Z :=
  match ops with
  | [] => None
  | OpWriteHeader code :: _ => Some (normalize code)
  | OpWrite _ :: _ => Some 200
  | _ :: rest => firstCommit rest
  end.

(** The status-set attempts of a sequence of operations that find the
    wrapper committed: all of them when it is committed from the start,
    otherwise those after the first status-set or body-write. *)
Fixpoint ignoredAttempts (committed : bool) (ops : list WriterOp) : list Z :=
  match ops with
  | [] => []
  | OpWriteHeader code :: rest =>
      if committed then code :: ignoredAttempts true rest else ignoredAttempts true rest
  | OpWrite _ :: rest => ignoredAttempts true rest
  | _ :: rest => ignoredAttempts committed rest
  end.

(** The decode-library error shapes named by the type switch of
    [toHTTPError]. *)
Definition isDecodeError (err : error) : bool :=
  match err with
  | JsonUnmarshalTypeError _ _ _ _ | JsonSyntaxError _ | SchemaMultiError _ _
  | SchemaConversionError _ _ | SchemaUnknownKeyError _ _ => true
  | _ => false
  end.

(** The errors that reach the fallback step of [toHTTPError]: no uniform
    structured error and no extraction failure in the chain, and no
    decode-library shape. *)
Definition reachesFallback (err : error) : Prop :=
  errors_As asPtrHTTPError err = None
  /\ errors_As asValHTTPError err = None
  /\ errors_As asPtrExtractError err = None
  /\ isDecodeError err = false.

(** The inference rule in the words of the specification: the first row,
    in priority order, whose text occurs in the lowered message gives the
    status and its canonical tag; 500 and [internal_error] otherwise. *)
Definition inferenceTable : list (string * (Z * string)) :=
  [ ("not found", (404, "not_found"));
    ("unauthorized", (401, "unauthorized"));
    ("forbidden", (403, "forbidden"));
    ("timeout", (408, "timeout"));
    ("bad request", (400, "bad_request"));
    ("invalid", (400, "bad_request")) ].

Definition inferBySearch (lower : string) : Z * string :=
  match List.find (fun row => Contains lower row.1) inferenceTable with
  | Some row => row.2
  | None => (500, "internal_error")
  end.

(** Case folding in the words of the specification: a search that is
    case-insensitive reads every capital letter as its small letter. The
    letters are paired by their place in the alphabet; every other byte
    stands for itself. *)
Definition capitalLetters : string := "ABCDEFGHIJKLMNOPQRSTUVWXYZ".
Definition smallLetters : string := "abcdefghijklmnopqrstuvwxyz".

Fixpoint smallLetterIn (capitals smalls : string) (c : ascii) : ascii :=
  match capitals, smalls with
  | String capital capitals', String small smalls' =>
      if Ascii.eqb c capital then small else smallLetterIn capitals' smalls' c
  | _, _ => c
  end.

Definition smallLetterOf (c : ascii) : ascii := smallLetterIn capitalLetters smallLetters c.

Fixpoint foldLetters (msg : string) : string :=
  match msg with
  | EmptyString => EmptyString
  | String c msg' => String (smallLetterOf c) (foldLetters msg')
  end.

(** The message as the case-insensitive search reads it: capital letters
    folded for a message of ASCII bytes, the lower-casing of package
    [unicode] for any other message. *)
Definition foldedMessage `{GoLib} (msg : string) : string :=
  if isASCII msg then foldLetters msg else unicode_ToLower msg.







Definition trueLiterals : list string := ["1"; "t"; "T"; "TRUE"; "true"; "True"].
Definition falseLiterals : list string := ["0"; "f"; "F"; "FALSE"; "false"; "False"].

Definition isLiteral (literals : list string) (s : string) : bool :=
  existsb (String.eqb s) literals.






Definition lbrace : ascii := "{"%char.
Definition rbrace : ascii := "}"%char.

(** The parameter types whose extractor implements [KeySetter]. *)
Definition isKeySetterType (paramType : ParamType) : bool :=
  match paramType with
  | TPath _ => true
  | TCustom c => ce_isKeySetter c
  | _ => false
  end.

(** The key held by an argument whose extractor implements [KeySetter]. *)
Definition argKey (a : Arg) : option string :=
  match a with
  | ArgExtractor (EPath p) => Some (Path.Key p)
  | ArgExtractor (ECustom c Key) => if ce_isKeySetter c then Some Key else None
  | _ => None
  end.

Definition argKeys (args : list Arg) : list string := omap argKey args.

(** The byte slices written to the transport, in order. *)
Definition writesOf (events : list TEvent) : list string :=
  omap (fun ev => match ev with TWrite b => Some b | _ => None end) events.

(** The status lines sent to the transport, in order. *)
Definition statusLines (events : list TEvent) : list Z :=
  omap (fun ev => match ev with TWriteHeader code => Some code | _ => None end) events.

Definition jsonContentType : TEvent :=
  THeaderSet "Content-Type" "application/json; charset=utf-8".

(** The table of section 4.4, step 4 of the specification: the status
    and tag of each extraction-failure kind; any other kind gives 400 and
    the kind itself. *)
Definition extractionTable : list (string * (Z * string)) :=
  [ (ErrTypeBodyRead, (500, "internal_server_error"));
    (ErrTypeEmptyBody, (400, "empty_body"));
    (ErrTypeFormParse, (400, "invalid_form"));
    (ErrTypePathConversion, (400, "invalid_path_parameter"));
    (ErrTypeMissingPath, (400, "missing_path_parameter"));
    (ErrTypeValidation, (400, "validation_failed")) ].

Definition extractionPair (kind : string) : Z * string :=
  match List.find (fun row => String.eqb kind row.1) extractionTable with
  | Some row => row.2
  | None => (400, kind)
  end.

(** The message of the structured error for a failure of the given kind
    and message: the fixed text for a body-read failure, the failure's own
    message for every other kind. *)
Definition extractionMessage (kind message : string) : string :=
  if String.eqb kind ErrTypeBodyRead then "unable to process request" else message.

(** No uniform structured error in the chain of the wrapped cause. *)
Definition noHTTPErrorIn (cause : option error) : Prop :=
  match cause with
  | Some c => errors_As asPtrHTTPError c = None /\ errors_As asValHTTPError c = None
  | None => True
  end.

(** The calls that [WriteHeaders] makes on the transport. *)
Definition headerEvents (headers : Values) : list TEvent :=
  flat_map (fun kv => map (THeaderAdd kv.1) kv.2) headers.

(** The values that [handleCommonTypes] encodes as JSON (its default
    case). *)
Definition isJSONCase (data : any) : bool :=
  match data with
  | AHandler _ | AResult _ _ _ _ | AError _ | AData _ => true
  | _ => false
  end.

(** [stopsWith r pathKeys keyIdx paramTypes s err s']: the binding loop,
    started in state [s] on [paramTypes] with [keyIdx] path names used,
    binds the parameters up to an extractor whose decode step returns the
    error [err], leaving the state [s'] (the state in which [handleError]
    is then called). *)
Inductive stopsWith `{GoLib} (r : Request) (pathKeys : list string)
  : nat -> list ParamType -> World -> error -> World -> Prop :=
| stops_here keyIdx paramType rest s extractor keyed s1 paramVal err s2 :
    newExtractor paramType = Some extractor ->
    assignKey r pathKeys keyIdx extractor s = Ok keyed s1 ->
    Extract keyed.1 r s1 = Ok (paramVal, Some err) s2 ->
    stopsWith r pathKeys keyIdx (paramType :: rest) s err s2
| stops_after_extractor keyIdx paramType rest s extractor keyed s1 paramVal s2 err s3 :
    newExtractor paramType = Some extractor ->
    assignKey r pathKeys keyIdx extractor s = Ok keyed s1 ->
    Extract keyed.1 r s1 = Ok (paramVal, None) s2 ->
    stopsWith r pathKeys keyed.2 rest s2 err s3 ->
    stopsWith r pathKeys keyIdx (paramType :: rest) s err s3
| stops_after_raw keyIdx paramType rest s err s3 :
    paramType = TResponseWriter \/ paramType = THTTPRequest ->
    stopsWith r pathKeys keyIdx rest s err s3 ->
    stopsWith r pathKeys keyIdx (paramType :: rest) s err s3.

(** A configuration with the defaults in place, as [getConfig] leaves it
    in a process that configured nothing. *)
Definition configuredWorld `{GoLib} : World :=
  mkWorld (Some defaultConfig) true None [] (mkResponseWriter [] 0 false) [].

(** [s'] is [s] after some calls of [getConfig] and some logged lines: the
    wrapper, the recorded calls and the hook are the same, and a
    configuration that was set stays. *)
Definition configOnly (s s' : World) : Prop :=
  rw s' = rw s /\ calls s' = calls s
  /\ CustomErrorHandler s' = CustomErrorHandler s
  /\ (forall c, config s = Some c -> config s' = Some c)
  /\ currentLogger s' = currentLogger s.


(** The state in which [handleError] starts to encode: the content type
    is set, and the status of the error is committed unless one was. *)
Definition errorHeader (httpErr : HTTPError.t) (s : World) : World :=
  if headerWritten (rw s) then addEvents [jsonContentType] s
  else commit (normalize (HTTPError.Code httpErr)) (addEvents [jsonContentType] s).

(** [s'] is [s] after configuration access, and is a state of the package
    when [s] is. *)
Definition decodeFrame (s s' : World) : Prop :=
  configOnly s s' /\ logs s' = logs s /\ (WorldOK s -> WorldOK s').

Section StateNotions.
Context {lib : GoLib}.

(** The state after [initDefaultConfig]. *)
Definition initialised (s : World) : World :=
  if configOnce s then s
  else mkWorld (match config s with None => Some defaultConfig | Some c => Some c end)
               true (CustomErrorHandler s) (logs s) (rw s) (calls s).

(** The state after [getConfig().logger().Printf] of message [m]. *)
Definition logged (m : LogMsg) (s : World) : World :=
  addLog (mkLogEntry (currentLogger s) m) (initialised s).

(** What [jsonEncode] of configuration [c] writes for [v], and returns. *)
Definition encodeWrites (c : Config) (v : any) : list string * option error :=
  match JSONEncodeFunc c with
  | Some encode => encode v
  | None =>
      match JSONMarshalFunc c with
      | Some marshal =>
          match marshal v with
          | inr err => ([], Some err)
          | inl jsonData => ([jsonData], None)
          end
      | None =>
          match json_Encode v with
          | inr err => ([], Some err)
          | inl bytes => ([bytes], None)
          end
      end
  end.

(** The state in which [handleResult] reaches its failure or payload
    branch: the extra headers are added and a non-zero code is committed
    (or, on a committed wrapper, logged as a second status-set). *)
Definition resultHeader (Code : Z) (Headers : option Values) (s : World) : World :=
  let s1 := match Headers with
            | Some headers => addEvents (headerEvents headers) s
            | None => s
            end in
  if Code =? 0 then s1
  else if headerWritten (rw s1)
       then logged (LogMultipleWriteHeader (statusCode (rw s1)) Code) s1
       else commit (normalize Code) s1.

End StateNotions.

(** *** Notions of the further properties *)

(** [steps R m]: running [m] from any state [s] ends, by a return or by a
    panic, in a state related to [s] by [R]. *)
Definition steps (R : World -> World -> Prop) {A : Type} (m : M A) : Prop :=
  forall s, R s (finalWorld (m s)).

(** What a transport writer has received when it was used as HTTP asks:
    nothing of a response yet, or one status line with a positive code,
    sent before every byte of the body. *)
Definition oneStatusFirst (events : list TEvent) : Prop :=
  (statusLines events = [] /\ writesOf events = [])
  \/ exists code pre post,
       events = (pre ++ TWriteHeader code :: post)%list /\ 0 < code
       /\ statusLines pre = [] /\ writesOf pre = [] /\ statusLines post = [].

(** The wrapper and its transport agree: the committed flag is set exactly
    when the transport has received a status line, which is then the one
    recorded in [statusCode]. *)
Definition coherent (w : ResponseWriter) : Prop :=
  oneStatusFirst (inner w)
  /\ statusLines (inner w) = (if headerWritten w then [statusCode w] else []).

(** The wrapper stays coherent. *)
Definition keepsCoherent (s s' : World) : Prop :=
  coherent (rw s) -> coherent (rw s').

(** The handler function was not called. *)
Definition sameCalls (s s' : World) : Prop := calls s' = calls s.

(** Neither the wrapper nor the record of calls changed. *)
Definition untouched (s s' : World) : Prop := rw s' = rw s /\ calls s' = calls s.

(** The argument that the binding loop builds for a parameter type. *)
Definition argOfType (paramType : ParamType) (a : Arg) : Prop :=
  match paramType, a with
  | TJSON T, ArgExtractor (EJSON T' _) => T' = T
  | TQuery T, ArgExtractor (EQuery T' _) => T' = T
  | TForm T, ArgExtractor (EForm T' _) => T' = T
  | TPath k, ArgExtractor (EPath p) => Path.T p = k
  | TCustom c, ArgExtractor (ECustom c' _) => ce_type c' = ce_type c
  | TResponseWriter, ArgResponseWriter => True
  | THTTPRequest, ArgRequest => True
  | _, _ => False
  end.

(** The calls that change or read the package configuration. *)
Inductive ConfigOp :=
| CallSetConfig (cfg : option Config)
| CallGetConfig.

Definition runConfigOp `{GoLib} (op : ConfigOp) : M unit :=
  match op with
  | CallSetConfig cfg => SetConfig cfg
  | CallGetConfig => getConfig ;; mret tt
  end.

(** The configuration that [SetConfig] stores for a non-nil argument. *)
Definition installed `{GoLib} (cfg : Config) : Config :=
  if EnableValidation cfg && negb (bool_decide (is_Some (Validator cfg)))
  then mkConfig (SchemaDecoder cfg) (JSONMarshalFunc cfg) (JSONEncodeFunc cfg)
                (JSONUnmarshalFunc cfg) (Logger cfg) (EnableValidation cfg)
                (Some newDefaultValidator)
  else cfg.

(** The JSON decoder and the validation step of a configuration, as
    [jsonUnmarshal] and [validate] select them. *)
Definition unmarshalOf `{GoLib} (c : Config) (data : string) (T : TypeName) : GoData + error :=
  match JSONUnmarshalFunc c with
  | None => json_Unmarshal data T
  | Some f => f data T
  end.

Definition validateOf (c : Config) (T : TypeName) (v : GoData) : option error :=
  if EnableValidation c
  then match Validator c with
       | Some validate => validate T v
       | None => None
       end
  else None.

(** [unwrapsTo err inner]: [inner] is [err] or is reached from it by
    [Unwrap], through extraction failures and the wrappers of
    [fmt.Errorf]. *)
Inductive unwrapsTo : error -> error -> Prop :=
| unwraps_here err : unwrapsTo err err
| unwraps_extract ty field value message cause inner :
    unwrapsTo cause inner ->
    unwrapsTo (PtrExtractError ty field value message (Some cause)) inner
| unwraps_other msg cause inner :
    unwrapsTo cause inner ->
    unwrapsTo (OtherError msg (Some cause)) inner.

(** [sub] occurs in [s]. *)
Definition occursIn (sub s : string) : Prop :=
  exists pre post, s = pre +:+ sub +:+ post.

(** The texts that [inferStatusCode] looks for. *)
Definition inferenceTexts : list string :=
  ["not found"; "unauthorized"; "forbidden"; "timeout"; "bad request"; "invalid"].

(** The statuses of the responses to errors that carry no uniform
    structured error. *)
Definition classifierStatuses : list Z := [400; 401; 403; 404; 408; 500].

(** The content type that [handleCommonTypes] sets for a payload it
    writes as it is, and the bytes of such a payload. *)
Definition contentTypeOf (data : any) : option string :=
  match data with
  | AString _ => Some "text/plain; charset=utf-8"
  | ABytes _ => Some "application/octet-stream"
  | AHTML _ | ATemplateHTML _ => Some "text/html; charset=utf-8"
  | _ => None
  end.

Definition payloadBytes (data : any) : string :=
  match data with
  | AString v | ABytes v | AHTML v | ATemplateHTML v => v
  | _ => EmptyString
  end.

(** The calls that the extra headers of a result envelope make. *)
Definition resultHeaderEvents (Headers : option Values) : list TEvent :=
  match Headers with
  | Some headers => headerEvents headers
  | None => []
  end.

(** Route patterns built from literal text and wildcards [{name}]. *)
Inductive Segment :=
| Lit (text : string)
| Wild (name : string).

(** A byte below 0x80 that is no brace. *)
Definition plainChar (c : ascii) : bool :=
  (byteZ c <? 128) && negb (Ascii.eqb c lbrace) && negb (Ascii.eqb c rbrace).

Fixpoint plainText (s : string) : bool :=
  match s with
  | EmptyString => true
  | String c s' => plainChar c && plainText s'
  end.

Definition plainSegment (seg : Segment) : bool :=
  match seg with
  | Lit text => plainText text
  | Wild name => plainText name
  end.

Fixpoint renderPattern (segs : list Segment) : string :=
  match segs with
  | [] => EmptyString
  | Lit text :: rest => text +:+ renderPattern rest
  | Wild name :: rest => String lbrace (name +:+ String rbrace (renderPattern rest))
  end.

(** The texts of the wildcards of a pattern that are not empty. *)
Fixpoint wildNames (segs : list Segment) : list string :=
  match segs with
  | [] => []
  | Lit _ :: rest => wildNames rest
  | Wild name :: rest =>
      if String.eqb name EmptyString then wildNames rest else name :: wildNames rest
  end.


(** The bytes of a string. *)
Fixpoint bytesOf (s : string) : list ascii :=
  match s with
  | EmptyString => []
  | String c s' => c :: bytesOf s'
  end.

(** A validator that asks for a non-empty member [name], and a decoder
    that reads every body as a user without a name. *)
Definition requireName (T : TypeName) (v : GoData) : option error :=
  match v with
  | DStruct [("name", DString EmptyString)] =>
      Some (ValidationErrors [FieldError.mk "name" "Name" "required" EmptyString]
              "Key: 'User.name' Error:Field validation for 'name' failed on the 'required' tag")
  | _ => None
  end.

Definition namelessUser : GoData := DStruct [("name", DString EmptyString)].

Definition validatingConfig (enabled : bool) : Config :=
  mkConfig None None None (Some (fun _ _ => inl namelessUser)) None enabled (Some requireName).

Definition jsonRequest (body : string) : Request :=
  mkRequest "/users" ∅ (inl body) [] (inl []).

(** The tags under which the classifier reports the failures of
    [Path.Extract]. *)
Definition pathFailureTags : list string :=
  ["missing_path_parameter"; "invalid_path_parameter"; "unsupported_type"].

(** The tags of the responses to the errors of the decode libraries. *)
Definition decodeErrorTags : list string :=
  ["invalid_json_type"; "invalid_json_syntax"; "validation_failed";
   "conversion_failed"; "unknown_field"].



(** An extractor with its key set to [key]; an extractor that holds no
    key is left as it is. *)
Definition withKey (e : Extractor) (key : string) : Extractor :=
  match e with
  | EPath p => EPath (Path.mk (Path.T p) (Path.Value p) key)
  | ECustom c _ => ECustom c key
  | _ => e
  end.

(** What the binding loop does with the outcome [res] of a decode step,
    with [keyIdx] path names used: it answers a failure and returns early,
    or binds the decoded extractor and goes on with the parameters [rest]. *)
Definition afterDecode `{GoLib} (r : Request) (pathKeys : list string) (keyIdx : nat)
    (rest : list ParamType) (res : Extractor * option error) : M (option (list Arg)) :=
  match res.2 with
  | Some err =>
      e ← handleError err;
      logIfError LogFailedWriteErrorResponse e ;;
      mret None
  | None =>
      args ← bindParams r pathKeys keyIdx rest;
      mret (cons (ArgExtractor res.1) <$> args)
  end.

(** What the request closure does once the names of the pattern are
    known. *)
Definition bindAndCall `{GoLib} (In : list ParamType)
    (Call : list Arg -> list WriterOp * list (option any))
    (r : Request) (pathKeys : list string) : M unit :=
  args ← bindParams r pathKeys 0 In;
  match args with
  | None => mret tt
  | Some args =>
      results ← callHandler Call args;
      routeResults r results
  end.

(** ** The monad and the primitive operations *)

Ltac munfold :=
  unfold mbind, M_bind, mret, M_ret, get, put, panic, setRW, logPrintf in *.

Section Primitives.
Context {lib : GoLib}.

Lemma bind_Ok {A B : Type} (m : M A) (f : A -> M B) (s s' : World) (a : A) :
  m s = Ok a s' -> (m ≫= f) s = f a s'.
Proof. intros E. munfold. now rewrite E. Qed.

Lemma ret_bind {A B : Type} (a : A) (f : A -> M B) (s : World) :
  (mret a ≫= f) s = f a s.
Proof. reflexivity. Qed.

Lemma bind_Panicked {A B : Type} (m : M A) (f : A -> M B) (s s' : World) (p : PanicValue) :
  m s = Panicked p s' -> (m ≫= f) s = Panicked p s'.
Proof. intros E. munfold. now rewrite E. Qed.

Lemma initDefaultConfig_eq (s : World) : initDefaultConfig s = Ok tt (initialised s).
Proof. unfold initDefaultConfig, initialised. now destruct (configOnce s). Qed.

Lemma getConfig_eq (s : World) :
  getConfig s = Ok (config (initialised s)) (initialised s).
Proof.
  unfold getConfig. erewrite bind_Ok by apply initDefaultConfig_eq. reflexivity.
Qed.

Lemma initialised_OK (s : World) : WorldOK s -> WorldOK (initialised s).
Proof.
  unfold WorldOK, initialised. destruct s as [c o h l w cl]; simpl.
  destruct o; simpl; [tauto|]. intros _ _. destruct c; eauto.
Qed.

Lemma initialised_config (s : World) :
  WorldOK s -> is_Some (config (initialised s)).
Proof.
  unfold WorldOK, initialised. destruct s as [c o h l w cl]; simpl.
  destruct o; simpl; [tauto|]. intros _. destruct c; eauto.
Qed.

Lemma initialised_keeps (s : World) (c : Config) :
  config s = Some c -> config (initialised s) = Some c.
Proof.
  unfold initialised. destruct s as [c' o h l w cl]; simpl. intros ->.
  now destruct o.
Qed.

Lemma initialised_logger (s : World) : currentLogger (initialised s) = currentLogger s.
Proof.
  unfold currentLogger, initialised. destruct s as [c o h l w cl]; simpl.
  destruct o; simpl; [reflexivity|]. now destruct c.
Qed.

Lemma initialised_frame (s : World) :
  rw (initialised s) = rw s /\ calls (initialised s) = calls s
  /\ CustomErrorHandler (initialised s) = CustomErrorHandler s
  /\ logs (initialised s) = logs s.
Proof. unfold initialised. destruct s as [c o h l w cl]; simpl. now destruct o. Qed.

(** Printing a line on the configured logger. *)
Lemma warn_eq (m : LogMsg) (s : World) :
  WorldOK s -> warn m s = Ok tt (logged m s).
Proof.
  intros OK. unfold warn.
  erewrite bind_Ok by apply getConfig_eq.
  destruct (initialised_config s OK) as [c Ec].
  unfold Config_logger, deref. rewrite Ec.
  unfold logged. rewrite <- initialised_logger. unfold currentLogger. rewrite Ec.
  reflexivity.
Qed.

Lemma logged_OK (m : LogMsg) (s : World) : WorldOK s -> WorldOK (logged m s).
Proof. intros OK. apply initialised_OK in OK. exact OK. Qed.

Lemma logged_frame (m : LogMsg) (s : World) :
  rw (logged m s) = rw s /\ calls (logged m s) = calls s
  /\ CustomErrorHandler (logged m s) = CustomErrorHandler s
  /\ logs (logged m s) = (logs s ++ [mkLogEntry (currentLogger s) m])%list
  /\ currentLogger (logged m s) = currentLogger s.
Proof.
  destruct (initialised_frame s) as (R & C & Hk & L).
  unfold logged, addLog; simpl. rewrite R, C, Hk, L.
  repeat split; try reflexivity. apply initialised_logger.
Qed.

Lemma logged_keeps (m : LogMsg) (s : World) (c : Config) :
  config s = Some c -> config (logged m s) = Some c.
Proof. intros E. unfold logged, addLog; simpl. now apply initialised_keeps. Qed.

Lemma forward_eq (ev : TEvent) (s : World) : forward ev s = Ok tt (addEvents [ev] s).
Proof. reflexivity. Qed.

Lemma WriteHeader_fresh (code : Z) (s : World) :
  headerWritten (rw s) = false -> WriteHeader code s = Ok tt (commit (normalize code) s).
Proof. intros E. unfold WriteHeader. munfold. now rewrite E. Qed.

Lemma WriteHeader_committed (code : Z) (s : World) :
  WorldOK s -> headerWritten (rw s) = true ->
  WriteHeader code s = Ok tt (logged (LogMultipleWriteHeader (statusCode (rw s)) code) s).
Proof.
  intros OK E. unfold WriteHeader.
  change ((s0 ← get; if headerWritten (rw s0)
                     then warn (LogMultipleWriteHeader (statusCode (rw s0)) code)
                     else let code0 := if code <=? 0 then 200 else code in
                          setRW (mkResponseWriter (inner (rw s0) ++ [TWriteHeader code0]) code0 true)) s
          = Ok tt (logged (LogMultipleWriteHeader (statusCode (rw s)) code) s)).
  unfold mbind, M_bind, get. rewrite E. now apply warn_eq.
Qed.

Lemma Write_committed (b : string) (s : World) :
  headerWritten (rw s) = true -> Write b s = Ok None (addEvents [TWrite b] s).
Proof. intros E. unfold Write. munfold. now rewrite E. Qed.

Lemma Write_fresh (b : string) (s : World) :
  headerWritten (rw s) = false ->
  Write b s = Ok None (addEvents [TWrite b] (commit 200 s)).
Proof.
  intros E. unfold Write, WriteHeader, forward. munfold. rewrite E. simpl.
  rewrite E. reflexivity.
Qed.

End Primitives.

(** ** The response wrapper: the first committed status wins *)

Section FirstStatusWins.
Context {lib : GoLib}.

Lemma addEvents_frame (evs : list TEvent) (s : World) :
  WorldOK s -> WorldOK (addEvents evs s).
Proof. intros OK. exact OK. Qed.

Lemma runOps_cons (op : WriterOp) (ops : list WriterOp) (s s' : World) :
  runOp op s = Ok tt s' -> runOps (op :: ops) s = runOps ops s'.
Proof. intros E. unfold runOps; simpl. now erewrite bind_Ok by exact E. Qed.

(** One operation on a committed wrapper. *)
Lemma runOp_committed (op : WriterOp) (s : World) :
  WorldOK s -> headerWritten (rw s) = true ->
  exists s',
    runOp op s = Ok tt s' /\ WorldOK s'
    /\ statusCode (rw s') = statusCode (rw s) /\ headerWritten (rw s') = true
    /\ currentLogger s' = currentLogger s
    /\ logs s' = (logs s ++ map (multipleWriteHeaderWarning (currentLogger s) (statusCode (rw s)))
                               (statusAttempts [op]))%list.
Proof.
  intros OK E. destruct op as [k v|k v|code|b]; simpl.
  - exists (addEvents [THeaderSet k v] s). rewrite app_nil_r. now repeat split.
  - exists (addEvents [THeaderAdd k v] s). rewrite app_nil_r. now repeat split.
  - exists (logged (LogMultipleWriteHeader (statusCode (rw s)) code) s).
    destruct (logged_frame (LogMultipleWriteHeader (statusCode (rw s)) code) s)
      as (R & _ & _ & L & Lg).
    rewrite R. repeat split; auto using WriteHeader_committed, logged_OK.
  - exists (addEvents [TWrite b] s). rewrite app_nil_r.
    repeat split; auto. erewrite bind_Ok by now apply Write_committed. reflexivity.
Qed.

(** Once the wrapper has committed a status, whatever operations follow
    leave the committed status and flag as they are, and each status-set
    among them logs one warning. *)
Lemma runOps_committed (ops : list WriterOp) (s : World) :
  WorldOK s -> headerWritten (rw s) = true ->
  exists s',
    runOps ops s = Ok tt s'
    /\ statusCode (rw s') = statusCode (rw s)
    /\ headerWritten (rw s') = true
    /\ logs s' = (logs s ++ map (multipleWriteHeaderWarning (currentLogger s) (statusCode (rw s)))
                               (statusAttempts ops))%list.
Proof.
  revert s. induction ops as [|op ops IH]; intros s OK E.
  - exists s. rewrite app_nil_r. now repeat split.
  - destruct (runOp_committed op s OK E) as (s1 & R1 & OK1 & St1 & W1 & Lg1 & L1).
    destruct (IH s1 OK1 W1) as (s' & R' & St' & W' & L').
    exists s'. rewrite (runOps_cons _ _ _ _ R1). repeat split; auto.
    + congruence.
    + rewrite L', L1, Lg1, St1, <- app_assoc, <- map_app. f_equal. f_equal.
      now destruct op.
Qed.

Lemma ignoredAttempts_committed (ops : list WriterOp) :
  ignoredAttempts true ops = statusAttempts ops.
Proof. induction ops as [|[| |c|] ops IH]; simpl; congruence. Qed.

(** C3. Every sequence of operations on a response wrapper (header
    changes, status-sets, body-writes) runs without panic; the status it
    ends with is the one committed first (the status already committed when
    the sequence starts, else that of the first status-set or body-write of
    the sequence); every status-set that finds the wrapper committed logs
    one warning naming that status and the attempted one, and changes
    nothing else. *)
Theorem ResponseWriter_first_status_wins (ops : list WriterOp) (s : World) :
  WorldOK s ->
  exists s',
    runOps ops s = Ok tt s'
    /\ statusCode (rw s') =
         (if headerWritten (rw s) then statusCode (rw s)
          else default (statusCode (rw s)) (firstCommit ops))
    /\ headerWritten (rw s') = headerWritten (rw s) || bool_decide (is_Some (firstCommit ops))
    /\ logs s' = (logs s ++ map (multipleWriteHeaderWarning (currentLogger s) (statusCode (rw s')))
                               (ignoredAttempts (headerWritten (rw s)) ops))%list.
Proof.
  intros OK. destruct (headerWritten (rw s)) eqn:E.
  - destruct (runOps_committed ops s OK E) as (s' & R & St & W & L).
    exists s'. rewrite ignoredAttempts_committed, St. now repeat split.
  - revert s OK E. induction ops as [|op ops IH]; intros s OK E.
    + exists s. simpl. rewrite app_nil_r. now repeat split.
    + destruct op as [k v|k v|c|b]; simpl firstCommit; simpl ignoredAttempts.
      * rewrite (runOps_cons _ _ _ (addEvents [THeaderSet k v] s)) by reflexivity.
        destruct (IH (addEvents [THeaderSet k v] s) OK E) as (s' & R & St & W & L).
        exists s'. now repeat split.
      * rewrite (runOps_cons _ _ _ (addEvents [THeaderAdd k v] s)) by reflexivity.
        destruct (IH (addEvents [THeaderAdd k v] s) OK E) as (s' & R & St & W & L).
        exists s'. now repeat split.
      * rewrite (runOps_cons _ _ _ (commit (normalize c) s)) by now apply WriteHeader_fresh.
        destruct (runOps_committed ops (commit (normalize c) s)) as (s' & R & St & W & L); auto.
        exists s'. rewrite ignoredAttempts_committed, St. now repeat split.
      * rewrite (runOps_cons _ _ _ (addEvents [TWrite b] (commit 200 s))).
        2:{ simpl. erewrite bind_Ok by now apply Write_fresh. reflexivity. }
        destruct (runOps_committed ops (addEvents [TWrite b] (commit 200 s)))
          as (s' & R & St & W & L); auto.
        exists s'. rewrite ignoredAttempts_committed, St. now repeat split.
Qed.

End FirstStatusWins.

Lemma ResponseWriter_first_status_wins_witness :
  WorldOK initialWorld
  /\ exists s',
       runOps [OpWriteHeader 200; OpWrite "ok"; OpWriteHeader 500] initialWorld = Ok tt s'
       /\ statusCode (rw s') = 200
       /\ logs s' = [multipleWriteHeaderWarning None 200 500].
Proof.
  assert (OK : WorldOK initialWorld) by (intro; discriminate).
  split; [exact OK|].
  destruct (ResponseWriter_first_status_wins
              [OpWriteHeader 200; OpWrite "ok"; OpWriteHeader 500] initialWorld OK)
    as (s' & R & St & _ & L).
  exists s'. split; [exact R|]. split; [exact St|].
  rewrite L, St. reflexivity.
Defined.

(** ** States that differ by configuration access only *)


Section ConfigOnly.
Context {lib : GoLib}.

Lemma configOnly_refl (s : World) : configOnly s s.
Proof. now repeat split. Qed.

Lemma configOnly_trans (s1 s2 s3 : World) :
  configOnly s1 s2 -> configOnly s2 s3 -> configOnly s1 s3.
Proof.
  intros (R1 & C1 & H1 & K1 & L1) (R2 & C2 & H2 & K2 & L2).
  repeat split; try congruence. auto.
Qed.

Lemma configOnly_initialised (s : World) : configOnly s (initialised s).
Proof.
  destruct (initialised_frame s) as (R & C & Hk & _).
  repeat split; auto using initialised_keeps, initialised_logger.
Qed.

Lemma configOnly_logged (m : LogMsg) (s : World) : configOnly s (logged m s).
Proof.
  destruct (logged_frame m s) as (R & C & Hk & _ & L).
  repeat split; auto using logged_keeps.
Qed.

(** One step of the scan never panics and touches configuration and logs
    only. *)
Lemma scanRune_ok (pattern : string) (i : nat) (char : string) (st : scanState) (s : World) :
  WorldOK s ->
  exists st' s', scanRune pattern i char st s = Ok st' s' /\ WorldOK s' /\ configOnly s s'.
Proof.
  intros OK. unfold scanRune.
  destruct (String.eqb char "{").
  - destruct (inParam st).
    + eexists _, _. erewrite bind_Ok by now apply warn_eq.
      split; [reflexivity|]. auto using logged_OK, configOnly_logged.
    + eexists _, _. split; [reflexivity|]. auto using configOnly_refl.
  - destruct (String.eqb char "}").
    + destruct (inParam st); simpl.
      * eexists _, _. split; [reflexivity|]. auto using configOnly_refl.
      * eexists _, _. erewrite bind_Ok by now apply warn_eq.
        split; [reflexivity|]. auto using logged_OK, configOnly_logged.
    + destruct (inParam st); eexists _, _; (split; [reflexivity|]);
        auto using configOnly_refl.
Qed.

Lemma scanFrom_ok (pattern rest : string) (i skip : nat) (st : scanState) (s : World) :
  WorldOK s ->
  exists st' s', scanFrom pattern i skip rest st s = Ok st' s' /\ WorldOK s' /\ configOnly s s'.
Proof.
  revert i skip st s. induction rest as [|c rest IH]; intros i skip st s OK.
  - eexists _, _. split; [reflexivity|]. auto using configOnly_refl.
  - destruct skip as [|k]; simpl.
    + destruct (scanRune_ok pattern i (runeString (String c rest)) st s OK)
        as (st1 & s1 & E1 & OK1 & F1).
      destruct (IH (S i) (Nat.pred (runeWidth (String c rest))) st1 s1 OK1)
        as (st2 & s2 & E2 & OK2 & F2).
      exists st2, s2. erewrite bind_Ok by exact E1.
      eauto using configOnly_trans.
    + apply IH, OK.
Qed.

(** [extractPatternNames] never panics and touches configuration and logs
    only. *)
Lemma extractPatternNames_ok (pattern : string) (s : World) :
  WorldOK s ->
  exists pathKeys s',
    extractPatternNames pattern s = Ok pathKeys s' /\ WorldOK s' /\ configOnly s s'.
Proof.
  intros OK. unfold extractPatternNames.
  destruct (scanFrom_ok pattern pattern 0 0 (mkScan [] false EmptyString 0) s OK)
    as (st & s1 & E & OK1 & F1).
  erewrite bind_Ok by exact E.
  destruct (negb (depth st =? 0)).
  - eexists _, _. erewrite bind_Ok by now apply warn_eq.
    split; [reflexivity|]. eauto using logged_OK, configOnly_trans, configOnly_logged.
  - eexists _, _. split; [reflexivity|]. auto.
Qed.

End ConfigOnly.

(** ** The response wrapper: non-positive statuses and implicit commits *)

Section ImplicitStatus.
Context {lib : GoLib}.

Lemma normalize_non_positive (code : Z) : code <= 0 -> normalize code = 200.
Proof. intros Hc. unfold normalize. now rewrite (proj2 (Z.leb_le code 0) Hc). Qed.

Lemma handleOneResult_StatusCode (code : Z) (s : World) :
  headerWritten (rw s) = false ->
  handleOneResult (AStatusCode code) s = Ok None (commit (normalize code) s).
Proof.
  intros E. unfold handleOneResult, handleCommonTypes.
  erewrite bind_Ok by now apply WriteHeader_fresh. reflexivity.
Qed.

(** C8. On a wrapper that has committed nothing: a status-set with a
    non-positive code commits 200; a body-write commits 200 and then
    forwards the bytes; a returned [StatusCode] that is not positive is
    answered by committing 200; and a handler without parameters that
    returns [StatusCode(0)] gives a response whose only event is the
    status line 200. *)
Theorem non_positive_status_commits_200
    (code : Z) (b : string) (Call : list Arg -> list WriterOp * list (option any))
    (w : list TEvent) (r : Request) (s : World) :
  WorldOK s -> headerWritten (rw s) = false -> code <= 0 ->
  Call [] = ([], [Some (AStatusCode 0)]) ->
  WriteHeader code s = Ok tt (commit 200 s)
  /\ Write b s = Ok None (addEvents [TWrite b] (commit 200 s))
  /\ handleOneResult (AStatusCode code) s = Ok None (commit 200 s)
  /\ exists s',
       serveHTTP [] Call w r s = Ok tt s'
       /\ rw s' = mkResponseWriter (w ++ [TWriteHeader 200]) 200 true.
Proof.
  intros OK E Hc HCall.
  split; [|split; [|split]].
  - rewrite <- (normalize_non_positive code Hc). now apply WriteHeader_fresh.
  - now apply Write_fresh.
  - rewrite <- (normalize_non_positive code Hc). now apply handleOneResult_StatusCode.
  - destruct (extractPatternNames_ok (Pattern r) s OK) as (keys & s1 & E1 & OK1 & F1).
    unfold serveHTTP. erewrite bind_Ok by exact E1.
    unfold callHandler. munfold. simpl. rewrite HCall. simpl.
    unfold handleOneResult, handleCommonTypes, WriteHeader. munfold. simpl.
    eexists. split; reflexivity.
Qed.

End ImplicitStatus.

Lemma non_positive_status_commits_200_witness :
  let s := initialWorld in
  let Call := fun _ : list Arg => ([] : list WriterOp, [Some (AStatusCode 0)]) in
  WriteHeader (-3) s = Ok tt (commit 200 s)
  /\ Write "hi" s = Ok None (addEvents [TWrite "hi"] (commit 200 s))
  /\ handleOneResult (AStatusCode (-3)) s = Ok None (commit 200 s)
  /\ exists s',
       serveHTTP [] Call [] (mkRequest "/health" ∅ (inl EmptyString) [] (inl [])) s = Ok tt s'
       /\ rw s' = mkResponseWriter [TWriteHeader 200] 200 true.
Proof.
  intros s Call.
  apply (non_positive_status_commits_200 (-3) "hi" Call []
           (mkRequest "/health" ∅ (inl EmptyString) [] (inl [])) s).
  - intro; discriminate.
  - reflexivity.
  - lia.
  - reflexivity.
Defined.

(** ** The error classifier: the fallback step *)

Section Fallback.
Context {lib : GoLib}.

Lemma toHTTPError_fallback (err : error) :
  reachesFallback err ->
  toHTTPError (Some err) =
    Some (HTTPError.mk (inferStatusCode (Error err))
                       (inferErrorType (inferStatusCode (Error err))) EmptyString).
Proof.
  intros (E1 & E2 & E3 & D). unfold toHTTPError. rewrite E1, E2, E3.
  destruct err; try discriminate D; reflexivity.
Qed.

Lemma infer_matches_table (msg : string) :
  (inferStatusCode msg, inferErrorType (inferStatusCode msg)) = inferBySearch (ToLower msg).
Proof.
  unfold inferStatusCode, inferBySearch, inferenceTable. simpl List.find.
  destruct (Contains (ToLower msg) "not found"); [reflexivity|].
  destruct (Contains (ToLower msg) "unauthorized"); [reflexivity|].
  destruct (Contains (ToLower msg) "forbidden"); [reflexivity|].
  destruct (Contains (ToLower msg) "timeout"); [reflexivity|].
  destruct (Contains (ToLower msg) "bad request"); [reflexivity|].
  destruct (Contains (ToLower msg) "invalid"); reflexivity.
Qed.

Lemma lowerByte_smallLetterOf (c : ascii) : lowerByte c = smallLetterOf c.
Proof. destruct c as [[] [] [] [] [] [] [] []]; reflexivity. Qed.

Lemma asciiLower_foldLetters (msg : string) : asciiLower msg = foldLetters msg.
Proof.
  induction msg as [|c msg IH]; simpl; [reflexivity|].
  now rewrite IH, lowerByte_smallLetterOf.
Qed.

(** [strings.ToLower] folds the case as the specification means it. *)
Lemma ToLower_folds (msg : string) : ToLower msg = foldedMessage msg.
Proof.
  unfold ToLower, foldedMessage. destruct (isASCII msg); [|reflexivity].
  apply asciiLower_foldLetters.
Qed.

(** C4. An error that reaches the fallback step is classified by the
    case-insensitive search of the specification over its message: the
    message is read with every capital letter as its small letter, and the
    status and the canonical tag are those of the first row of the priority
    table whose text the folded message contains, 500 and [internal_error]
    when there is none. The uniform structured error holds nothing else. *)
Theorem fallback_infers_status_from_message (err : error) :
  reachesFallback err ->
  exists httpErr,
    toHTTPError (Some err) = Some httpErr
    /\ (HTTPError.Code httpErr, HTTPError.Err httpErr)
       = inferBySearch (foldedMessage (Error err))
    /\ HTTPError.Message httpErr = EmptyString.
Proof.
  intros F. eexists. split; [now apply toHTTPError_fallback|].
  split; [|reflexivity].
  rewrite <- ToLower_folds. apply infer_matches_table.
Qed.

(** C10. The uniform structured error that the fallback step builds has an
    empty message, so its JSON object has the members [code] and [error]
    only; and with no custom hook installed, the response to two such
    errors with the same inferred status is the same whatever their texts
    are: the text reaches the client through the status alone. *)
Theorem fallback_carries_no_message (err : error) :
  reachesFallback err ->
  (exists httpErr,
      toHTTPError (Some err) = Some httpErr
      /\ HTTPError.Message httpErr = EmptyString
      /\ HTTPError_jsonObject httpErr =
           [("code", JNumber (HTTPError.Code httpErr)); ("error", JString (HTTPError.Err httpErr))])
  /\ (forall (err' : error) (s : World),
        reachesFallback err' ->
        inferStatusCode (Error err') = inferStatusCode (Error err) ->
        CustomErrorHandler s = None ->
        handleError err' s = handleError err s).
Proof.
  intros F. split.
  - eexists. split; [now apply toHTTPError_fallback|]. split; reflexivity.
  - intros err' s F' Same Hook. unfold handleError. munfold. rewrite Hook.
    rewrite (toHTTPError_fallback err F), (toHTTPError_fallback err' F'), Same.
    reflexivity.
Qed.

End Fallback.

Lemma fallback_infers_status_from_message_witness :
  toHTTPError (Some (OtherError "Resource not found" None))
    = Some (HTTPError.mk 404 "not_found" EmptyString)
  /\ toHTTPError (Some (OtherError "RESOURCE NOT FOUND" None))
    = Some (HTTPError.mk 404 "not_found" EmptyString)
  /\ toHTTPError (Some (OtherError "request timeout" None))
    = Some (HTTPError.mk 408 "timeout" EmptyString)
  /\ toHTTPError (Some (OtherError "Request TimeOut while Unauthorized" None))
    = Some (HTTPError.mk 401 "unauthorized" EmptyString)
  /\ toHTTPError (Some (OtherError "INVALID argument" None))
    = Some (HTTPError.mk 400 "bad_request" EmptyString)
  /\ toHTTPError (Some (OtherError "something went wrong" None))
    = Some (HTTPError.mk 500 "internal_error" EmptyString).
Proof.
  assert (F : forall msg, reachesFallback (OtherError msg None)) by (intro; now repeat split).
  assert (W : forall msg code tag,
             inferBySearch (foldedMessage msg) = (code, tag) ->
             toHTTPError (Some (OtherError msg None))
             = Some (HTTPError.mk code tag EmptyString)).
  { intros msg code tag P.
    destruct (fallback_infers_status_from_message _ (F msg)) as ([code' tag' m] & E & P' & M).
    rewrite E. simpl in P', M. rewrite P in P'. injection P' as -> ->. now rewrite M. }
  repeat (split; [apply W; vm_compute; reflexivity|]).
  apply W; vm_compute; reflexivity.
Defined.

Lemma fallback_carries_no_message_witness :
  reachesFallback (OtherError "database password rejected for admin" None)
  /\ HTTPError.Message <$> toHTTPError (Some (OtherError "database password rejected for admin" None))
     = Some EmptyString
  /\ handleError (OtherError "disk failure on /dev/sda" None) initialWorld
     = handleError (OtherError "database password rejected for admin" None) initialWorld.
Proof.
  assert (F : forall msg, reachesFallback (OtherError msg None)) by (intro; now repeat split).
  split; [apply F|].
  destruct (fallback_carries_no_message _ (F "database password rejected for admin"))
    as ((httpErr & E & M & _) & Same).
  split.
  - rewrite E. simpl. now rewrite M.
  - apply Same; [apply F|reflexivity|reflexivity].
Defined.

(** ** Package [strconv] against decimal numerals *)

Section Numerals.
Context {lib : GoLib}.






End Numerals.


Section SignedNumerals.
Context {lib : GoLib}.




Lemma ParseBool_spec (str : string) :
  strconv.ParseBool str =
    if isLiteral trueLiterals str then inl true
    else if isLiteral falseLiterals str then inl false
    else inr ErrSyntax.
Proof.
  unfold strconv.ParseBool, isLiteral, trueLiterals, falseLiterals. simpl.
  rewrite !orb_false_r, !orb_assoc. reflexivity.
Qed.

End SignedNumerals.

(** ** The path extractor *)

Section PathExtractor.
Context {lib : GoLib}.

Lemma PathValue_empty (r : Request) (name : string) :
  PathValue r name = EmptyString
  <-> PathValues r !! name = None \/ PathValues r !! name = Some EmptyString.
Proof.
  unfold PathValue. destruct (PathValues r !! name) as [v|]; simpl.
  - split; [intros ->; now right|intros [?|[= ->]]; [discriminate|reflexivity]].
  - split; auto.
Qed.


(** What a path-conversion failure carries. *)
Lemma NewPathConversionError_carries (field value targetType : string) (err : error) :
  exists message,
    NewPathConversionError field value targetType err
      = PtrExtractError ErrTypePathConversion field value message (Some err)
    /\ message = "invalid path parameter " +:+ strconv_Quote field +:+ ": cannot convert "
                 +:+ strconv_Quote value +:+ " to " +:+ targetType.
Proof. eexists. split; reflexivity. Qed.

End PathExtractor.



(** ** The route-pattern scanner *)

Section Scanner.
Context {lib : GoLib}.

Lemma bind_inv {A B : Type} (m : M A) (f : A -> M B) (s s' : World) (b : B) :
  (m ≫= f) s = Ok b s' -> exists a s1, m s = Ok a s1 /\ f a s1 = Ok b s'.
Proof. munfold. destruct (m s) as [a s1|p s1]; [eauto|discriminate]. Qed.

(** A byte below 0x80 is a rune of its own. *)
Lemma scanFrom_ascii (pattern rest : string) (c : ascii) (i : nat) (st : scanState) :
  byteZ c < 128 ->
  scanFrom pattern i 0 (String c rest) st
  = (st' ← scanRune pattern i (String c EmptyString) st; scanFrom pattern (S i) 0 rest st').
Proof.
  intros Hc. simpl scanFrom. unfold runeString, runeWidth.
  now rewrite (proj2 (Z.ltb_lt _ _) Hc).
Qed.





End Scanner.


(** ** Path names are consumed by position *)

Section Positional.
Context {lib : GoLib}.

Lemma Path_Extract_Key (p : Path.t) (r : Request) :
  Path.Key (Path_Extract p r).1 = Path.Key p.
Proof.
  unfold Path_Extract, Path_store, Path_fail.
  destruct (String.eqb _ _); [reflexivity|].
  destruct (Path.T p); simpl;
    repeat match goal with
           | |- context [match ?x with inl _ => _ | inr _ => _ end] => destruct x
           end; reflexivity.
Qed.

(** [Extract] leaves the key of an extractor as [SetKey] put it. *)
Lemma Extract_argKey (e e' : Extractor) (r : Request) (err : option error) (s s' : World) :
  Extract e r s = Ok (e', err) s' -> argKey (ArgExtractor e') = argKey (ArgExtractor e).
Proof.
  destruct e as [T v|T v|T v|p|c k]; simpl; intros E.
  - apply bind_inv in E as (res & s1 & _ & [= <- _ _]). reflexivity.
  - apply bind_inv in E as (res & s1 & _ & [= <- _ _]). reflexivity.
  - apply bind_inv in E as (res & s1 & _ & [= <- _ _]). reflexivity.
  - injection E as <- _ _. simpl. f_equal. apply Path_Extract_Key.
  - injection E as <- _ _. reflexivity.
Qed.

Lemma assignKey_inv (r : Request) (pathKeys : list string) (keyIdx keyIdx' : nat)
    (paramType : ParamType) (extractor keyed : Extractor) (s s' : World) :
  newExtractor paramType = Some extractor ->
  assignKey r pathKeys keyIdx extractor s = Ok (keyed, keyIdx') s' ->
  s' = s
  /\ if isKeySetterType paramType
     then exists key, pathKeys !! keyIdx = Some key /\ keyIdx' = S keyIdx
                      /\ argKey (ArgExtractor keyed) = Some key
     else keyIdx' = keyIdx /\ argKey (ArgExtractor keyed) = None.
Proof.
  unfold assignKey.
  destruct paramType as [T|T|T|k|c| | |T]; simpl; intros [= <-]; simpl;
    try (intros [= <- <- <-]; now split).
  - destruct (pathKeys !! keyIdx) as [key|] eqn:K; [|discriminate].
    intros [= <- <- <-]. split; [reflexivity|]. now exists key.
  - destruct (ce_isKeySetter c) eqn:KS.
    + destruct (pathKeys !! keyIdx) as [key|] eqn:K; [|discriminate].
      intros [= <- <- <-]. split; [reflexivity|]. exists key. simpl. now rewrite KS.
    + intros [= <- <- <-]. simpl. now rewrite KS.
Qed.

Lemma argKeys_cons (a : Arg) (args : list Arg) :
  argKeys (a :: args)
  = match argKey a with Some key => key :: argKeys args | None => argKeys args end.
Proof. reflexivity. Qed.

(** The keys that a successful run of the binding loop has assigned. *)
Lemma bindParams_keys (r : Request) (pathKeys : list string) (paramTypes : list ParamType)
    (keyIdx : nat) (args : list Arg) (s s' : World) :
  bindParams r pathKeys keyIdx paramTypes s = Ok (Some args) s' ->
  argKeys args = take (length (filter isKeySetterType paramTypes)) (drop keyIdx pathKeys)
  /\ length (argKeys args) = length (filter isKeySetterType paramTypes).
Proof.
  revert keyIdx args s s'.
  induction paramTypes as [|paramType rest IH]; intros keyIdx args s s'; simpl bindParams.
  - intros [= <- _]. now split.
  - destruct (newExtractor paramType) as [extractor|] eqn:N.
    + intros E. apply bind_inv in E as ([keyed keyIdx'] & s1 & A & E).
      apply bind_inv in E as ([e' err] & s2 & X & E). simpl in E. cbn [fst] in X.
      destruct err as [err|].
      { apply bind_inv in E as (? & ? & _ & E). apply bind_inv in E as (? & ? & _ & E).
        discriminate E. }
      apply bind_inv in E as (args' & s3 & B & E).
      destruct args' as [args'|]; [|discriminate E]. simpl in E. injection E as <- _.
      destruct (IH _ _ _ _ B) as [IHk IHn].
      destruct (assignKey_inv _ _ _ _ _ _ _ _ _ N A) as [-> K].
      pose proof (Extract_argKey _ _ _ _ _ _ X) as XK.
      rewrite argKeys_cons, XK, filter_cons.
      destruct (isKeySetterType paramType).
      * destruct K as (key & K & -> & AK).
        rewrite AK. simpl. rewrite IHn, IHk, (drop_S _ _ _ K). now split.
      * destruct K as (-> & AK).
        rewrite AK. simpl. now split.
    + assert (NK : isKeySetterType paramType = false) by now destruct paramType.
      rewrite filter_cons, NK.
      destruct paramType; try discriminate N; intros E.
      * apply bind_inv in E as (args' & s3 & B & E).
        destruct args' as [args'|]; [|discriminate E]. injection E as <- _.
        now apply IH in B.
      * apply bind_inv in E as (args' & s3 & B & E).
        destruct args' as [args'|]; [|discriminate E]. injection E as <- _.
        now apply IH in B.
      * apply bind_inv in E as (? & ? & _ & E). discriminate E.
Qed.

End Positional.

Section PositionalClaim.
Context {lib : GoLib}.

Lemma bindParams_exhausted (r : Request) (pathKeys : list string) (keyIdx : nat)
    (paramType : ParamType) (rest : list ParamType) (s : World) :
  isKeySetterType paramType = true -> (length pathKeys <= keyIdx)%nat ->
  bindParams r pathKeys keyIdx (paramType :: rest) s
  = Panicked (InsufficientPathParameters (Pattern r))
      (addLog (mkLogEntry None (LogPanic (InsufficientPathParameters (Pattern r)))) s).
Proof.
  intros KS Len. apply lookup_ge_None_2 in Len.
  destruct paramType as [T|T|T|k|c| | |T]; try discriminate KS; simpl bindParams.
  - apply bind_Panicked. unfold assignKey; simpl. now rewrite Len.
  - apply bind_Panicked. unfold assignKey; simpl. simpl in KS. now rewrite KS, Len.
Qed.

End PositionalClaim.


(** A handler with the parameters [Path[string]], [Path[int]] served on
    [/items/{category}/{id}]: the first parameter takes [category] and the
    second [id]; with a third [Path] parameter the closure panics. *)
Example items_handler_keys :
  calls (finalWorld (serveHTTP [TPath KString; TPath KInt] (fun _ => ([], [])) []
                       itemsRequest initialWorld))
  = [[ArgExtractor (EPath (Path.mk KString (VString "books") "category"));
      ArgExtractor (EPath (Path.mk KInt (VInt 7) "id"))]].
Proof. vm_compute. reflexivity. Qed.

Example items_handler_panics :
  serveHTTP [TPath KString; TPath KInt; TPath KInt] (fun _ => ([], [])) []
    itemsRequest initialWorld
  = Panicked (InsufficientPathParameters "/items/{category}/{id}")
      (addLog (mkLogEntry None (LogPanic (InsufficientPathParameters "/items/{category}/{id}")))
              initialWorld).
Proof. vm_compute. reflexivity. Qed.

(** ** Writing a structured error *)

Section ErrorResponse.
Context {lib : GoLib}.

Lemma addEvents_addEvents (l1 l2 : list TEvent) (s : World) :
  addEvents l2 (addEvents l1 s) = addEvents (l1 ++ l2) s.
Proof. unfold addEvents, withRW; simpl. now rewrite app_assoc. Qed.

Lemma addEvents_nil (s : World) : addEvents [] s = s.
Proof. destruct s as [c o h l [i st hw] cl]. unfold addEvents, withRW; simpl. now rewrite app_nil_r. Qed.

Lemma writeAll_committed (writes : list string) (s : World) :
  headerWritten (rw s) = true ->
  forM_ writes (fun b => Write b ;; mret tt) s = Ok tt (addEvents (map TWrite writes) s).
Proof.
  revert s. induction writes as [|b writes IH]; intros s E; simpl.
  - now rewrite addEvents_nil.
  - erewrite bind_Ok.
    2:{ erewrite bind_Ok by now apply Write_committed. reflexivity. }
    rewrite IH by exact E. now rewrite addEvents_addEvents.
Qed.

(** [jsonEncode] through a configuration, once the status is committed. *)
Lemma jsonEncode_committed (c : Config) (v : any) (s : World) :
  headerWritten (rw s) = true ->
  Config_jsonEncode (Some c) v s
  = Ok (encodeWrites c v).2 (addEvents (map TWrite (encodeWrites c v).1) s).
Proof.
  intros E. unfold Config_jsonEncode, encodeWrites, deref. rewrite ret_bind.
  destruct (JSONEncodeFunc c) as [encode|].
  - destruct (encode v) as [writes err]. simpl.
    erewrite bind_Ok by now apply writeAll_committed. reflexivity.
  - destruct (JSONMarshalFunc c) as [marshal|].
    + destruct (marshal v) as [data|err]; simpl.
      * now apply Write_committed.
      * now rewrite addEvents_nil.
    + destruct (json_Encode v) as [data|err]; simpl.
      * now apply Write_committed.
      * now rewrite addEvents_nil.
Qed.

(** [jsonEncode] through a nil [*Config] panics at its first field access. *)
Lemma jsonEncode_nil (v : any) (s : World) :
  Config_jsonEncode None v s = Panicked NilPointerDereference s.
Proof. reflexivity. Qed.


Lemma errorHeader_frame (httpErr : HTTPError.t) (s : World) :
  headerWritten (rw (errorHeader httpErr s)) = true
  /\ config (errorHeader httpErr s) = config s
  /\ calls (errorHeader httpErr s) = calls s
  /\ statusCode (rw (errorHeader httpErr s))
     = (if headerWritten (rw s) then statusCode (rw s) else normalize (HTTPError.Code httpErr)).
Proof. unfold errorHeader. destruct (headerWritten (rw s)) eqn:E; simpl; auto. Qed.

Lemma handleError_steps (err : error) (httpErr : HTTPError.t) (s : World) :
  CustomErrorHandler s = None -> toHTTPError (Some err) = Some httpErr ->
  handleError err s
  = Config_jsonEncode (config s) (AError (PtrHTTPError httpErr)) (errorHeader httpErr s).
Proof.
  intros Hook T. unfold handleError, errorHeader. munfold. rewrite Hook, T.
  unfold Header_Set, forward, WriteHeader, addEvents, commit, withRW. munfold. simpl.
  destruct (headerWritten (rw s)) eqn:E; simpl; rewrite ?E; reflexivity.
Qed.

(** [handleError] with no hook and a configuration in place. *)
Lemma handleError_encodes (err : error) (httpErr : HTTPError.t) (c : Config) (s : World) :
  CustomErrorHandler s = None -> toHTTPError (Some err) = Some httpErr ->
  config s = Some c ->
  handleError err s
  = Ok (encodeWrites c (AError (PtrHTTPError httpErr))).2
       (addEvents (map TWrite (encodeWrites c (AError (PtrHTTPError httpErr))).1)
                  (errorHeader httpErr s)).
Proof.
  intros Hook T C. rewrite (handleError_steps err httpErr s Hook T), C.
  apply jsonEncode_committed. apply errorHeader_frame.
Qed.

(** [handleError] with no hook and [config] still nil. *)
Lemma handleError_nil_config (err : error) (httpErr : HTTPError.t) (s : World) :
  CustomErrorHandler s = None -> toHTTPError (Some err) = Some httpErr ->
  config s = None ->
  handleError err s = Panicked NilPointerDereference (errorHeader httpErr s).
Proof.
  intros Hook T C. rewrite (handleError_steps err httpErr s Hook T), C. reflexivity.
Qed.


End ErrorResponse.

(** ** The package variable [config] read without [getConfig] *)

Section NilConfig.
Context {lib : GoLib}.

(** The default case of [handleCommonTypes] while [config] is nil. *)
Lemma handleCommonTypes_nil_config (data : any) (s : World) :
  config s = None -> isJSONCase data = true ->
  handleCommonTypes (Some data) s
  = Panicked NilPointerDereference (addEvents [jsonContentType] s).
Proof.
  intros C J. destruct data; try discriminate J; unfold handleCommonTypes;
    (erewrite bind_Ok by apply forward_eq);
    unfold mbind, M_bind, get; simpl; now rewrite C.
Qed.

(** With a configuration in place the same call encodes the value. *)
Lemma handleCommonTypes_encodes (data : any) (c : Config) (s : World) :
  config s = Some c -> isJSONCase data = true -> headerWritten (rw s) = true ->
  handleCommonTypes (Some data) s
  = Ok (encodeWrites c data).2
       (addEvents (map TWrite (encodeWrites c data).1) (addEvents [jsonContentType] s)).
Proof.
  intros C J E. destruct data; try discriminate J; unfold handleCommonTypes;
    (erewrite bind_Ok by apply forward_eq);
    unfold mbind at 1, M_bind at 1, get; simpl config; rewrite C;
    now apply jsonEncode_committed.
Qed.

End NilConfig.


(** C9 (refuted by the code). In a process where nothing has called
    [SetConfig] or [getConfig], a handler without parameters is served on
    the pattern [/users]. When it returns a struct, the default case of
    [handleCommonTypes] sets the content type and then dereferences the nil
    [config]: the request panics. When it returns an error, [handleError]
    sets the content type, commits the status 404 and then panics in the
    same way. After one call of [getConfig] the same two requests are
    answered. *)
Theorem json_encoding_dereferences_nil_config :
  serveHTTP [] (fun _ => ([], [Some (AData (DStruct [("name", DString "Ann")]))])) []
    usersRequest initialWorld
  = Panicked NilPointerDereference
      (mkWorld None false None [] (mkResponseWriter [jsonContentType] 0 false) [[]])
  /\ serveHTTP [] (fun _ => ([], [Some (AError (OtherError "user not found" None))])) []
       usersRequest initialWorld
     = Panicked NilPointerDereference
         (mkWorld None false None []
            (mkResponseWriter [jsonContentType; TWriteHeader 404] 404 true) [[]])
  /\ panicked ((getConfig ;;
                serveHTTP [] (fun _ => ([], [Some (AData (DStruct [("name", DString "Ann")]))]))
                  [] usersRequest) initialWorld) = false
  /\ panicked ((getConfig ;;
                serveHTTP [] (fun _ => ([], [Some (AError (OtherError "user not found" None))]))
                  [] usersRequest) initialWorld) = false.
Proof. repeat split; vm_compute; reflexivity. Qed.

(** ** Result envelopes: the failure wins over the payload *)

Section ResultEnvelope.
Context {lib : GoLib}.




Lemma addHeaderValues (key : string) (values : list string) (s : World) :
  forM_ values (fun value => Header_Add key value) s
  = Ok tt (addEvents (map (THeaderAdd key) values) s).
Proof.
  revert s. induction values as [|v values IH]; intros s; simpl.
  - now rewrite addEvents_nil.
  - erewrite bind_Ok by apply forward_eq. now rewrite IH, addEvents_addEvents.
Qed.

Lemma WriteHeaders_eq (headers : Values) (s : World) :
  WriteHeaders headers s = Ok tt (addEvents (headerEvents headers) s).
Proof.
  unfold WriteHeaders. revert s. induction headers as [|[k vs] headers IH]; intros s; simpl.
  - now rewrite addEvents_nil.
  - erewrite bind_Ok by apply addHeaderValues.
    rewrite IH, addEvents_addEvents. reflexivity.
Qed.


Lemma handleResult_steps (result : Result.t) (s : World) :
  WorldOK s ->
  handleResult result s
  = match Result.Err result with
    | Some err => handleError err
    | None => handleCommonTypes (Result.Data result)
    end (resultHeader (Result.Code result) (Result.Headers result) s).
Proof.
  intros OK. unfold handleResult, resultHeader.
  set (s1 := match Result.Headers result with
             | Some headers => addEvents (headerEvents headers) s
             | None => s
             end).
  assert (E1 : match Result.Headers result with
               | Some headers => WriteHeaders headers
               | None => mret tt
               end s = Ok tt s1).
  { subst s1. destruct (Result.Headers result); [apply WriteHeaders_eq|reflexivity]. }
  erewrite bind_Ok by exact E1.
  assert (OK1 : WorldOK s1) by (subst s1; now destruct (Result.Headers result)).
  destruct (Result.Code result =? 0); simpl negb; cbv iota.
  - reflexivity.
  - destruct (headerWritten (rw s1)) eqn:W.
    + erewrite bind_Ok by now apply WriteHeader_committed. reflexivity.
    + erewrite bind_Ok by now apply WriteHeader_fresh. reflexivity.
Qed.



End ResultEnvelope.



(** ** Extraction failures *)

Section ExtractionFailure.
Context {lib : GoLib}.

Lemma extractErrorToHTTPError_table (kind field value message : string) (cause : option error) :
  extractErrorToHTTPError (ExtractError.mk kind field value message cause)
  = HTTPError.mk (extractionPair kind).1 (extractionPair kind).2
                 (extractionMessage kind message).
Proof.
  unfold extractErrorToHTTPError, extractionPair, extractionMessage, extractionTable.
  simpl.
  destruct (String.eqb kind ErrTypeBodyRead); [reflexivity|].
  destruct (String.eqb kind ErrTypeEmptyBody); [reflexivity|].
  destruct (String.eqb kind ErrTypeFormParse); [reflexivity|].
  destruct (String.eqb kind ErrTypePathConversion); [reflexivity|].
  destruct (String.eqb kind ErrTypeMissingPath); [reflexivity|].
  destruct (String.eqb kind ErrTypeValidation); reflexivity.
Qed.

Lemma extractionPair_status (kind : string) :
  (extractionPair kind).1 = 500 \/ (extractionPair kind).1 = 400.
Proof.
  unfold extractionPair, extractionTable. simpl.
  repeat match goal with
         | |- context [if ?c then _ else _] => destruct c; simpl; auto
         end.
Qed.

(** The classification of an extraction failure. *)
Lemma toHTTPError_extraction (kind field value message : string) (cause : option error) :
  noHTTPErrorIn cause ->
  toHTTPError (Some (PtrExtractError kind field value message cause))
  = Some (HTTPError.mk (extractionPair kind).1 (extractionPair kind).2
                       (extractionMessage kind message)).
Proof.
  intros N. unfold toHTTPError.
  assert (errors_As asPtrHTTPError (PtrExtractError kind field value message cause) = None
          /\ errors_As asValHTTPError (PtrExtractError kind field value message cause) = None)
    as [-> ->].
  { destruct cause as [c|]; simpl in *; tauto. }
  simpl. now rewrite extractErrorToHTTPError_table.
Qed.

Lemma logIfError_eq (m : error -> LogMsg) (e : option error) (s : World) :
  WorldOK s ->
  logIfError m e s = Ok tt (match e with Some e => logged (m e) s | None => s end).
Proof. intros OK. destruct e as [e|]; [now apply warn_eq|reflexivity]. Qed.

(** The loop returns early when it stops with an error. *)
Lemma bindParams_stops (r : Request) (pathKeys : list string) (keyIdx : nat)
    (paramTypes : list ParamType) (s sE : World) (err : error) :
  stopsWith r pathKeys keyIdx paramTypes s err sE ->
  bindParams r pathKeys keyIdx paramTypes s
  = (e ← handleError err; logIfError LogFailedWriteErrorResponse e ;; mret None) sE.
Proof.
  induction 1 as [keyIdx paramType rest s extractor keyed s1 paramVal err s2 N A X
                 |keyIdx paramType rest s extractor keyed s1 paramVal s2 err s3 N A X _ IH
                 |keyIdx paramType rest s err s3 Raw _ IH]; simpl bindParams.
  - rewrite N. erewrite bind_Ok by exact A. erewrite bind_Ok by exact X. reflexivity.
  - rewrite N. erewrite bind_Ok by exact A. erewrite bind_Ok by exact X. simpl.
    unfold mbind at 1, M_bind at 1. rewrite IH.
    destruct ((e ← handleError err; logIfError LogFailedWriteErrorResponse e ;; mret None) s3)
      as [[a|] s4|p s4] eqn:E; try reflexivity.
    exfalso. revert E. munfold.
    destruct (handleError err s3) as [e s5|]; [|discriminate].
    destruct (logIfError LogFailedWriteErrorResponse e s5); discriminate.
  - destruct Raw as [-> | ->]; simpl; unfold mbind at 1, M_bind at 1; rewrite IH;
      destruct ((e ← handleError err; logIfError LogFailedWriteErrorResponse e ;; mret None) s3)
        as [[a|] s4|p s4] eqn:E; try reflexivity;
      exfalso; revert E; munfold;
      (destruct (handleError err s3) as [e s5|]; [|discriminate]);
      destruct (logIfError LogFailedWriteErrorResponse e s5); discriminate.
Qed.

End ExtractionFailure.

(** ** Decoding touches the configuration only *)

Section DecodeFrame.
Context {lib : GoLib}.


Lemma decodeFrame_refl (s : World) : decodeFrame s s.
Proof. split; [apply configOnly_refl|tauto]. Qed.

Lemma decodeFrame_trans (s1 s2 s3 : World) :
  decodeFrame s1 s2 -> decodeFrame s2 s3 -> decodeFrame s1 s3.
Proof.
  intros (F1 & L1 & O1) (F2 & L2 & O2).
  split; [eauto using configOnly_trans|]. split; [congruence|tauto].
Qed.

Lemma decodeFrame_initialised (s : World) : decodeFrame s (initialised s).
Proof.
  split; [apply configOnly_initialised|].
  split; [apply initialised_frame|apply initialised_OK].
Qed.

Lemma getConfig_bind {B : Type} (f : option Config -> M B) (s : World) :
  (getConfig ≫= f) s = f (config (initialised s)) (initialised s).
Proof. now erewrite bind_Ok by apply getConfig_eq. Qed.

Lemma deref_bind_inv {B : Type} (c : option Config) (f : Config -> M B)
    (s s' : World) (b : B) :
  (deref c ≫= f) s = Ok b s' -> exists c', c = Some c' /\ f c' s = Ok b s'.
Proof. destruct c as [c'|]; [eauto|discriminate]. Qed.

Lemma Config_validate_inv (c : option Config) (T : TypeName) (v : GoData)
    (s s' : World) (verr : option error) :
  Config_validate c T v s = Ok verr s' -> s' = s.
Proof.
  unfold Config_validate. intros E. apply deref_bind_inv in E as (c' & _ & E).
  destruct (negb (EnableValidation c')); [now injection E|].
  destruct (Validator c'); now injection E.
Qed.

Lemma validated_inv (T : TypeName) (target : GoData) (s s' : World)
    (res : GoData * option error) :
  (c ← getConfig;
   verr ← Config_validate c T target;
   match verr with
   | Some err => mret (target, Some (NewValidationError err))
   | None => mret (target, None)
   end) s = Ok res s' ->
  s' = initialised s.
Proof.
  rewrite getConfig_bind. intros E.
  apply bind_inv in E as (verr & s1 & V & E). apply Config_validate_inv in V as ->.
  destruct verr; now injection E.
Qed.

Lemma JSON_Extract_frame (T : TypeName) (Value : GoData) (r : Request)
    (s s' : World) (res : GoData * option error) :
  JSON_Extract T Value r s = Ok res s' -> decodeFrame s s'.
Proof.
  unfold JSON_Extract. destruct (Body r) as [body|err].
  2:{ intros [= _ <-]. apply decodeFrame_refl. }
  destruct (String.eqb body EmptyString).
  { intros [= _ <-]. apply decodeFrame_refl. }
  rewrite getConfig_bind. intros E.
  apply bind_inv in E as (target & s1 & U & E).
  unfold Config_jsonUnmarshal in U. apply deref_bind_inv in U as (c' & _ & [= _ <-]).
  destruct target as [target|err].
  - apply validated_inv in E as ->.
    eauto using decodeFrame_trans, decodeFrame_initialised.
  - injection E as _ <-. apply decodeFrame_initialised.
Qed.

Lemma decodeValues_frame (T : TypeName) (Value : GoData) (src : Values)
    (s s' : World) (res : GoData * option error) :
  decodeValues T Value src s = Ok res s' -> decodeFrame s s'.
Proof.
  unfold decodeValues. rewrite getConfig_bind. intros E.
  apply bind_inv in E as (decode & s1 & D & E).
  unfold Config_schemaDecoder in D. apply deref_bind_inv in D as (c' & _ & [= _ <-]).
  destruct (decode T src) as [target|err].
  - apply validated_inv in E as ->.
    eauto using decodeFrame_trans, decodeFrame_initialised.
  - injection E as _ <-. apply decodeFrame_initialised.
Qed.

(** The decode step of every extractor leaves the wrapper, the recorded
    calls, the hook and the log as they are. *)
Lemma Extract_frame (e : Extractor) (r : Request) (s s' : World)
    (res : Extractor * option error) :
  Extract e r s = Ok res s' -> decodeFrame s s'.
Proof.
  destruct e as [T v|T v|T v|p|c k]; simpl; intros E.
  - apply bind_inv in E as (x & s1 & X & [= _ <-]). eapply JSON_Extract_frame, X.
  - apply bind_inv in E as (x & s1 & X & [= _ <-]). eapply decodeValues_frame, X.
  - apply bind_inv in E as (x & s1 & X & [= _ <-]).
    unfold Form_Extract in X. destruct (ParseForm r).
    + eapply decodeValues_frame, X.
    + injection X as _ <-. apply decodeFrame_refl.
  - injection E as _ <-. apply decodeFrame_refl.
  - injection E as _ <-. apply decodeFrame_refl.
Qed.

Lemma assignKey_state (r : Request) (pathKeys : list string) (keyIdx : nat)
    (extractor : Extractor) (s s' : World) (keyed : Extractor * nat) :
  assignKey r pathKeys keyIdx extractor s = Ok keyed s' -> s' = s.
Proof.
  unfold assignKey. destruct (SetKey extractor); [|now intros [= _ <-]].
  destruct (pathKeys !! keyIdx); [now intros [= _ <-]|discriminate].
Qed.

Lemma stopsWith_frame (r : Request) (pathKeys : list string) (keyIdx : nat)
    (paramTypes : list ParamType) (s sE : World) (err : error) :
  stopsWith r pathKeys keyIdx paramTypes s err sE -> decodeFrame s sE.
Proof.
  induction 1 as [keyIdx paramType rest s extractor keyed s1 paramVal err s2 N A X
                 |keyIdx paramType rest s extractor keyed s1 paramVal s2 err s3 N A X _ IH
                 |keyIdx paramType rest s err s3 Raw _ IH].
  - apply assignKey_state in A as ->. eapply Extract_frame, X.
  - apply assignKey_state in A as ->.
    eapply decodeFrame_trans; [eapply Extract_frame, X|exact IH].
  - exact IH.
Qed.

End DecodeFrame.

Section ExtractionFailureResponse.
Context {lib : GoLib}.

Lemma normalize_extractionPair (kind : string) :
  normalize (extractionPair kind).1 = (extractionPair kind).1.
Proof. destruct (extractionPair_status kind) as [-> | ->]; reflexivity. Qed.

(** C1, as amended. A request is served by the closure of [H]; the
    binding loop stops at an extractor whose decode step returns an
    extraction failure of kind [kind] and message [message]; no custom hook
    is installed, a configuration is in place when the error is written,
    and the cause chain of the failure holds no uniform structured error.
    Then the closure returns without panic and without having called the
    handler function; the status committed and sent is that of the kind in
    the table of section 4.4; and the body is what the JSON encoder writes
    for the structured error with that status, the tag of the kind, and as
    message the failure's own message, except for a body-read failure,
    whose message is the fixed text. *)
Theorem extraction_failure_response
    (In : list ParamType) (Call : list Arg -> list WriterOp * list (option any))
    (w : list TEvent) (r : Request) (s s1 sE : World) (pathKeys : list string)
    (kind field value message : string) (cause : option error) (c : Config) :
  WorldOK s ->
  extractPatternNames (Pattern r) s = Ok pathKeys s1 ->
  stopsWith r pathKeys 0 In (withRW (mkResponseWriter w 0 false) s1)
            (PtrExtractError kind field value message cause) sE ->
  CustomErrorHandler sE = None -> config sE = Some c -> noHTTPErrorIn cause ->
  let httpErr := HTTPError.mk (extractionPair kind).1 (extractionPair kind).2
                              (extractionMessage kind message) in
  exists s',
    serveHTTP In Call w r s = Ok tt s'
    /\ calls s' = calls s
    /\ statusCode (rw s') = (extractionPair kind).1
    /\ inner (rw s')
       = (w ++ [jsonContentType; TWriteHeader (extractionPair kind).1]
            ++ map TWrite (encodeWrites c (AError (PtrHTTPError httpErr))).1)%list.
Proof.
  intros OK E1 Stop Hook C N httpErr.
  destruct (extractPatternNames_ok (Pattern r) s OK) as (keys' & s1' & E1' & OK1 & F1).
  rewrite E1 in E1'. injection E1' as <- <-.
  destruct F1 as (_ & Calls1 & _).
  destruct (stopsWith_frame _ _ _ _ _ _ _ Stop) as ((RE & CallsE & _) & _ & OKE).
  specialize (OKE OK1). simpl in RE, CallsE.
  pose proof (toHTTPError_extraction kind field value message cause N) as T.
  fold httpErr in T.
  pose proof (handleError_encodes _ httpErr c sE Hook T C) as HE.
  set (writes := encodeWrites c (AError (PtrHTTPError httpErr))) in *.
  set (s2 := addEvents (map TWrite writes.1) (errorHeader httpErr sE)) in *.
  assert (OK2 : WorldOK s2).
  { subst s2. unfold errorHeader. now destruct (headerWritten (rw sE)). }
  exists (match writes.2 with
          | Some e => logged (LogFailedWriteErrorResponse e) s2
          | None => s2
          end).
  assert (R2 : rw s2 = mkResponseWriter
                         (w ++ [jsonContentType; TWriteHeader (extractionPair kind).1]
                            ++ map TWrite writes.1)%list
                         (extractionPair kind).1 true).
  { subst s2. unfold errorHeader. rewrite RE. simpl.
    rewrite normalize_extractionPair, RE. simpl. now rewrite <- !app_assoc. }
  assert (Calls2 : calls s2 = calls s).
  { subst s2. unfold errorHeader. destruct (headerWritten (rw sE)); simpl; congruence. }
  split.
  - assert (B : bindParams r pathKeys 0 In (withRW (mkResponseWriter w 0 false) s1)
                = Ok None (match writes.2 with
                           | Some e => logged (LogFailedWriteErrorResponse e) s2
                           | None => s2
                           end)).
    { rewrite (bindParams_stops _ _ _ _ _ _ _ Stop).
      erewrite bind_Ok by exact HE.
      erewrite bind_Ok by now apply logIfError_eq.
      reflexivity. }
    unfold serveHTTP. erewrite bind_Ok by exact E1.
    erewrite bind_Ok by reflexivity.
    erewrite bind_Ok by exact B. reflexivity.
  - destruct writes.2 as [e|].
    + destruct (logged_frame (LogFailedWriteErrorResponse e) s2) as (R & Cl & _).
      rewrite R, Cl, R2. now repeat split.
    + rewrite R2. now repeat split.
Qed.

End ExtractionFailureResponse.

(** A body-read failure: the message of the structured error is not the
    message of the extraction failure. *)
Lemma body_read_message_not_carried :
  Error (NewBodyReadError (OtherError "unexpected EOF" None)) = "failed to read request body"
  /\ toHTTPError (Some (NewBodyReadError (OtherError "unexpected EOF" None)))
     = Some (HTTPError.mk 500 "internal_server_error" "unable to process request")
  /\ toHTTPError (Some (NewBodyReadError (OtherError "unexpected EOF" None)))
     <> Some (HTTPError.mk 500 "internal_server_error"
                (Error (NewBodyReadError (OtherError "unexpected EOF" None))))
  /\ inl (bodyOf (inner (rw (finalWorld
             (serveHTTP [TJSON "User"] (fun _ => ([], [])) []
                (mkRequest "/users" ∅ (inr (OtherError "unexpected EOF" None)) [] (inl []))
                configuredWorld)))))
     = exampleEncode (AError (PtrHTTPError
                                (HTTPError.mk 500 "internal_server_error"
                                   "unable to process request"))).
Proof.
  split; [reflexivity|]. split; [reflexivity|]. split; [discriminate|].
  vm_compute. reflexivity.
Qed.


Lemma extraction_failure_response_witness :
  exists s',
    serveHTTP [TJSON "User"] (fun _ => ([OpWrite "handler ran"], [])) [] emptyBodyRequest
      configuredWorld = Ok tt s'
    /\ calls s' = []
    /\ statusCode (rw s') = 400
    /\ inl (bodyOf (inner (rw s')))
       = exampleEncode (AError (PtrHTTPError
                                  (HTTPError.mk 400 "empty_body" "request body is required"))).
Proof.
  assert (OK : WorldOK configuredWorld) by (intros _; simpl; eauto).
  assert (Stop : stopsWith emptyBodyRequest [] 0 [TJSON "User"]
                   (withRW (mkResponseWriter [] 0 false) configuredWorld)
                   (PtrExtractError ErrTypeEmptyBody EmptyString EmptyString
                      "request body is required" None)
                   configuredWorld).
  { eapply stops_here; reflexivity. }
  destruct (extraction_failure_response [TJSON "User"]
              (fun _ => ([OpWrite "handler ran"], [])) [] emptyBodyRequest
              configuredWorld configuredWorld configuredWorld [] _ _ _ _ _ defaultConfig
              OK eq_refl Stop eq_refl eq_refl I)
    as (s' & R & Cl & St & In).
  exists s'. split; [exact R|]. split; [exact Cl|]. split; [exact St|].
  rewrite In. vm_compute. reflexivity.
Defined.

(** * Further properties of the code *)

(** ** Relations kept by every step of the per-request code *)

Section Steps.
Context {lib : GoLib}.
Variable R : World -> World -> Prop.
Context `{!PreOrder R}.

(** Changes of the configuration, the log and the hook are [R]-steps, and
    so are the operations of the wrapper. *)
Hypothesis R_frame : forall s s', rw s' = rw s -> calls s' = calls s -> R s s'.
Hypothesis R_WriteHeader : forall code, steps R (WriteHeader code).
Hypothesis R_Write : forall b, steps R (Write b).
Hypothesis R_forward_header :
  forall ev s, (forall b, ev <> TWrite b) -> (forall code, ev <> TWriteHeader code) ->
               R s (addEvents [ev] s).

Lemma steps_ret {A : Type} (a : A) : steps R (mret a).
Proof. intros s. reflexivity. Qed.

Lemma steps_panic {A : Type} (p : PanicValue) : steps R (panic p : M A).
Proof. intros s. reflexivity. Qed.

Lemma steps_bind {A B : Type} (m : M A) (k : A -> M B) :
  steps R m -> (forall a, steps R (k a)) -> steps R (m ≫= k).
Proof.
  intros Hm Hk s. specialize (Hm s). unfold mbind, M_bind.
  destruct (m s) as [a s1|p s1]; simpl in *; [|exact Hm].
  etransitivity; [exact Hm|apply Hk].
Qed.

Lemma steps_forM {A : Type} (l : list A) (f : A -> M unit) :
  (forall x, steps R (f x)) -> steps R (forM_ l f).
Proof.
  intros Hf. induction l as [|x l IH]; simpl; [apply steps_ret|].
  apply steps_bind; auto.
Qed.

Lemma steps_frame {A : Type} (m : M A) :
  (forall s, rw (finalWorld (m s)) = rw s /\ calls (finalWorld (m s)) = calls s) ->
  steps R m.
Proof. intros F s. destruct (F s). now apply R_frame. Qed.

Lemma steps_getConfig : steps R getConfig.
Proof.
  apply steps_frame. intros s. rewrite getConfig_eq. simpl.
  destruct (initialised_frame s) as (-> & -> & _). now split.
Qed.

Lemma steps_deref (c : option Config) : steps R (deref c).
Proof. destruct c; [apply steps_ret|apply steps_panic]. Qed.

Lemma steps_logPrintf (l : option LoggerId) (m : LogMsg) : steps R (logPrintf l m).
Proof. apply steps_frame. intros s. now split. Qed.

Lemma steps_warn (m : LogMsg) : steps R (warn m).
Proof.
  unfold warn, Config_logger.
  repeat first [apply steps_getConfig | apply steps_deref | apply steps_logPrintf
               | apply steps_ret | apply steps_bind; [|intros]].
Qed.

Lemma steps_log_Panicf {A : Type} (p : PanicValue) : steps R (log_Panicf p : M A).
Proof. apply steps_bind; [apply steps_logPrintf|intros; apply steps_panic]. Qed.

Lemma steps_logIfError (m : error -> LogMsg) (e : option error) : steps R (logIfError m e).
Proof. destruct e; [apply steps_warn|apply steps_ret]. Qed.

Lemma steps_Header_Set (k v : string) : steps R (Header_Set k v).
Proof. intros s. apply R_forward_header; discriminate. Qed.

Lemma steps_Header_Add (k v : string) : steps R (Header_Add k v).
Proof. intros s. apply R_forward_header; discriminate. Qed.

Lemma steps_runOps (ops : list WriterOp) : steps R (runOps ops).
Proof.
  apply steps_forM. intros [k v|k v|code|b]; simpl.
  - apply steps_Header_Set.
  - apply steps_Header_Add.
  - apply R_WriteHeader.
  - apply steps_bind; [apply R_Write|intros; apply steps_ret].
Qed.

Lemma steps_WriteHeaders (headers : Values) : steps R (WriteHeaders headers).
Proof.
  apply steps_forM. intros kv. apply steps_forM. intros v. apply steps_Header_Add.
Qed.

Lemma steps_writeAll (writes : list string) :
  steps R (forM_ writes (fun b => Write b ;; mret tt)).
Proof.
  apply steps_forM. intros b. apply steps_bind; [apply R_Write|intros; apply steps_ret].
Qed.

Lemma steps_jsonEncode (c : option Config) (v : any) : steps R (Config_jsonEncode c v).
Proof.
  unfold Config_jsonEncode. apply steps_bind; [apply steps_deref|intros c'].
  destruct (JSONEncodeFunc c') as [encode|].
  - destruct (encode v) as [writes err].
    apply steps_bind; [apply steps_writeAll|intros; apply steps_ret].
  - destruct (JSONMarshalFunc c') as [marshal|].
    + destruct (marshal v); [apply R_Write|apply steps_ret].
    + destruct (json_Encode v); [apply R_Write|apply steps_ret].
Qed.

Lemma steps_get_then {A : Type} (k : World -> M A) :
  (forall s, steps R (k s)) -> steps R (get ≫= k).
Proof. intros Hk s. exact (Hk s s). Qed.

Lemma steps_handleError (err : error) : steps R (handleError err).
Proof.
  unfold handleError. apply steps_get_then. intros s0.
  destruct (CustomErrorHandler s0) as [hook|].
  - apply steps_bind; [apply steps_runOps|intros; apply steps_ret].
  - destruct (toHTTPError (Some err)) as [httpErr|]; [|apply steps_ret].
    apply steps_bind; [apply steps_Header_Set|intros _].
    apply steps_bind.
    + destruct (negb (headerWritten (rw s0))); [apply R_WriteHeader|apply steps_ret].
    + intros _. apply steps_get_then. intros s1. apply steps_jsonEncode.
Qed.

Lemma steps_handleCommonTypes (data : option any) : steps R (handleCommonTypes data).
Proof.
  unfold handleCommonTypes. destruct data as [data|]; [|apply steps_ret].
  destruct data;
    repeat first [ apply steps_ret | apply steps_runOps | apply steps_Header_Set
                 | apply R_Write | apply R_WriteHeader | apply steps_writeAll
                 | apply steps_jsonEncode
                 | apply steps_get_then; intros
                 | apply steps_bind; [|intros] ].
Qed.

Lemma steps_handleResult (result : Result.t) : steps R (handleResult result).
Proof.
  unfold handleResult.
  apply steps_bind; [destruct (Result.Headers result);
                     [apply steps_WriteHeaders|apply steps_ret]|intros _].
  apply steps_bind; [destruct (negb (Result.Code result =? 0));
                     [apply R_WriteHeader|apply steps_ret]|intros _].
  destruct (Result.Err result); [apply steps_handleError|apply steps_handleCommonTypes].
Qed.

Lemma steps_handleOneResult (data : any) : steps R (handleOneResult data).
Proof.
  destruct data; unfold handleOneResult;
    first [apply steps_handleCommonTypes|apply steps_handleResult|apply steps_handleError].
Qed.

Lemma steps_handleTwoResults (data err : option any) : steps R (handleTwoResults data err).
Proof.
  unfold handleTwoResults. destruct err as [[]|];
    try apply steps_panic; [apply steps_handleError|apply steps_handleCommonTypes].
Qed.

Lemma steps_routeResults (r : Request) (results : list (option any)) :
  steps R (routeResults r results).
Proof.
  unfold routeResults.
  destruct results as [|res0 [|res1 [|res2 rest]]]; try apply steps_ret.
  - destruct (isNilValue res0); [apply steps_ret|].
    destruct res0 as [rv|]; [|apply steps_ret].
    destruct rv;
      try (apply steps_bind; [apply steps_handleOneResult|intros; apply steps_logIfError]).
    apply steps_runOps.
  - destruct (isNilValue res0 && isNilValue res1); [apply steps_ret|].
    apply steps_bind; [apply steps_handleTwoResults|intros; apply steps_logIfError].
Qed.

Lemma steps_Config_validate (c : option Config) (T : TypeName) (v : GoData) :
  steps R (Config_validate c T v).
Proof.
  unfold Config_validate. apply steps_bind; [apply steps_deref|intros c'].
  destruct (negb (EnableValidation c')); [apply steps_ret|].
  destruct (Validator c'); apply steps_ret.
Qed.

Lemma steps_validated (T : TypeName) (target : GoData) :
  steps R (c ← getConfig;
           verr ← Config_validate c T target;
           match verr with
           | Some err => mret (target, Some (NewValidationError err))
           | None => mret (target, None)
           end).
Proof.
  apply steps_bind; [apply steps_getConfig|intros c].
  apply steps_bind; [apply steps_Config_validate|intros verr].
  destruct verr; apply steps_ret.
Qed.

Lemma steps_decodeValues (T : TypeName) (Value : GoData) (src : Values) :
  steps R (decodeValues T Value src).
Proof.
  unfold decodeValues. apply steps_bind; [apply steps_getConfig|intros c].
  apply steps_bind.
  - unfold Config_schemaDecoder.
    apply steps_bind; [apply steps_deref|intros; apply steps_ret].
  - intros decode. destruct (decode T src); [apply steps_validated|apply steps_ret].
Qed.

Lemma steps_Extract (e : Extractor) (r : Request) : steps R (Extract e r).
Proof.
  destruct e as [T v|T v|T v|p|c k]; simpl; try apply steps_ret.
  - apply steps_bind; [|intros; apply steps_ret].
    unfold JSON_Extract. destruct (Body r) as [body|err]; [|apply steps_ret].
    destruct (String.eqb body EmptyString); [apply steps_ret|].
    apply steps_bind; [apply steps_getConfig|intros c].
    apply steps_bind.
    + unfold Config_jsonUnmarshal.
      apply steps_bind; [apply steps_deref|intros; apply steps_ret].
    + intros target. destruct target; [apply steps_validated|apply steps_ret].
  - apply steps_bind; [apply steps_decodeValues|intros; apply steps_ret].
  - apply steps_bind; [|intros; apply steps_ret].
    unfold Form_Extract. destruct (ParseForm r); [apply steps_decodeValues|apply steps_ret].
Qed.

Lemma steps_assignKey (r : Request) (pathKeys : list string) (keyIdx : nat) (e : Extractor) :
  steps R (assignKey r pathKeys keyIdx e).
Proof.
  unfold assignKey. destruct (SetKey e); [|apply steps_ret].
  destruct (pathKeys !! keyIdx); [apply steps_ret|apply steps_log_Panicf].
Qed.

Lemma steps_bindParams (r : Request) (pathKeys : list string) (paramTypes : list ParamType)
    (keyIdx : nat) :
  steps R (bindParams r pathKeys keyIdx paramTypes).
Proof.
  revert keyIdx. induction paramTypes as [|paramType rest IH]; intros keyIdx;
    simpl bindParams; [apply steps_ret|].
  destruct (newExtractor paramType) as [extractor|].
  - apply steps_bind; [apply steps_assignKey|intros keyed].
    apply steps_bind; [apply steps_Extract|intros res].
    destruct res.2.
    + apply steps_bind; [apply steps_handleError|intros e0].
      apply steps_bind; [apply steps_logIfError|intros; apply steps_ret].
    + apply steps_bind; [apply IH|intros; apply steps_ret].
  - destruct paramType; try apply steps_log_Panicf;
      (apply steps_bind; [apply IH|intros; apply steps_ret]).
Qed.

Lemma steps_scanRune (pattern char : string) (i : nat) (st : scanState) :
  steps R (scanRune pattern i char st).
Proof.
  unfold scanRune.
  destruct (String.eqb char "{").
  - apply steps_bind; [destruct (inParam st); [apply steps_warn|apply steps_ret]
                      |intros; apply steps_ret].
  - destruct (String.eqb char "}").
    + destruct (negb (inParam st)); [|apply steps_ret].
      apply steps_bind; [apply steps_warn|intros; apply steps_ret].
    + destruct (inParam st); apply steps_ret.
Qed.

Lemma steps_scanFrom (pattern rest : string) (i skip : nat) (st : scanState) :
  steps R (scanFrom pattern i skip rest st).
Proof.
  revert i skip st. induction rest as [|c rest IH]; intros i skip st; simpl;
    [apply steps_ret|].
  destruct skip; [|apply IH].
  apply steps_bind; [apply steps_scanRune|intros; apply IH].
Qed.

Lemma steps_extractPatternNames (pattern : string) : steps R (extractPatternNames pattern).
Proof.
  unfold extractPatternNames.
  apply steps_bind; [apply steps_scanFrom|intros st].
  apply steps_bind; [|intros; apply steps_ret].
  destruct (negb (depth st =? 0)); [apply steps_warn|apply steps_ret].
Qed.

End Steps.

(** ** The transport sees one status line, before the body *)

Section TransportProtocol.
Context {lib : GoLib}.

#[local] Instance untouched_preorder : PreOrder untouched.
Proof.
  split.
  - intros s. now split.
  - intros s1 s2 s3 [R1 C1] [R2 C2]. split; congruence.
Qed.

#[local] Instance keepsCoherent_preorder : PreOrder keepsCoherent.
Proof. split; [intros s H; exact H|intros s1 s2 s3 H1 H2 H; auto]. Qed.

Lemma statusLines_app (l1 l2 : list TEvent) :
  statusLines (l1 ++ l2) = (statusLines l1 ++ statusLines l2)%list.
Proof. apply omap_app. Qed.

(** A status-set on a committed wrapper only logs. *)
Lemma warn_untouched (m : LogMsg) : steps untouched (warn m).
Proof. apply (steps_warn untouched). now intros s s' ? ?. Qed.

Lemma WriteHeader_outcome (code : Z) (s : World) :
  if headerWritten (rw s)
  then untouched s (finalWorld (WriteHeader code s))
  else finalWorld (WriteHeader code s) = commit (normalize code) s.
Proof.
  destruct (headerWritten (rw s)) eqn:E.
  - unfold WriteHeader. unfold mbind at 1, M_bind at 1, get. rewrite E.
    apply (warn_untouched (LogMultipleWriteHeader (statusCode (rw s)) code) s).
  - now rewrite WriteHeader_fresh.
Qed.

Lemma normalize_pos (code : Z) : 0 < normalize code.
Proof. unfold normalize. destruct (Z.leb_spec code 0); lia. Qed.

Lemma coherent_commit (code : Z) (s : World) :
  0 < code -> headerWritten (rw s) = false -> coherent (rw s) -> coherent (rw (commit code s)).
Proof.
  intros Pos E [One St]. rewrite E in St.
  assert (W : writesOf (inner (rw s)) = []).
  { destruct One as [[_ W]|(c & pre & post & Ev & _ & P & _ & _)]; [exact W|].
    rewrite Ev, statusLines_app, P in St. discriminate St. }
  split; simpl.
  - right. exists code, (inner (rw s)), []. now repeat split.
  - now rewrite statusLines_app, St.
Qed.

Lemma coherent_addEvent (ev : TEvent) (s : World) :
  (forall code, ev <> TWriteHeader code) ->
  (headerWritten (rw s) = false -> forall b, ev <> TWrite b) ->
  coherent (rw s) -> coherent (rw (addEvents [ev] s)).
Proof.
  intros NoStatus NoWrite [One St].
  assert (SL : statusLines [ev] = []).
  { destruct ev; try reflexivity. now destruct (NoStatus code). }
  split; simpl.
  - destruct One as [[S0 W0]|(c & pre & post & Ev & Pos & P & W & Q)].
    + left. rewrite statusLines_app, S0, SL.
      split; [reflexivity|]. unfold writesOf. rewrite omap_app. fold (writesOf (inner (rw s))).
      rewrite W0. destruct ev; try reflexivity.
      destruct (headerWritten (rw s)) eqn:E.
      * rewrite S0 in St. discriminate St.
      * now destruct (NoWrite eq_refl b).
    + right. exists c, pre, (post ++ [ev])%list.
      rewrite Ev, <- app_assoc. simpl. repeat split; auto.
      now rewrite statusLines_app, Q, SL.
  - now rewrite statusLines_app, SL, app_nil_r.
Qed.

Lemma keepsCoherent_WriteHeader (code : Z) : steps keepsCoherent (WriteHeader code).
Proof.
  intros s C. pose proof (WriteHeader_outcome code s) as O.
  destruct (headerWritten (rw s)) eqn:E.
  - destruct O as [-> _]. exact C.
  - rewrite O. apply coherent_commit; auto using normalize_pos.
Qed.

Lemma keepsCoherent_Write (b : string) : steps keepsCoherent (Write b).
Proof.
  intros s C. destruct (headerWritten (rw s)) eqn:E.
  - rewrite Write_committed by exact E. simpl finalWorld.
    apply coherent_addEvent; [discriminate|congruence|exact C].
  - rewrite Write_fresh by exact E. simpl finalWorld.
    apply coherent_addEvent; [discriminate|simpl; discriminate|].
    apply coherent_commit; auto. lia.
Qed.

Lemma keepsCoherent_header (ev : TEvent) (s : World) :
  (forall b, ev <> TWrite b) -> (forall code, ev <> TWriteHeader code) ->
  keepsCoherent s (addEvents [ev] s).
Proof. intros NW NS C. apply coherent_addEvent; auto. Qed.

Lemma keepsCoherent_frame (s s' : World) :
  rw s' = rw s -> calls s' = calls s -> keepsCoherent s s'.
Proof. intros E _ C. now rewrite E. Qed.

(** The part of the request closure that runs on the wrapper. *)
Lemma keepsCoherent_closure (In : list ParamType)
    (Call : list Arg -> list WriterOp * list (option any))
    (r : Request) (pathKeys : list string) :
  steps keepsCoherent
    (args ← bindParams r pathKeys 0 In;
     match args with
     | None => mret tt
     | Some args => results ← callHandler Call args; routeResults r results
     end).
Proof.
  pose proof keepsCoherent_frame as F. pose proof keepsCoherent_WriteHeader as WH.
  pose proof keepsCoherent_Write as W. pose proof keepsCoherent_header as Hd.
  apply (steps_bind keepsCoherent);
    [apply (steps_bindParams keepsCoherent F WH W Hd)|intros args].
  destruct args as [args|]; [|intros s; reflexivity].
  apply (steps_bind keepsCoherent);
    [|intros; apply (steps_routeResults keepsCoherent F WH W Hd)].
  unfold callHandler. intros s C.
  unfold mbind at 1, M_bind at 1, get. unfold mbind at 1, M_bind at 1, put.
  apply (steps_bind keepsCoherent (runOps (Call args).1) (fun _ => mret (Call args).2));
    [apply (steps_runOps keepsCoherent WH W Hd)|intros ? ? ?; assumption|exact C].
Qed.

(** X1. Whatever the handler, the hook, the configuration and the request
    are, the closure of [H] leaves on a transport writer that had received
    nothing of a response either nothing of one, or one status line with a
    positive code followed, and never preceded, by the body; it never sends
    a second status line, and the wrapper's committed flag and status agree
    with what the transport received. This holds for a request that ends in
    a panic too. *)
Theorem transport_gets_one_status_line_first
    (In : list ParamType) (Call : list Arg -> list WriterOp * list (option any))
    (w : list TEvent) (r : Request) (s : World) :
  WorldOK s -> statusLines w = [] -> writesOf w = [] ->
  let rw' := rw (finalWorld (serveHTTP In Call w r s)) in
  oneStatusFirst (inner rw')
  /\ statusLines (inner rw') = (if headerWritten rw' then [statusCode rw'] else []).
Proof.
  intros OK SL W.
  destruct (extractPatternNames_ok (Pattern r) s OK) as (pathKeys & s1 & E1 & _ & _).
  unfold serveHTTP. erewrite bind_Ok by exact E1. erewrite bind_Ok by reflexivity.
  apply (keepsCoherent_closure In Call r pathKeys).
  split; simpl; [now left|exact SL].
Qed.

End TransportProtocol.

Lemma transport_gets_one_status_line_first_witness :
  let rw' := rw (finalWorld
                   (serveHTTP [TResponseWriter]
                      (fun _ => ([OpWrite "partial"; OpWriteHeader 500],
                                 [Some (AError (OtherError "late failure" None))]))
                      [THeaderSet "Server" "mint"] usersRequest initialWorld)) in
  oneStatusFirst (inner rw')
  /\ statusLines (inner rw') = (if headerWritten rw' then [statusCode rw'] else []).
Proof.
  apply (transport_gets_one_status_line_first [TResponseWriter]
           (fun _ => ([OpWrite "partial"; OpWriteHeader 500],
                      [Some (AError (OtherError "late failure" None))]))
           [THeaderSet "Server" "mint"] usersRequest initialWorld).
  - intro; discriminate.
  - reflexivity.
  - reflexivity.
Defined.

(** ** The handler function is called at most once *)

Section CalledOnce.
Context {lib : GoLib}.

#[local] Instance sameCalls_preorder : PreOrder sameCalls.
Proof.
  split; [intros s; reflexivity|].
  intros s1 s2 s3 H1 H2. unfold sameCalls in *. congruence.
Qed.

Lemma sameCalls_frame (s s' : World) : rw s' = rw s -> calls s' = calls s -> sameCalls s s'.
Proof. now intros _ C. Qed.

Lemma sameCalls_WriteHeader (code : Z) : steps sameCalls (WriteHeader code).
Proof.
  intros s. pose proof (WriteHeader_outcome code s) as O.
  destruct (headerWritten (rw s)); [apply O|now rewrite O].
Qed.

Lemma sameCalls_Write (b : string) : steps sameCalls (Write b).
Proof.
  intros s. destruct (headerWritten (rw s)) eqn:E.
  - now rewrite Write_committed.
  - now rewrite Write_fresh.
Qed.

Lemma sameCalls_header (ev : TEvent) (s : World) :
  (forall b, ev <> TWrite b) -> (forall code, ev <> TWriteHeader code) ->
  sameCalls s (addEvents [ev] s).
Proof. reflexivity. Qed.

Lemma Path_Extract_T (p : Path.t) (r : Request) : Path.T (Path_Extract p r).1 = Path.T p.
Proof.
  unfold Path_Extract, Path_store, Path_fail. destruct p as [k v key]; simpl.
  destruct (String.eqb _ _); [reflexivity|].
  destruct k; simpl;
    repeat match goal with
           | |- context [match ?x with inl _ => _ | inr _ => _ end] => destruct x
           end; reflexivity.
Qed.

(** The decode step returns an extractor of the type it was given. *)
Lemma Extract_argOfType (paramType : ParamType) (e e' : Extractor) (r : Request)
    (err : option error) (s s' : World) :
  argOfType paramType (ArgExtractor e) ->
  Extract e r s = Ok (e', err) s' -> argOfType paramType (ArgExtractor e').
Proof.
  destruct e as [T v|T v|T v|p|c k]; simpl Extract; intros A E.
  - apply bind_inv in E as (res & s1 & _ & [= <- _ _]). exact A.
  - apply bind_inv in E as (res & s1 & _ & [= <- _ _]). exact A.
  - apply bind_inv in E as (res & s1 & _ & [= <- _ _]). exact A.
  - injection E as <- _ _. destruct paramType; simpl in *; try contradiction.
    now rewrite Path_Extract_T.
  - injection E as <- _ _. exact A.
Qed.

Lemma assignKey_argOfType (paramType : ParamType) (r : Request) (pathKeys : list string)
    (keyIdx : nat) (extractor : Extractor) (keyed : Extractor * nat) (s s' : World) :
  newExtractor paramType = Some extractor ->
  assignKey r pathKeys keyIdx extractor s = Ok keyed s' ->
  argOfType paramType (ArgExtractor keyed.1).
Proof.
  unfold assignKey.
  destruct paramType as [T|T|T|k|c| | |T]; simpl; intros [= <-]; simpl;
    try (intros [= <- _]; reflexivity).
  - destruct (pathKeys !! keyIdx); [|discriminate]. now intros [= <- _].
  - destruct (ce_isKeySetter c).
    + destruct (pathKeys !! keyIdx); [|discriminate]. now intros [= <- _].
    + now intros [= <- _].
Qed.

(** A successful run of the binding loop yields one argument per declared
    parameter, each of its parameter's type. *)
Lemma bindParams_args (r : Request) (pathKeys : list string) (paramTypes : list ParamType)
    (keyIdx : nat) (args : list Arg) (s s' : World) :
  bindParams r pathKeys keyIdx paramTypes s = Ok (Some args) s' ->
  Forall2 argOfType paramTypes args.
Proof.
  revert keyIdx args s s'.
  induction paramTypes as [|paramType rest IH]; intros keyIdx args s s'; simpl bindParams.
  - intros [= <- _]. constructor.
  - destruct (newExtractor paramType) as [extractor|] eqn:N.
    + intros E. apply bind_inv in E as (keyed & s1 & A & E).
      apply bind_inv in E as ([e' err] & s2 & X & E). simpl in E.
      destruct err as [err|].
      { apply bind_inv in E as (? & ? & _ & E). apply bind_inv in E as (? & ? & _ & E).
        discriminate E. }
      apply bind_inv in E as (args' & s3 & B & E).
      destruct args' as [args'|]; [|discriminate E]. simpl in E. injection E as <- _.
      constructor; [|eapply IH, B].
      eapply Extract_argOfType; [|exact X]. eapply assignKey_argOfType; eauto.
    + destruct paramType; try discriminate N; intros E.
      * apply bind_inv in E as (args' & s3 & B & E).
        destruct args' as [args'|]; [|discriminate E]. injection E as <- _.
        constructor; [exact I|eapply IH, B].
      * apply bind_inv in E as (args' & s3 & B & E).
        destruct args' as [args'|]; [|discriminate E]. injection E as <- _.
        constructor; [exact I|eapply IH, B].
      * apply bind_inv in E as (? & ? & _ & E). discriminate E.
Qed.

(** X2. In one request the closure of [H] calls the handler function at
    most once, whatever the outcome (a response, an error response or a
    panic); when it calls it, it passes one argument per declared parameter,
    in order, each of the type of its parameter. *)
Theorem handler_called_at_most_once
    (In : list ParamType) (Call : list Arg -> list WriterOp * list (option any))
    (w : list TEvent) (r : Request) (s : World) :
  calls (finalWorld (serveHTTP In Call w r s)) = calls s
  \/ exists args,
       calls (finalWorld (serveHTTP In Call w r s)) = (calls s ++ [args])%list
       /\ Forall2 argOfType In args.
Proof.
  pose proof sameCalls_frame as F. pose proof sameCalls_WriteHeader as WH.
  pose proof sameCalls_Write as W. pose proof sameCalls_header as Hd.
  remember (serveHTTP In Call w r s) as o eqn:Eo.
  unfold serveHTTP in Eo.
  pose proof (steps_extractPatternNames sameCalls F (Pattern r) s) as P.
  unfold mbind at 1, M_bind at 1 in Eo.
  destruct (extractPatternNames (Pattern r) s) as [pathKeys s1|p s1]; simpl in P;
    [|subst o; now left].
  unfold mbind at 1, M_bind at 1, setRW in Eo.
  set (s2 := mkWorld (config s1) (configOnce s1) (CustomErrorHandler s1) (logs s1)
                     (mkResponseWriter w 0 false) (calls s1)) in Eo.
  pose proof (steps_bindParams sameCalls F WH W Hd r pathKeys In 0 s2) as B.
  unfold mbind at 1, M_bind at 1 in Eo.
  destruct (bindParams r pathKeys 0 In s2) as [[args|] s3|p s3] eqn:EB; simpl in B;
    unfold sameCalls in *; simpl in B; try (subst o; left; simpl; congruence).
  right. exists args. split; [|eapply bindParams_args, EB].
  unfold callHandler in Eo.
  unfold mbind at 1, M_bind at 1 in Eo. unfold mbind at 1, M_bind at 1, get in Eo.
  unfold mbind at 1, M_bind at 1, put in Eo.
  set (s4 := mkWorld (config s3) (configOnce s3) (CustomErrorHandler s3) (logs s3) (rw s3)
                     (calls s3 ++ [args])) in Eo.
  pose proof (steps_runOps sameCalls WH W Hd (Call args).1 s4) as O.
  unfold mbind at 1, M_bind at 1 in Eo.
  destruct (runOps (Call args).1 s4) as [[] s5|p s5]; simpl in O; unfold sameCalls in O.
  - unfold mret at 1, M_ret at 1 in Eo.
    pose proof (steps_routeResults sameCalls F WH W Hd r (Call args).2 s5) as Q.
    unfold sameCalls in Q. subst o. rewrite Q, O. simpl. congruence.
  - subst o. simpl. rewrite O. simpl. congruence.
Qed.

End CalledOnce.

(** ** The package configuration *)

Section Configuration.
Context {lib : GoLib}.

Lemma SetConfig_eq (cfg : option Config) (s : World) :
  SetConfig cfg s
  = Ok tt (match cfg with
           | None => initialised s
           | Some cfg => mkWorld (Some (installed cfg)) (configOnce s) (CustomErrorHandler s)
                                 (logs s) (rw s) (calls s)
           end).
Proof. destruct cfg as [cfg|]; [reflexivity|apply initDefaultConfig_eq]. Qed.

Lemma runConfigOp_OK (op : ConfigOp) (s : World) :
  WorldOK s -> exists s', runConfigOp op s = Ok tt s' /\ WorldOK s'.
Proof.
  intros OK. destruct op as [cfg|]; simpl.
  - rewrite SetConfig_eq. eexists. split; [reflexivity|].
    destruct cfg as [cfg|]; [intros _; simpl; eauto|now apply initialised_OK].
  - erewrite bind_Ok by apply getConfig_eq. eexists. split; [reflexivity|].
    now apply initialised_OK.
Qed.

Lemma runConfigOps_OK (ops : list ConfigOp) (s : World) :
  WorldOK s -> exists s', forM_ ops runConfigOp s = Ok tt s' /\ WorldOK s'.
Proof.
  revert s. induction ops as [|op ops IH]; intros s OK; simpl.
  - eauto.
  - destruct (runConfigOp_OK op s OK) as (s1 & E1 & OK1).
    erewrite bind_Ok by exact E1. now apply IH.
Qed.

(** X3. From a state of the package, whatever calls of [SetConfig] (with
    a configuration or with nil) and of [getConfig] are made, in whatever
    order, none panics and the next [getConfig] returns a non-nil
    configuration. *)
Theorem getConfig_never_returns_nil (ops : list ConfigOp) (s : World) :
  WorldOK s ->
  exists c s', (forM_ ops runConfigOp ;; getConfig) s = Ok (Some c) s' /\ WorldOK s'.
Proof.
  intros OK. destruct (runConfigOps_OK ops s OK) as (s1 & E1 & OK1).
  destruct (initialised_config s1 OK1) as [c Ec].
  exists c, (initialised s1). erewrite bind_Ok by exact E1.
  rewrite getConfig_eq, Ec. split; [reflexivity|now apply initialised_OK].
Qed.

(** X4. A non-nil configuration given to [SetConfig] is the one that
    [getConfig] returns next, in every state (also after the one-time
    default was installed), with the default validator filled in when
    validation is enabled and no validator was given; so an installed
    configuration with validation enabled always has a validator. And
    [SetConfig(nil)] leaves an installed configuration in place: it only
    installs the default when there is none. *)
Theorem SetConfig_then_getConfig (cfg : Config) (s : World) :
  (exists s', (SetConfig (Some cfg) ;; getConfig) s = Ok (Some (installed cfg)) s')
  /\ (EnableValidation (installed cfg) = true -> is_Some (Validator (installed cfg)))
  /\ (is_Some (Validator cfg) \/ EnableValidation cfg = false -> installed cfg = cfg)
  /\ (config s = Some cfg ->
      exists s', (SetConfig None ;; getConfig) s = Ok (Some cfg) s')
  /\ (config s = None -> configOnce s = false ->
      exists s', (SetConfig None ;; getConfig) s = Ok (Some defaultConfig) s').
Proof.
  split; [|split; [|split; [|split]]].
  - eexists. erewrite bind_Ok by apply SetConfig_eq. rewrite getConfig_eq.
    erewrite initialised_keeps by reflexivity. reflexivity.
  - unfold installed. destruct (EnableValidation cfg) eqn:EV; simpl.
    + destruct (Validator cfg) eqn:V; simpl; [rewrite V|]; eauto.
    + rewrite EV. discriminate.
  - unfold installed. intros [[v V]| ->]; [|reflexivity].
    rewrite V. simpl. now rewrite andb_false_r.
  - intros C. eexists. erewrite bind_Ok by apply SetConfig_eq. rewrite getConfig_eq.
    rewrite (initialised_keeps _ cfg) by now apply initialised_keeps. reflexivity.
  - intros C O. eexists. erewrite bind_Ok by apply SetConfig_eq. rewrite getConfig_eq.
    unfold initialised at 2 3. rewrite O, C. reflexivity.
Qed.

End Configuration.

Lemma getConfig_never_returns_nil_witness :
  exists c s',
    (forM_ [CallGetConfig; CallSetConfig None;
            CallSetConfig (Some (mkConfig None None None None (Some 7%nat) false None));
            CallSetConfig None] runConfigOp ;; getConfig) initialWorld
    = Ok (Some c) s'
    /\ Logger c = Some 7%nat.
Proof.
  destruct (getConfig_never_returns_nil
              [CallGetConfig; CallSetConfig None;
               CallSetConfig (Some (mkConfig None None None None (Some 7%nat) false None));
               CallSetConfig None] initialWorld) as (c & s' & E & _).
  { intro; discriminate. }
  exists c, s'. split; [exact E|].
  vm_compute in E. injection E as <- _. reflexivity.
Defined.

(** ** Validation in the JSON extractor *)

Section Validation.
Context {lib : GoLib}.

Lemma initialised_twice (s : World) (c : Config) :
  config s = Some c ->
  config (initialised s) = Some c /\ config (initialised (initialised s)) = Some c.
Proof. intros C. split; auto using initialised_keeps. Qed.

Lemma Config_jsonUnmarshal_eq (c : Config) (data : string) (T : TypeName) (s : World) :
  Config_jsonUnmarshal (Some c) data T s = Ok (unmarshalOf c data T) s.
Proof. reflexivity. Qed.

Lemma Config_validate_eq (c : Config) (T : TypeName) (v : GoData) (s : World) :
  Config_validate (Some c) T v s = Ok (validateOf c T v) s.
Proof.
  unfold Config_validate, validateOf, deref. rewrite ret_bind.
  destruct (EnableValidation c); simpl; [|reflexivity].
  now destruct (Validator c).
Qed.

(** [JSON.Extract] on a body that the decoder accepts. *)
Lemma JSON_Extract_decoded (T : TypeName) (Value target : GoData) (r : Request)
    (body : string) (c : Config) (s : World) :
  config s = Some c -> Body r = inl body -> body <> EmptyString ->
  unmarshalOf c body T = inl target ->
  JSON_Extract T Value r s
  = Ok (target, NewValidationError <$> validateOf c T target)
       (initialised (initialised s)).
Proof.
  intros C B NE U. destruct (initialised_twice s c C) as [C1 C2].
  unfold JSON_Extract. rewrite B.
  rewrite (proj2 (String.eqb_neq body EmptyString) NE).
  rewrite getConfig_bind, C1.
  erewrite bind_Ok by apply Config_jsonUnmarshal_eq. rewrite U.
  rewrite getConfig_bind, C2.
  erewrite bind_Ok by apply Config_validate_eq.
  now destruct (validateOf c T target).
Qed.

Lemma formatValidationError_required (field structField param msg : string) :
  field <> EmptyString ->
  formatValidationError
    (ValidationErrors [FieldError.mk field structField "required" param] msg)
  = field +:+ " is required".
Proof.
  intros NE. unfold formatValidationError. simpl.
  now rewrite (proj2 (String.eqb_neq field EmptyString) NE).
Qed.

(** X5. With validation enabled, a JSON body that decodes into a value
    the validator rejects makes [JSON.Extract] fail with a validation
    failure that wraps the validator's error; when the validator reports
    one field as failing the rule [required], the message is the field's
    name followed by [is required], and the error classifier answers 400
    with the tag [validation_failed] and that message. *)
Theorem required_field_fails_validation
    (T : TypeName) (Value target : GoData) (r : Request) (body : string)
    (c : Config) (s : World) (validate : TypeName -> GoData -> option error)
    (field structField param msg : string) :
  config s = Some c -> EnableValidation c = true -> Validator c = Some validate ->
  Body r = inl body -> body <> EmptyString -> unmarshalOf c body T = inl target ->
  validate T target
    = Some (ValidationErrors [FieldError.mk field structField "required" param] msg) ->
  field <> EmptyString ->
  exists err s',
    JSON_Extract T Value r s = Ok (target, Some err) s'
    /\ err = PtrExtractError ErrTypeValidation EmptyString EmptyString
               (field +:+ " is required")
               (Some (ValidationErrors [FieldError.mk field structField "required" param] msg))
    /\ toHTTPError (Some err)
       = Some (HTTPError.mk 400 "validation_failed" (field +:+ " is required")).
Proof.
  intros C EV V B NE U Rej NF.
  rewrite (JSON_Extract_decoded T Value target r body c s C B NE U).
  unfold validateOf. rewrite EV, V, Rej. simpl.
  eexists _, _. split; [reflexivity|].
  unfold NewValidationError. rewrite formatValidationError_required by exact NF.
  split; reflexivity.
Qed.

(** X6. With validation disabled in the configuration, [JSON.Extract]
    returns every value the decoder yields, without an error, whatever the
    validator of the configuration would say about it. *)
Theorem disabled_validation_checks_nothing
    (T : TypeName) (Value target : GoData) (r : Request) (body : string)
    (c : Config) (s : World) :
  config s = Some c -> EnableValidation c = false ->
  Body r = inl body -> body <> EmptyString -> unmarshalOf c body T = inl target ->
  exists s', JSON_Extract T Value r s = Ok (target, None) s'.
Proof.
  intros C EV B NE U.
  rewrite (JSON_Extract_decoded T Value target r body c s C B NE U).
  unfold validateOf. rewrite EV. eexists. reflexivity.
Qed.

End Validation.

Lemma required_field_fails_validation_witness :
  exists err s',
    JSON_Extract "User" DNull (jsonRequest "{}")
      (mkWorld (Some (validatingConfig true)) true None [] (mkResponseWriter [] 0 false) [])
    = Ok (namelessUser, Some err) s'
    /\ toHTTPError (Some err) = Some (HTTPError.mk 400 "validation_failed" "name is required").
Proof.
  destruct (required_field_fails_validation "User" DNull namelessUser (jsonRequest "{}") "{}"
              (validatingConfig true)
              (mkWorld (Some (validatingConfig true)) true None []
                       (mkResponseWriter [] 0 false) [])
              requireName "name" "Name" EmptyString
              "Key: 'User.name' Error:Field validation for 'name' failed on the 'required' tag")
    as (err & s' & E & _ & T); try reflexivity; try discriminate.
  exists err, s'. split; [exact E|exact T].
Defined.

Lemma disabled_validation_checks_nothing_witness :
  exists s',
    JSON_Extract "User" DNull (jsonRequest "{}")
      (mkWorld (Some (validatingConfig false)) true None [] (mkResponseWriter [] 0 false) [])
    = Ok (namelessUser, None) s'.
Proof.
  apply (disabled_validation_checks_nothing "User" DNull namelessUser (jsonRequest "{}") "{}"
           (validatingConfig false)); try reflexivity; discriminate.
Defined.

(** ** Failures of the path extractor *)

Section PathFailures.
Context {lib : GoLib}.

(** X7. A path parameter whose type is a named type (over any of the
    permitted underlying kinds) cannot be extracted: for every non-empty
    segment [Path.Extract] fails with the kind [unsupported_type], naming
    the pointer type, and leaves the parameter as it was; the classifier
    answers 400 with that kind as tag. *)
Theorem named_path_type_is_unsupported
    (p : Path.t) (r : Request) (name : TypeName) (underlying : PathKind) :
  Path.T p = KNamed name underlying ->
  PathValue r (Path.Key p) <> EmptyString ->
  exists err,
    Path_Extract p r = (p, Some err)
    /\ err = PtrExtractError "unsupported_type" (Path.Key p) EmptyString
               ("Unsupported path parameter type: *" +:+ name) None
    /\ toHTTPError (Some err)
       = Some (HTTPError.mk 400 "unsupported_type"
                 ("Unsupported path parameter type: *" +:+ name)).
Proof.
  intros HT NE. unfold Path_Extract.
  rewrite (proj2 (String.eqb_neq _ _) NE), HT.
  eexists. split; [reflexivity|]. split; reflexivity.
Qed.

(** X8. Whenever [Path.Extract] fails, the parameter keeps the value it
    had, and the classifier turns the failure into a 400 response whose
    message is the text of the failure and whose tag is one of
    [missing_path_parameter], [invalid_path_parameter] and
    [unsupported_type]. *)
Theorem Path_Extract_failure_is_bad_request
    (p p' : Path.t) (r : Request) (err : error) :
  Path_Extract p r = (p', Some err) ->
  p' = p
  /\ exists tag, In tag pathFailureTags
       /\ toHTTPError (Some err) = Some (HTTPError.mk 400 tag (Error err)).
Proof.
  unfold Path_Extract, Path_store, Path_fail, pathFailureTags.
  destruct (String.eqb _ _).
  - intros [= <- <-]. split; [reflexivity|].
    exists "missing_path_parameter". split; [simpl; auto|reflexivity].
  - destruct (Path.T p);
      repeat match goal with
             | |- context [match ?x with inl _ => _ | inr _ => _ end] => destruct x
             end;
      intros E; try discriminate E; injection E as <- <-; (split; [reflexivity|]).
    all: first [ exists "invalid_path_parameter"; split; [simpl; auto|reflexivity]
               | exists "unsupported_type"; split; [simpl; auto|reflexivity] ].
Qed.

End PathFailures.

(** A request whose segment [id] is a numeral, at a parameter of the
    named type [main.UserID]. *)
Lemma named_path_type_is_unsupported_witness :
  exists err,
    Path_Extract (Path.mk (KNamed "main.UserID" KInt) (VNamed "main.UserID" (VInt 0)) "id")
                 (examplePathRequest "42")
    = (Path.mk (KNamed "main.UserID" KInt) (VNamed "main.UserID" (VInt 0)) "id", Some err)
    /\ toHTTPError (Some err)
       = Some (HTTPError.mk 400 "unsupported_type"
                 "Unsupported path parameter type: *main.UserID").
Proof.
  destruct (named_path_type_is_unsupported
              (Path.mk (KNamed "main.UserID" KInt) (VNamed "main.UserID" (VInt 0)) "id")
              (examplePathRequest "42") "main.UserID" KInt eq_refl)
    as (err & E & _ & T); [discriminate|].
  exists err. split; [exact E|exact T].
Defined.

Lemma Path_Extract_failure_is_bad_request_witness :
  exists tag,
    In tag pathFailureTags
    /\ toHTTPError (Some (NewPathConversionError "id" "4x" "uint"
                            (strconv.numError "ParseUint" "4x" ErrSyntax)))
       = Some (HTTPError.mk 400 tag
                 (Error (NewPathConversionError "id" "4x" "uint"
                           (strconv.numError "ParseUint" "4x" ErrSyntax)))).
Proof.
  apply (Path_Extract_failure_is_bad_request
           (Path.mk KUint (VUint 7) "id") (Path.mk KUint (VUint 7) "id")
           (examplePathRequest "4x")).
  reflexivity.
Defined.

(** ** The error classifier *)

Section Classifier.
Context {lib : GoLib}.

Lemma HasPrefix_spec (s prefix : string) :
  HasPrefix s prefix = true <-> exists post, s = prefix +:+ post.
Proof.
  revert s. induction prefix as [|p prefix IH]; intros s; simpl.
  - split; [eauto|now destruct s].
  - destruct s as [|c s].
    + split; [discriminate|intros [post [=]]].
    + simpl. rewrite andb_true_iff, IH, Ascii.eqb_eq. split.
      * intros [-> [post ->]]. eauto.
      * intros [post [= -> ->]]. eauto.
Qed.

Lemma Contains_spec (s sub : string) : Contains s sub = true <-> occursIn sub s.
Proof.
  unfold occursIn. induction s as [|c s IH]; cbn [Contains];
    rewrite orb_true_iff, HasPrefix_spec.
  - split.
    + intros [[post E]|[=]]. exists EmptyString, post. exact E.
    + intros ([|? ?] & post & E); [left; eauto|discriminate E].
  - rewrite IH. split.
    + intros [[post E]|(pre & post & ->)].
      * exists EmptyString, post. exact E.
      * exists (String c pre), post. reflexivity.
    + intros ([|c' pre] & post & E).
      * left. eauto.
      * right. injection E as -> ->. eauto.
Qed.

Lemma Contains_false (s sub : string) : Contains s sub = false <-> ~ occursIn sub s.
Proof. rewrite <- Contains_spec. destruct (Contains s sub); split; congruence. Qed.

(** X9. An error that is a uniform structured error, or wraps one at
    any depth below extraction failures and [fmt.Errorf] wrappers, is
    answered with that structured error itself, pointer or value: its
    status, tag and message are not touched by the layers around it. *)
Theorem wrapped_HTTPError_passes_through (err : error) (httpErr : HTTPError.t) :
  unwrapsTo err (PtrHTTPError httpErr) \/ unwrapsTo err (ValHTTPError httpErr) ->
  toHTTPError (Some err) = Some httpErr.
Proof.
  intros [U|U]; unfold toHTTPError.
  - assert (E : errors_As asPtrHTTPError err = Some httpErr).
    { remember (PtrHTTPError httpErr) as inner eqn:I.
      induction U as [err|ty field value message cause inner U IH|msg cause inner U IH];
        [subst; reflexivity|simpl; auto..]. }
    now rewrite E.
  - assert (E : errors_As asPtrHTTPError err = None
                /\ errors_As asValHTTPError err = Some httpErr).
    { remember (ValHTTPError httpErr) as inner eqn:I.
      induction U as [err|ty field value message cause inner U IH|msg cause inner U IH];
        [subst; split; reflexivity|simpl; auto..]. }
    destruct E as [-> ->]. reflexivity.
Qed.

Lemma inferStatusCode_range (msg : string) : In (inferStatusCode msg) classifierStatuses.
Proof.
  unfold inferStatusCode, classifierStatuses.
  repeat match goal with
         | |- context [if ?b then _ else _] => destruct b
         end; simpl; auto 10.
Qed.

(** X10. The response to an error whose chain holds no uniform
    structured error has one of the statuses 400, 401, 403, 404, 408 and
    500, whatever the error is. *)
Theorem classifier_status_range (err : error) :
  noHTTPErrorIn (Some err) ->
  exists httpErr,
    toHTTPError (Some err) = Some httpErr
    /\ In (HTTPError.Code httpErr) classifierStatuses.
Proof.
  intros [E1 E2]. unfold toHTTPError. rewrite E1, E2.
  destruct (errors_As asPtrExtractError err) as [extractErr|].
  - eexists. split; [reflexivity|].
    unfold extractErrorToHTTPError, classifierStatuses.
    repeat match goal with
           | |- context [if ?b then _ else _] => destruct b
           end; simpl; auto 10.
  - eexists. split; [reflexivity|].
    destruct err; simpl; try (unfold classifierStatuses; simpl; now auto 10);
      apply inferStatusCode_range.
Qed.

(** X11. The status inferred from a message is 404 exactly when the text
    [not found] occurs in the lowered message, whatever else the message
    says, and 500 exactly when none of the six texts of the inference
    occurs in it. *)
Theorem inferStatusCode_by_occurrence (msg : string) :
  (inferStatusCode msg = 404 <-> occursIn "not found" (ToLower msg))
  /\ (inferStatusCode msg = 500
      <-> Forall (fun text => ~ occursIn text (ToLower msg)) inferenceTexts).
Proof.
  unfold inferStatusCode, inferenceTexts.
  rewrite !Forall_cons, Forall_nil, <- !Contains_false.
  destruct (Contains (ToLower msg) "not found") eqn:C1.
  { apply Contains_spec in C1. split; [tauto|]. split; [discriminate|].
    intros (F & _). discriminate F. }
  assert (N1 : ~ occursIn "not found" (ToLower msg)) by now apply Contains_false.
  destruct (Contains (ToLower msg) "unauthorized").
  { split; split; try discriminate; try tauto. intros (_ & F & _). discriminate F. }
  destruct (Contains (ToLower msg) "forbidden").
  { split; split; try discriminate; try tauto. intros (_ & _ & F & _). discriminate F. }
  destruct (Contains (ToLower msg) "timeout").
  { split; split; try discriminate; try tauto. intros (_ & _ & _ & F & _). discriminate F. }
  destruct (Contains (ToLower msg) "bad request").
  { split; split; try discriminate; try tauto. intros (_ & _ & _ & _ & F & _). discriminate F. }
  destruct (Contains (ToLower msg) "invalid"); simpl.
  { split; split; try discriminate; try tauto. intros (_ & _ & _ & _ & _ & F & _). discriminate F. }
  split; split; try discriminate; try tauto.
Qed.

End Classifier.

(** A structured error under an extraction failure and a wrapper of
    [fmt.Errorf]. *)
Lemma wrapped_HTTPError_passes_through_witness :
  toHTTPError
    (Some (OtherError "load user: decode: quota exceeded"
             (Some (PtrExtractError ErrTypeValidation "name" EmptyString "decode: quota exceeded"
                      (Some (PtrHTTPError (HTTPError.mk 429 "too_many_requests"
                                             "quota exceeded")))))))
  = Some (HTTPError.mk 429 "too_many_requests" "quota exceeded").
Proof.
  apply wrapped_HTTPError_passes_through. left.
  apply unwraps_other, unwraps_extract, unwraps_here.
Defined.

Lemma classifier_status_range_witness :
  exists httpErr,
    toHTTPError (Some (OtherError "dial tcp: i/o timeout" None)) = Some httpErr
    /\ In (HTTPError.Code httpErr) classifierStatuses.
Proof.
  apply (classifier_status_range (OtherError "dial tcp: i/o timeout" None)).
  split; reflexivity.
Defined.

(** ** Result envelopes with a payload written as it is *)

Section RawPayload.
Context {lib : GoLib}.

(** X12. A result envelope without failure whose payload is a string,
    a byte slice or HTML, handled on a wrapper that has committed nothing:
    the transport receives the envelope's extra headers, then, when the
    code is zero, the content type, the status line 200 and the payload,
    and, when the code is not zero, the status line of the (normalized)
    code before the content type and the payload. Nothing is logged, no
    error is returned, and the configuration is neither read nor
    initialised. *)
Theorem raw_payload_trace
    (Code : Z) (Headers : option Values) (data : any) (contentType : string) (s : World) :
  headerWritten (rw s) = false ->
  contentTypeOf data = Some contentType ->
  exists s',
    handleResult (Result.mk Code Headers (Some data) None) s = Ok None s'
    /\ inner (rw s')
       = (inner (rw s) ++ resultHeaderEvents Headers
            ++ (if Code =? 0
                then [THeaderSet "Content-Type" contentType; TWriteHeader 200]
                else [TWriteHeader (normalize Code); THeaderSet "Content-Type" contentType])
            ++ [TWrite (payloadBytes data)])%list
    /\ statusCode (rw s') = (if Code =? 0 then 200 else normalize Code)
    /\ logs s' = logs s /\ config s' = config s /\ configOnce s' = configOnce s.
Proof.
  intros F CT. unfold handleResult. cbn [Result.Headers Result.Code Result.Err Result.Data].
  set (s1 := addEvents (resultHeaderEvents Headers) s).
  assert (E1 : match Headers with
               | Some headers => WriteHeaders headers
               | None => mret tt
               end s = Ok tt s1).
  { subst s1. destruct Headers as [headers|]; simpl resultHeaderEvents.
    - apply WriteHeaders_eq.
    - now rewrite addEvents_nil. }
  erewrite bind_Ok by exact E1.
  assert (F1 : headerWritten (rw s1) = false) by exact F.
  destruct (Code =? 0) eqn:Z; cbn [negb].
  - rewrite ret_bind.
    assert (E : handleCommonTypes (Some data) s1
                = Ok None (addEvents [TWrite (payloadBytes data)]
                             (commit 200 (addEvents [THeaderSet "Content-Type" contentType] s1)))).
    { destruct data; try discriminate CT; injection CT as <-; unfold handleCommonTypes;
        (erewrite bind_Ok by apply forward_eq); now apply Write_fresh. }
    eexists. split; [exact E|]. simpl. rewrite <- !app_assoc. now repeat split.
  - erewrite bind_Ok by now apply WriteHeader_fresh.
    assert (E : handleCommonTypes (Some data) (commit (normalize Code) s1)
                = Ok None (addEvents [TWrite (payloadBytes data)]
                             (addEvents [THeaderSet "Content-Type" contentType]
                                (commit (normalize Code) s1)))).
    { destruct data; try discriminate CT; injection CT as <-; unfold handleCommonTypes;
        (erewrite bind_Ok by apply forward_eq); now apply Write_committed. }
    eexists. split; [exact E|]. simpl. rewrite <- !app_assoc. now repeat split.
Qed.

End RawPayload.

(** [mint.Result] with code 201, a [Location] header and a string. *)
Lemma raw_payload_trace_witness :
  exists s',
    handleResult (Result.mk 201 (Some [("Location", ["/users/7"])]) (Some (AString "created")) None)
                 initialWorld = Ok None s'
    /\ inner (rw s')
       = [THeaderAdd "Location" "/users/7"; TWriteHeader 201;
          THeaderSet "Content-Type" "text/plain; charset=utf-8"; TWrite "created"]
    /\ config s' = None.
Proof.
  destruct (raw_payload_trace 201 (Some [("Location", ["/users/7"])]) (AString "created")
              "text/plain; charset=utf-8" initialWorld eq_refl eq_refl)
    as (s' & E & I & _ & _ & C & _).
  exists s'. split; [exact E|]. split; [exact I|exact C].
Defined.

(** ** The names of a well-formed route pattern *)

Section WellFormedPatterns.
Context {lib : GoLib}.

Lemma append_nil_r (s : string) : s +:+ EmptyString = s.
Proof.
  induction s as [|c s IH]; [reflexivity|].
  change (String c (s +:+ EmptyString) = String c s). now rewrite IH.
Qed.

Lemma append_assoc (s1 s2 s3 : string) : (s1 +:+ s2) +:+ s3 = s1 +:+ (s2 +:+ s3).
Proof.
  induction s1 as [|c s1 IH]; [reflexivity|].
  change (String c ((s1 +:+ s2) +:+ s3) = String c (s1 +:+ (s2 +:+ s3))). now rewrite IH.
Qed.

Lemma plainChar_inv (c : ascii) :
  plainChar c = true ->
  byteZ c < 128
  /\ String.eqb (String c EmptyString) "{" = false
  /\ String.eqb (String c EmptyString) "}" = false.
Proof.
  unfold plainChar. rewrite !andb_true_iff, !negb_true_iff, Z.ltb_lt.
  intros [[L B1] B2]. split; [exact L|].
  simpl String.eqb. unfold lbrace, rbrace in *.
  rewrite B1, B2. now split.
Qed.

(** Literal text outside a capture changes nothing. *)
Lemma scanFrom_literal (pattern text rest : string) (i : nat) (st : scanState) (s : World) :
  plainText text = true -> inParam st = false ->
  scanFrom pattern i 0 (text +:+ rest) st s
  = scanFrom pattern (i + String.length text) 0 rest st s.
Proof.
  revert i. induction text as [|c text IH]; intros i P N.
  - simpl. now rewrite Nat.add_0_r.
  - simpl in P. apply andb_true_iff in P as [Pc P].
    destruct (plainChar_inv c Pc) as (L & B1 & B2).
    change (String c text +:+ rest) with (String c (text +:+ rest)).
    rewrite scanFrom_ascii by exact L.
    unfold scanRune. rewrite B1, B2, N. rewrite ret_bind.
    rewrite IH by assumption. simpl String.length. f_equal. lia.
Qed.

(** Text inside a capture is appended to the captured name. *)
Lemma scanFrom_name (pattern name rest : string) (i : nat)
    (ns : list string) (cur : string) (d : Z) (s : World) :
  plainText name = true ->
  scanFrom pattern i 0 (name +:+ rest) (mkScan ns true cur d) s
  = scanFrom pattern (i + String.length name) 0 rest (mkScan ns true (cur +:+ name) d) s.
Proof.
  revert i cur. induction name as [|c name IH]; intros i cur P.
  - simpl. rewrite Nat.add_0_r. now rewrite append_nil_r.
  - simpl in P. apply andb_true_iff in P as [Pc P].
    destruct (plainChar_inv c Pc) as (L & B1 & B2).
    change (String c name +:+ rest) with (String c (name +:+ rest)).
    rewrite scanFrom_ascii by exact L.
    unfold scanRune. rewrite B1, B2. cbn [inParam names currentName depth]. rewrite ret_bind.
    rewrite IH by assumption. simpl String.length.
    replace ((cur +:+ String c EmptyString) +:+ name) with (cur +:+ String c name).
    + f_equal. lia.
    + now rewrite append_assoc.
Qed.

Lemma scanFrom_segments (pattern : string) (segs : list Segment) (rest : string) (i : nat)
    (ns : list string) (cur : string) (s : World) :
  forallb plainSegment segs = true ->
  exists i' cur',
    scanFrom pattern i 0 (renderPattern segs +:+ rest) (mkScan ns false cur 0) s
    = scanFrom pattern i' 0 rest (mkScan (ns ++ wildNames segs) false cur' 0) s.
Proof.
  revert i ns cur. induction segs as [|seg segs IH]; intros i ns cur P.
  - exists i, cur. simpl. now rewrite app_nil_r.
  - simpl in P. apply andb_true_iff in P as [Pseg P].
    destruct seg as [text|name]; simpl in Pseg; cbn [renderPattern wildNames].
    + rewrite append_assoc.
      rewrite scanFrom_literal by (assumption || reflexivity).
      apply IH, P.
    + change (String lbrace (name +:+ String rbrace (renderPattern segs)) +:+ rest)
        with (String lbrace ((name +:+ String rbrace (renderPattern segs)) +:+ rest)).
      rewrite scanFrom_ascii by now compute.
      unfold scanRune at 1. simpl String.eqb. cbv iota.
      cbn [inParam names currentName depth].
      rewrite (bind_Ok _ _ s s (mkScan ns true EmptyString (0 + 1)) eq_refl).
      rewrite append_assoc.
      rewrite scanFrom_name by exact Pseg.
      change (String rbrace (renderPattern segs) +:+ rest)
        with (String rbrace (renderPattern segs +:+ rest)).
      rewrite scanFrom_ascii by now compute.
      unfold scanRune at 1. simpl String.eqb. cbv iota.
      cbn [inParam names currentName depth negb]. rewrite ret_bind.
      change (0 + 1 - 1) with 0. change (EmptyString +:+ name) with name.
      destruct (IH (S (S i + String.length name))
                   (if negb (String.eqb name EmptyString) then (ns ++ [name])%list else ns) name P)
        as (i' & cur' & E).
      exists i', cur'. rewrite E.
      destruct (String.eqb name EmptyString); simpl; [reflexivity|].
      now rewrite <- app_assoc.
Qed.

(** X13. For a pattern made of literal text and wildcards in braces,
    whose texts are ASCII without braces, [extractPatternNames] returns the
    texts of the wildcards that are not empty, in the order of the pattern
    and as they are written between the braces; it logs nothing and does
    not touch the configuration. *)
Theorem well_formed_pattern_names (segs : list Segment) (s : World) :
  forallb plainSegment segs = true ->
  extractPatternNames (renderPattern segs) s = Ok (wildNames segs) s.
Proof.
  intros P. unfold extractPatternNames.
  destruct (scanFrom_segments (renderPattern segs) segs EmptyString 0 [] EmptyString s P)
    as (i' & cur' & E).
  rewrite append_nil_r in E.
  erewrite bind_Ok by (rewrite E; reflexivity).
  reflexivity.
Qed.

End WellFormedPatterns.

(** A pattern with a method, two wildcards, an empty pair of braces and
    a wildcard for the remaining segments: the dots stay in its name. *)
Lemma well_formed_pattern_names_witness :
  extractPatternNames "GET /users/{id}/files/{}{path...}" initialWorld
  = Ok ["id"; "path..."] initialWorld.
Proof.
  apply (well_formed_pattern_names
           [Lit "GET /users/"; Wild "id"; Lit "/files/"; Wild EmptyString; Wild "path..."]).
  reflexivity.
Defined.

(** ** Parameter types that the adapter cannot bind *)

Section UnsupportedParameter.
Context {lib : GoLib}.



End UnsupportedParameter.

(** ** The field names of the default validator *)

Lemma beforeComma_no_comma (s : string) : ~ In ","%char (bytesOf (beforeComma s)).
Proof.
  induction s as [|c s IH]; simpl; [tauto|].
  destruct (Ascii.eqb c ","%char) eqn:E; simpl; [tauto|].
  apply Ascii.eqb_neq in E. intros [->|I]; [now apply E|now apply IH].
Qed.

(** X15. The name under which the default validator reports a field
    never contains a comma and is never a lone dash; and when the [json] tag
    has a text before its first comma, the [form] tag plays no part in the
    name (a lone dash there gives the empty name whatever the [form] tag
    is). *)
Theorem tagNameFunc_names (jsonTag formTag : string) :
  ~ In ","%char (bytesOf (tagNameFunc jsonTag formTag))
  /\ tagNameFunc jsonTag formTag <> "-"
  /\ (beforeComma jsonTag <> EmptyString ->
      forall formTag' : string,
        tagNameFunc jsonTag formTag' = tagNameFunc jsonTag formTag
        /\ tagNameFunc jsonTag formTag
           = if String.eqb (beforeComma jsonTag) "-" then EmptyString
             else beforeComma jsonTag).
Proof.
  unfold tagNameFunc.
  destruct (String.eqb (beforeComma jsonTag) "-") eqn:J1.
  { split; [simpl; tauto|]. split; [discriminate|]. now split. }
  destruct (String.eqb (beforeComma jsonTag) EmptyString) eqn:J2; simpl negb; cbv iota.
  - apply String.eqb_eq in J2.
    destruct (String.eqb (beforeComma formTag) "-") eqn:F1.
    { split; [simpl; tauto|]. split; [discriminate|]. intros NE. now destruct NE. }
    split; [apply beforeComma_no_comma|]. split; [now apply String.eqb_neq|].
    intros NE. now destruct NE.
  - split; [apply beforeComma_no_comma|]. split; [now apply String.eqb_neq|].
    now split.
Qed.


(** ** The closure after a failed extraction *)

Section AfterFailure.
Context {lib : GoLib}.

(** The closure of [H] when the binding loop stops with an error: what
    is left is the write of the error and the log of a failed write. *)
Lemma serveHTTP_stops (In : list ParamType)
    (Call : list Arg -> list WriterOp * list (option any))
    (w : list TEvent) (r : Request) (s s1 sE : World) (pathKeys : list string) (err : error) :
  extractPatternNames (Pattern r) s = Ok pathKeys s1 ->
  stopsWith r pathKeys 0 In (withRW (mkResponseWriter w 0 false) s1) err sE ->
  serveHTTP In Call w r s
  = (e ← handleError err; logIfError LogFailedWriteErrorResponse e) sE.
Proof.
  intros E1 Stop. unfold serveHTTP. erewrite bind_Ok by exact E1.
  erewrite bind_Ok by reflexivity.
  unfold mbind at 1, M_bind at 1.
  change (mkWorld (config s1) (configOnce s1) (CustomErrorHandler s1) (logs s1)
                  (mkResponseWriter w 0 false) (calls s1))
    with (withRW (mkResponseWriter w 0 false) s1).
  rewrite (bindParams_stops _ _ _ _ _ _ _ Stop).
  unfold mbind, M_bind.
  destruct (handleError err sE) as [e s2|p s2]; [|reflexivity].
  destruct (logIfError LogFailedWriteErrorResponse e s2) as [[] s3|p s3]; reflexivity.
Qed.

Lemma handleError_hook (err : error) (hook : error -> list WriterOp) (s : World) :
  CustomErrorHandler s = Some hook ->
  handleError err s = (runOps (hook err) ;; mret None) s.
Proof. intros Hook. unfold handleError. munfold. now rewrite Hook. Qed.

(** X16. With a custom hook installed, the closure of [H] answers an
    extraction failure with the operations of the hook on the error, and
    with nothing else: it sets no content type and no status of its own,
    writes no body, logs nothing, and does not call the handler function. *)
Theorem custom_hook_answers_extraction_failure
    (In : list ParamType) (Call : list Arg -> list WriterOp * list (option any))
    (w : list TEvent) (r : Request) (s s1 sE : World) (pathKeys : list string)
    (err : error) (hook : error -> list WriterOp) :
  extractPatternNames (Pattern r) s = Ok pathKeys s1 ->
  stopsWith r pathKeys 0 In (withRW (mkResponseWriter w 0 false) s1) err sE ->
  CustomErrorHandler sE = Some hook ->
  serveHTTP In Call w r s = runOps (hook err) sE
  /\ rw sE = mkResponseWriter w 0 false
  /\ logs sE = logs s1.
Proof.
  intros E1 Stop Hook.
  destruct (stopsWith_frame _ _ _ _ _ _ _ Stop) as ((RE & _) & LE & _).
  split; [|split; [exact RE|exact LE]].
  rewrite (serveHTTP_stops In Call w r s s1 sE pathKeys err E1 Stop).
  unfold mbind at 1, M_bind at 1. rewrite (handleError_hook err hook sE Hook).
  unfold mbind, M_bind.
  destruct (runOps (hook err) sE) as [[] s2|p s2]; reflexivity.
Qed.

Lemma JSON_Extract_undecoded (T : TypeName) (Value : GoData) (r : Request)
    (body : string) (c : Config) (err : error) (s : World) :
  config s = Some c -> Body r = inl body -> body <> EmptyString ->
  unmarshalOf c body T = inr err ->
  JSON_Extract T Value r s = Ok (Value, Some err) (initialised s).
Proof.
  intros C B NE U. unfold JSON_Extract. rewrite B.
  rewrite (proj2 (String.eqb_neq body EmptyString) NE).
  rewrite getConfig_bind, (initialised_keeps s c C).
  erewrite bind_Ok by apply Config_jsonUnmarshal_eq. now rewrite U.
Qed.

Lemma toHTTPError_decode (err : error) :
  isDecodeError err = true ->
  toHTTPError (Some err) = Some (typeSwitchToHTTPError err)
  /\ HTTPError.Code (typeSwitchToHTTPError err) = 400
  /\ In (HTTPError.Err (typeSwitchToHTTPError err)) decodeErrorTags.
Proof.
  unfold decodeErrorTags.
  destruct err; try discriminate; intros _; (split; [reflexivity|]);
    (split; [reflexivity|]); simpl; auto 10.
Qed.

(** X17. A request whose body is not empty and is refused by the JSON
    decoder with one of the error shapes of the decode libraries, served by
    the closure of a handler whose only parameter is [JSON[T]], with no
    custom hook: the handler function is not called, the status sent is
    400, and the body is what the JSON encoder writes for the structured
    error that the type switch of the classifier builds from the decoder's
    error, whose tag is one of the five decode tags. *)
Theorem undecodable_body_response
    (T : TypeName) (Call : list Arg -> list WriterOp * list (option any))
    (w : list TEvent) (r : Request) (body : string) (c : Config) (err : error) (s : World) :
  config s = Some c -> CustomErrorHandler s = None ->
  Body r = inl body -> body <> EmptyString ->
  unmarshalOf c body T = inr err -> isDecodeError err = true ->
  exists httpErr s',
    serveHTTP [TJSON T] Call w r s = Ok tt s'
    /\ httpErr = typeSwitchToHTTPError err
    /\ HTTPError.Code httpErr = 400 /\ In (HTTPError.Err httpErr) decodeErrorTags
    /\ calls s' = calls s
    /\ statusCode (rw s') = 400
    /\ inner (rw s')
       = (w ++ [jsonContentType; TWriteHeader 400]
            ++ map TWrite (encodeWrites c (AError (PtrHTTPError httpErr))).1)%list.
Proof.
  intros C Hook B NE U D.
  assert (OK : WorldOK s) by (intros _; rewrite C; eauto).
  destruct (extractPatternNames_ok (Pattern r) s OK) as (pathKeys & s1 & E1 & OK1 & F1).
  destruct F1 as (R1 & Calls1 & Hook1 & C1 & _).
  set (s0 := withRW (mkResponseWriter w 0 false) s1).
  assert (C0 : config s0 = Some c) by (apply C1, C).
  assert (Stop : stopsWith r pathKeys 0 [TJSON T] s0 err (initialised s0)).
  { eapply stops_here with (keyed := (EJSON T (zeroValue T), 0%nat)); [reflexivity..|].
    simpl. erewrite bind_Ok by (eapply JSON_Extract_undecoded; eassumption).
    reflexivity. }
  destruct (toHTTPError_decode err D) as (TE & Code & Tag).
  set (httpErr := typeSwitchToHTTPError err) in *.
  set (sE := initialised s0) in *.
  destruct (initialised_frame s0) as (RE & CallsE & HookE & _). fold sE in RE, CallsE, HookE.
  assert (CE : config sE = Some c) by now apply initialised_keeps.
  assert (HookE' : CustomErrorHandler sE = None) by (rewrite HookE; simpl; congruence).
  pose proof (handleError_encodes err httpErr c sE HookE' TE CE) as HE.
  set (writes := encodeWrites c (AError (PtrHTTPError httpErr))) in *.
  set (s2 := addEvents (map TWrite writes.1) (errorHeader httpErr sE)) in *.
  assert (R2 : rw s2 = mkResponseWriter
                         (w ++ [jsonContentType; TWriteHeader 400] ++ map TWrite writes.1)%list
                         400 true).
  { subst s2. unfold errorHeader. rewrite RE. simpl. rewrite RE, Code. simpl.
    now rewrite <- !app_assoc. }
  assert (Calls2 : calls s2 = calls s).
  { subst s2. unfold errorHeader. rewrite RE. simpl. rewrite CallsE. simpl. congruence. }
  assert (OK2 : WorldOK s2).
  { intros _. subst s2. unfold errorHeader. rewrite RE. simpl. rewrite CE. eauto. }
  exists httpErr.
  exists (match writes.2 with
          | Some e => logged (LogFailedWriteErrorResponse e) s2
          | None => s2
          end).
  split.
  - rewrite (serveHTTP_stops [TJSON T] Call w r s s1 sE pathKeys err E1 Stop).
    erewrite bind_Ok by exact HE. now apply logIfError_eq.
  - split; [reflexivity|]. split; [exact Code|]. split; [exact Tag|].
    destruct writes.2 as [e|].
    + destruct (logged_frame (LogFailedWriteErrorResponse e) s2) as (R & Cl & _).
      rewrite R, Cl, R2. now repeat split.
    + rewrite R2. now repeat split.
Qed.

End AfterFailure.

(** An empty path segment under a hook that answers 422 with a text. *)
Lemma custom_hook_answers_extraction_failure_witness :
  serveHTTP [TPath KInt] (fun _ => ([OpWrite "handler ran"], [])) []
            (examplePathRequest EmptyString)
            (mkWorld None false (Some (fun err => [OpWriteHeader 422; OpWrite (Error err)]))
                     [] (mkResponseWriter [] 0 false) [])
  = Ok tt (mkWorld None false (Some (fun err => [OpWriteHeader 422; OpWrite (Error err)])) []
             (mkResponseWriter [TWriteHeader 422; TWrite "missing required path parameter: id"]
                               422 true) []).
Proof.
  pose (hook := fun err : error => [OpWriteHeader 422; OpWrite (Error err)]).
  pose (s := mkWorld None false (Some hook) [] (mkResponseWriter [] 0 false) []).
  destruct (custom_hook_answers_extraction_failure [TPath KInt]
              (fun _ => ([OpWrite "handler ran"], [])) []
              (examplePathRequest EmptyString) s s s ["id"] (NewMissingPathError "id") hook)
    as (E & _).
  - reflexivity.
  - eapply stops_here with (keyed := (EPath (Path.mk KInt (VInt 0) "id"), 1%nat));
      reflexivity.
  - reflexivity.
  - exact E.
Defined.

Lemma undecodable_body_response_witness :
  exists s',
    serveHTTP [TJSON "User"] (fun _ => ([OpWrite "handler ran"], [])) []
      (jsonRequest "{")
      (mkWorld (Some (mkConfig None None None
                        (Some (fun _ _ => inr (JsonSyntaxError "unexpected end of JSON input")))
                        None false None))
               true None [] (mkResponseWriter [] 0 false) [])
    = Ok tt s'
    /\ calls s' = []
    /\ statusCode (rw s') = 400
    /\ inl (bodyOf (inner (rw s')))
       = exampleEncode (AError (PtrHTTPError
                                  (HTTPError.mk 400 "invalid_json_syntax" "invalid JSON syntax"))).
Proof.
  destruct (undecodable_body_response "User" (fun _ => ([OpWrite "handler ran"], [])) []
              (jsonRequest "{") "{"
              (mkConfig None None None
                 (Some (fun _ _ => inr (JsonSyntaxError "unexpected end of JSON input")))
                 None false None)
              (JsonSyntaxError "unexpected end of JSON input")
              (mkWorld (Some (mkConfig None None None
                                (Some (fun _ _ => inr (JsonSyntaxError "unexpected end of JSON input")))
                                None false None))
                       true None [] (mkResponseWriter [] 0 false) []))
    as (httpErr & s' & E & -> & _ & _ & Cl & St & I);
    try reflexivity; try discriminate.
  exists s'. split; [exact E|]. split; [exact Cl|]. split; [exact St|].
  rewrite I. reflexivity.
Defined.

(** ** A result envelope with a code, under a custom hook *)

Section HookAfterCode.
Context {lib : GoLib}.

(** X19. A result envelope with a failure and a code that is not zero,
    handled with a custom hook installed on a wrapper that has committed
    nothing: the envelope's code is committed before the hook runs, so the
    status of the response is the (normalized) code of the envelope whatever
    the hook does, and every status that the hook sets is dropped with one
    warning on the configured logger. *)
Theorem envelope_code_precedes_hook
    (Code : Z) (Headers : option Values) (Data : option any) (err : error)
    (hook : error -> list WriterOp) (s : World) :
  WorldOK s -> headerWritten (rw s) = false -> CustomErrorHandler s = Some hook ->
  Code <> 0 ->
  exists s',
    handleResult (Result.mk Code Headers Data (Some err)) s = Ok None s'
    /\ statusCode (rw s') = normalize Code
    /\ headerWritten (rw s') = true
    /\ logs s'
       = (logs s ++ map (multipleWriteHeaderWarning (currentLogger s) (normalize Code))
                        (statusAttempts (hook err)))%list.
Proof.
  intros OK F Hook NZ.
  rewrite handleResult_steps by exact OK.
  cbn [Result.Headers Result.Code Result.Err Result.Data].
  unfold resultHeader. rewrite (proj2 (Z.eqb_neq Code 0) NZ).
  set (s1 := match Headers with
             | Some headers => addEvents (headerEvents headers) s
             | None => s
             end).
  assert (F1 : headerWritten (rw s1) = false) by (subst s1; now destruct Headers).
  assert (Same : config s1 = config s /\ configOnce s1 = configOnce s
                 /\ CustomErrorHandler s1 = CustomErrorHandler s /\ logs s1 = logs s)
    by (subst s1; now destruct Headers).
  destruct Same as (C1 & O1 & H1 & L1).
  rewrite F1.
  set (s2 := commit (normalize Code) s1).
  assert (OK2 : WorldOK s2) by (unfold WorldOK; simpl; rewrite C1, O1; exact OK).
  assert (Hook2 : CustomErrorHandler s2 = Some hook) by (simpl; congruence).
  destruct (runOps_committed (hook err) s2 OK2 eq_refl) as (s' & E & St & W & L).
  exists s'. split; [|split; [exact St|split; [exact W|]]].
  - rewrite (handleError_hook err hook s2 Hook2).
    erewrite bind_Ok by exact E. reflexivity.
  - rewrite L. simpl. rewrite L1. unfold currentLogger. simpl. now rewrite C1.
Qed.

End HookAfterCode.

(** ** A reader that fails *)

Section FailingReader.
Context {lib : GoLib}.

Lemma writeAll_fresh (b : string) (writes : list string) (s : World) :
  headerWritten (rw s) = false ->
  forM_ (b :: writes) (fun b => Write b ;; mret tt) s
  = Ok tt (addEvents (map TWrite (b :: writes)) (commit 200 s)).
Proof.
  intros F. simpl forM_.
  erewrite bind_Ok.
  2:{ erewrite bind_Ok by now apply Write_fresh. reflexivity. }
  rewrite writeAll_committed by reflexivity.
  now rewrite addEvents_addEvents.
Qed.

(** X20. A handler returns a reader that yields some chunks and then
    fails. On a wrapper that has committed nothing, the chunks are sent
    after the status line 200 (nothing at all is sent when there is no
    chunk), no content type is set, and the failure of the reader is only
    printed on the configured logger: the client gets no error response. *)
Theorem reader_failure_is_only_logged
    (r : Request) (chunks : list string) (err : error) (s : World) :
  WorldOK s -> headerWritten (rw s) = false ->
  exists s',
    routeResults r [Some (AReader chunks (Some err))] s = Ok tt s'
    /\ inner (rw s')
       = (inner (rw s) ++ match chunks with
                          | [] => []
                          | _ => TWriteHeader 200 :: map TWrite chunks
                          end)%list
    /\ logs s' = (logs s ++ [mkLogEntry (currentLogger s) (LogFailedWriteResponse err)])%list.
Proof.
  intros OK F. unfold routeResults, isNilValue, handleOneResult, handleCommonTypes.
  destruct chunks as [|b chunks].
  - eexists. split.
    + erewrite bind_Ok by reflexivity. now apply logIfError_eq.
    + destruct (logged_frame (LogFailedWriteResponse err) s) as (R & _ & _ & L & _).
      rewrite R, L, app_nil_r. now split.
  - set (s1 := addEvents (map TWrite (b :: chunks)) (commit 200 s)).
    assert (OK1 : WorldOK s1) by exact OK.
    exists (logged (LogFailedWriteResponse err) s1). split.
    + erewrite bind_Ok.
      2:{ erewrite bind_Ok by now apply writeAll_fresh. reflexivity. }
      exact (logIfError_eq LogFailedWriteResponse (Some err) s1 OK1).
    + destruct (logged_frame (LogFailedWriteResponse err) s1) as (R & _ & _ & L & _).
      rewrite R, L. simpl. rewrite <- app_assoc. now split.
Qed.

End FailingReader.

(** [mint.Err] with the code 409 under a hook that answers 422. *)
Lemma envelope_code_precedes_hook_witness :
  exists s',
    handleResult (Result.mk 409 None None (Some (OtherError "duplicate name" None)))
      (mkWorld None false (Some (fun err => [OpWriteHeader 422; OpWrite (Error err)]))
               [] (mkResponseWriter [] 0 false) [])
    = Ok None s'
    /\ statusCode (rw s') = 409
    /\ logs s' = [mkLogEntry None (LogMultipleWriteHeader 409 422)].
Proof.
  destruct (envelope_code_precedes_hook 409 None None (OtherError "duplicate name" None)
              (fun err => [OpWriteHeader 422; OpWrite (Error err)])
              (mkWorld None false (Some (fun err => [OpWriteHeader 422; OpWrite (Error err)]))
                       [] (mkResponseWriter [] 0 false) []))
    as (s' & E & St & _ & L); try reflexivity; try discriminate.
  exists s'. split; [exact E|]. split; [exact St|exact L].
Defined.

Lemma reader_failure_is_only_logged_witness :
  exists s',
    routeResults usersRequest
      [Some (AReader ["first half"] (Some (OtherError "unexpected EOF" None)))] initialWorld
    = Ok tt s'
    /\ inner (rw s') = [TWriteHeader 200; TWrite "first half"]
    /\ logs s' = [mkLogEntry None (LogFailedWriteResponse (OtherError "unexpected EOF" None))].
Proof.
  destruct (reader_failure_is_only_logged usersRequest ["first half"]
              (OtherError "unexpected EOF" None) initialWorld)
    as (s' & E & I & L); try reflexivity; try discriminate.
  exists s'. split; [exact E|]. split; [exact I|exact L].
Defined.

(** ** A decoded body reaches the handler function *)

Section DecodedBody.
Context {lib : GoLib}.

#[local] Existing Instance sameCalls_preorder.

Lemma bindParams_JSON (T : TypeName) (target : GoData) (r : Request) (body : string)
    (c : Config) (pathKeys : list string) (s : World) :
  config s = Some c -> Body r = inl body -> body <> EmptyString ->
  unmarshalOf c body T = inl target -> validateOf c T target = None ->
  bindParams r pathKeys 0 [TJSON T] s
  = Ok (Some [ArgExtractor (EJSON T target)]) (initialised (initialised s)).
Proof.
  intros C B NE U V. simpl bindParams. unfold assignKey. simpl SetKey. cbv iota.
  rewrite ret_bind. cbn [fst snd].
  erewrite bind_Ok.
  2:{ simpl Extract. erewrite bind_Ok by (eapply JSON_Extract_decoded; eassumption).
      reflexivity. }
  rewrite V. reflexivity.
Qed.

(** X21. A request whose body is not empty, is accepted by the JSON
    decoder and passes the validation step of the configuration, served by
    the closure of a handler whose only parameter is [JSON[T]]: the handler
    function is called exactly once, with the decoded value as its
    argument, whatever it then does and returns. *)
Theorem decoded_body_reaches_handler
    (T : TypeName) (Call : list Arg -> list WriterOp * list (option any))
    (w : list TEvent) (r : Request) (body : string) (c : Config) (target : GoData)
    (s : World) :
  config s = Some c -> Body r = inl body -> body <> EmptyString ->
  unmarshalOf c body T = inl target -> validateOf c T target = None ->
  calls (finalWorld (serveHTTP [TJSON T] Call w r s))
  = (calls s ++ [[ArgExtractor (EJSON T target)]])%list.
Proof.
  intros C B NE U V.
  pose proof sameCalls_frame as F. pose proof sameCalls_WriteHeader as WH.
  pose proof sameCalls_Write as W. pose proof sameCalls_header as Hd.
  assert (OK : WorldOK s) by (intros _; rewrite C; eauto).
  destruct (extractPatternNames_ok (Pattern r) s OK) as (pathKeys & s1 & E1 & OK1 & F1).
  destruct F1 as (_ & Calls1 & _ & C1 & _).
  set (s2 := withRW (mkResponseWriter w 0 false) s1).
  assert (C2 : config s2 = Some c) by (apply C1, C).
  pose proof (bindParams_JSON T target r body c pathKeys s2 C2 B NE U V) as EB.
  set (s3 := initialised (initialised s2)) in EB.
  assert (Calls3 : calls s3 = calls s).
  { subst s3. destruct (initialised_frame (initialised s2)) as (_ & -> & _).
    destruct (initialised_frame s2) as (_ & -> & _). exact Calls1. }
  set (args := [ArgExtractor (EJSON T target)]) in *.
  set (s4 := mkWorld (config s3) (configOnce s3) (CustomErrorHandler s3) (logs s3) (rw s3)
                     (calls s3 ++ [args])).
  assert (E : serveHTTP [TJSON T] Call w r s
              = (runOps (Call args).1 ;; routeResults r (Call args).2) s4).
  { unfold serveHTTP. erewrite bind_Ok by exact E1.
    erewrite bind_Ok by reflexivity.
    erewrite bind_Ok by exact EB.
    unfold callHandler. unfold mbind at 1, M_bind at 1, get.
    unfold mbind at 1, M_bind at 1. unfold mbind at 1, M_bind at 1, put.
    fold s4. unfold mbind, M_bind.
    destruct (runOps (Call args).1 s4) as [[] s5|p s5]; reflexivity. }
  rewrite E.
  pose proof (steps_runOps sameCalls WH W Hd (Call args).1 s4) as O.
  unfold sameCalls in O. unfold mbind, M_bind.
  destruct (runOps (Call args).1 s4) as [[] s5|p s5]; simpl in O.
  - pose proof (steps_routeResults sameCalls F WH W Hd r (Call args).2 s5) as Q.
    unfold sameCalls in Q. rewrite Q, O. simpl. now rewrite Calls3.
  - simpl. rewrite O. simpl. now rewrite Calls3.
Qed.

End DecodedBody.

Lemma decoded_body_reaches_handler_witness :
  calls (finalWorld
           (serveHTTP [TJSON "User"] (fun _ => ([], [Some (AStatusCode 204)])) []
              (jsonRequest "{}")
              (mkWorld (Some (validatingConfig false)) true None []
                       (mkResponseWriter [] 0 false) [])))
  = [[ArgExtractor (EJSON "User" namelessUser)]].
Proof.
  apply (decoded_body_reaches_handler "User" (fun _ => ([], [Some (AStatusCode 204)])) []
           (jsonRequest "{}") "{}" (validatingConfig false) namelessUser
           (mkWorld (Some (validatingConfig false)) true None []
                    (mkResponseWriter [] 0 false) []));
    try reflexivity; discriminate.
Defined.

(** ** Path names are consumed by position: the closure *)

Section PositionalClosure.
Context {lib : GoLib}.

#[local] Existing Instance sameCalls_preorder.

(** The closure binds the parameters against the names of the pattern of
    the request, from the first name on, on a fresh wrapper. *)
Lemma serveHTTP_binds (In : list ParamType)
    (Call : list Arg -> list WriterOp * list (option any))
    (w : list TEvent) (r : Request) (pathKeys : list string) (s s1 : World) :
  extractPatternNames (Pattern r) s = Ok pathKeys s1 ->
  serveHTTP In Call w r s
  = bindAndCall In Call r pathKeys (withRW (mkResponseWriter w 0 false) s1).
Proof.
  intros E1. unfold serveHTTP. erewrite bind_Ok by exact E1.
  erewrite bind_Ok by reflexivity. reflexivity.
Qed.

(** A key-settable parameter takes the name at [keyIdx]. *)
Lemma bindParams_takes_name (r : Request) (pathKeys : list string) (keyIdx : nat)
    (paramType : ParamType) (extractor : Extractor) (rest : list ParamType)
    (key : string) (s : World) :
  newExtractor paramType = Some extractor -> isKeySetterType paramType = true ->
  pathKeys !! keyIdx = Some key ->
  argKey (ArgExtractor (withKey extractor key)) = Some key
  /\ bindParams r pathKeys keyIdx (paramType :: rest) s
     = (res ← Extract (withKey extractor key) r;
        afterDecode r pathKeys (S keyIdx) rest res) s.
Proof.
  intros N KS L.
  destruct paramType as [T|T|T|k|cx| | |T]; try discriminate KS;
    simpl in N; injection N as <-; simpl in KS.
  - split; [reflexivity|].
    simpl bindParams. unfold assignKey. simpl SetKey. cbv iota. rewrite L.
    rewrite ret_bind. reflexivity.
  - split; [simpl; now rewrite KS|].
    simpl bindParams. unfold assignKey. simpl SetKey. rewrite KS, L.
    rewrite ret_bind. reflexivity.
Qed.

(** Every other parameter takes no name. *)
Lemma bindParams_takes_no_name (r : Request) (pathKeys : list string) (keyIdx : nat)
    (paramType : ParamType) (rest : list ParamType) (s : World) :
  isKeySetterType paramType = false ->
  bindParams r pathKeys keyIdx (paramType :: rest) s
  = match newExtractor paramType with
    | Some extractor => res ← Extract extractor r; afterDecode r pathKeys keyIdx rest res
    | None =>
        match paramType with
        | TResponseWriter =>
            args ← bindParams r pathKeys keyIdx rest; mret (cons ArgResponseWriter <$> args)
        | THTTPRequest =>
            args ← bindParams r pathKeys keyIdx rest; mret (cons ArgRequest <$> args)
        | _ => log_Panicf (UnsupportedParameterType (typeString paramType))
        end
    end s.
Proof.
  intros KS.
  destruct paramType as [T|T|T|k|cx| | |T]; try discriminate KS; try reflexivity.
  simpl in KS. simpl bindParams. unfold assignKey. simpl SetKey. rewrite KS.
  rewrite ret_bind. reflexivity.
Qed.

(** When the closure has called the handler function, it has bound all
    the parameters and passed the arguments bound. *)
Lemma serveHTTP_called (In : list ParamType)
    (Call : list Arg -> list WriterOp * list (option any))
    (w : list TEvent) (r : Request) (pathKeys : list string) (s s1 : World)
    (args : list Arg) :
  extractPatternNames (Pattern r) s = Ok pathKeys s1 ->
  calls (finalWorld (serveHTTP In Call w r s)) = (calls s ++ [args])%list ->
  exists s2,
    bindParams r pathKeys 0 In (withRW (mkResponseWriter w 0 false) s1) = Ok (Some args) s2.
Proof.
  intros E1 Called.
  pose proof sameCalls_frame as F. pose proof sameCalls_WriteHeader as WH.
  pose proof sameCalls_Write as W. pose proof sameCalls_header as Hd.
  pose proof (steps_extractPatternNames sameCalls F (Pattern r) s) as P.
  rewrite E1 in P. unfold sameCalls in P. simpl in P.
  rewrite (serveHTTP_binds In Call w r pathKeys s s1 E1) in Called.
  unfold bindAndCall in Called.
  set (s2 := withRW (mkResponseWriter w 0 false) s1) in *.
  pose proof (steps_bindParams sameCalls F WH W Hd r pathKeys In 0 s2) as B.
  unfold sameCalls in B.
  unfold mbind at 1, M_bind at 1 in Called.
  assert (No : calls s <> (calls s ++ [args])%list).
  { intros E. apply (f_equal length) in E. rewrite length_app in E. simpl in E. lia. }
  destruct (bindParams r pathKeys 0 In s2) as [[args'|] s3|p s3] eqn:EB; simpl in B, Called.
  - exists s3. do 2 f_equal.
    unfold callHandler in Called.
    unfold mbind at 1, M_bind at 1 in Called. unfold mbind at 1, M_bind at 1, get in Called.
    unfold mbind at 1, M_bind at 1, put in Called.
    set (s4 := mkWorld (config s3) (configOnce s3) (CustomErrorHandler s3) (logs s3) (rw s3)
                       (calls s3 ++ [args'])) in Called.
    pose proof (steps_runOps sameCalls WH W Hd (Call args').1 s4) as O.
    unfold sameCalls in O.
    unfold mbind at 1, M_bind at 1 in Called.
    destruct (runOps (Call args').1 s4) as [[] s5|p s5]; simpl in O.
    + unfold mret at 1, M_ret at 1 in Called.
      pose proof (steps_routeResults sameCalls F WH W Hd r (Call args').2 s5) as Q.
      unfold sameCalls in Q. rewrite Q, O in Called. simpl in Called.
      rewrite B in Called. simpl in Called. rewrite P in Called.
      now apply app_inj_tail in Called as [_ ->].
    + simpl in Called. rewrite O in Called. simpl in Called.
      rewrite B in Called. simpl in Called. rewrite P in Called.
      now apply app_inj_tail in Called as [_ ->].
  - exfalso. apply No. rewrite <- Called, B. simpl. now rewrite P.
  - exfalso. apply No. rewrite <- Called, B. simpl. now rewrite P.
Qed.

(** C6. The pattern [/items/{category}/{id}] parses to the names
    [category], [id], in any state and without a log line. For every
    handler, the closure binds its parameters against the names of the
    pattern of the request from the first name on, in declared order: a
    key-settable parameter reached while a name is left takes that name as
    its key, whatever the name is, and the loop goes on with the next name;
    any other parameter takes no name; and a key-settable parameter reached
    when no name is left makes the closure panic with the
    insufficient-path-parameters message. So whenever the loop binds all the
    parameters, and whenever the closure calls the handler function, the
    key-settable arguments hold, in parameter order, the first names of the
    pattern, one name each. *)
Theorem path_names_consumed_positionally :
  (forall s : World,
      extractPatternNames "/items/{category}/{id}" s = Ok ["category"; "id"] s)
  /\ (forall (In : list ParamType) (Call : list Arg -> list WriterOp * list (option any))
             (w : list TEvent) (r : Request) (pathKeys : list string) (s s1 : World),
         extractPatternNames (Pattern r) s = Ok pathKeys s1 ->
         serveHTTP In Call w r s
         = bindAndCall In Call r pathKeys (withRW (mkResponseWriter w 0 false) s1))
  /\ (forall (r : Request) (pathKeys : list string) (keyIdx : nat) (paramType : ParamType)
             (extractor : Extractor) (rest : list ParamType) (key : string) (s : World),
         newExtractor paramType = Some extractor -> isKeySetterType paramType = true ->
         pathKeys !! keyIdx = Some key ->
         argKey (ArgExtractor (withKey extractor key)) = Some key
         /\ bindParams r pathKeys keyIdx (paramType :: rest) s
            = (res ← Extract (withKey extractor key) r;
               afterDecode r pathKeys (S keyIdx) rest res) s)
  /\ (forall (r : Request) (pathKeys : list string) (keyIdx : nat) (paramType : ParamType)
             (extractor : Extractor) (rest : list ParamType) (s : World),
         newExtractor paramType = Some extractor -> isKeySetterType paramType = false ->
         bindParams r pathKeys keyIdx (paramType :: rest) s
         = (res ← Extract extractor r; afterDecode r pathKeys keyIdx rest res) s)
  /\ (forall (r : Request) (pathKeys : list string) (keyIdx : nat)
             (paramType : ParamType) (rest : list ParamType) (s : World),
         isKeySetterType paramType = true -> (length pathKeys <= keyIdx)%nat ->
         panicked (bindParams r pathKeys keyIdx (paramType :: rest) s) = true
         /\ logs (finalWorld (bindParams r pathKeys keyIdx (paramType :: rest) s))
            = (logs s ++ [mkLogEntry None (LogPanic (InsufficientPathParameters (Pattern r)))])%list)
  /\ (forall (r : Request) (pathKeys : list string) (paramTypes : list ParamType)
             (keyIdx : nat) (args : list Arg) (s s' : World),
         bindParams r pathKeys keyIdx paramTypes s = Ok (Some args) s' ->
         argKeys args = take (length (filter isKeySetterType paramTypes)) (drop keyIdx pathKeys)
         /\ length (argKeys args) = length (filter isKeySetterType paramTypes))
  /\ (forall (In : list ParamType) (Call : list Arg -> list WriterOp * list (option any))
             (w : list TEvent) (r : Request) (pathKeys : list string) (s s1 : World)
             (args : list Arg),
         extractPatternNames (Pattern r) s = Ok pathKeys s1 ->
         calls (finalWorld (serveHTTP In Call w r s)) = (calls s ++ [args])%list ->
         argKeys args = take (length (filter isKeySetterType In)) pathKeys
         /\ length (argKeys args) = length (filter isKeySetterType In)).
Proof.
  split; [|split; [|split; [|split; [|split; [|split]]]]].
  - intros s. reflexivity.
  - intros. now apply serveHTTP_binds.
  - intros. now apply bindParams_takes_name.
  - intros r pathKeys keyIdx paramType extractor rest s N KS.
    rewrite (bindParams_takes_no_name r pathKeys keyIdx paramType rest s KS). now rewrite N.
  - intros r pathKeys keyIdx paramType rest s KS Len.
    rewrite (bindParams_exhausted r pathKeys keyIdx paramType rest s KS Len).
    split; reflexivity.
  - intros. eapply bindParams_keys; eauto.
  - intros In Call w r pathKeys s s1 args E1 Called.
    destruct (serveHTTP_called In Call w r pathKeys s s1 args E1 Called) as (s2 & B).
    apply (bindParams_keys r pathKeys In 0 args _ _ B).
Qed.

End PositionalClosure.

(** The handler [func(m.Path[string], http.ResponseWriter, m.Path[int])]
    served on [/items/{category}/{id}]: the closure calls it with the first
    parameter keyed [category] and the third keyed [id]. *)
Lemma path_names_consumed_positionally_witness :
  exists args,
    calls (finalWorld
             (serveHTTP [TPath KString; TResponseWriter; TPath KInt] (fun _ => ([], [])) []
                        itemsRequest initialWorld)) = [args]
    /\ args = [ArgExtractor (EPath (Path.mk KString (VString "books") "category"));
               ArgResponseWriter;
               ArgExtractor (EPath (Path.mk KInt (VInt 7) "id"))]
    /\ argKeys args = ["category"; "id"].
Proof.
  eexists. split; [vm_compute; reflexivity|]. split; [reflexivity|].
  destruct path_names_consumed_positionally as (Names & _ & _ & _ & _ & _ & Called).
  apply (Called [TPath KString; TResponseWriter; TPath KInt] (fun _ => ([], [])) []
                itemsRequest ["category"; "id"] initialWorld initialWorld).
  - apply (Names initialWorld).
  - vm_compute. reflexivity.
Defined.
